(** * Account and TradingStrategy: a shallow embedding

    The stateful Cython classes [Account] (accounting/accounts/base.pyx) and
    [TradingStrategy] (trading/strategy.pyx) are embedded as records; their
    methods are computations in a state-and-exception monad in which, as in
    Python, the mutations made before an exception is raised persist. *)

From stdpp Require Import base options decidable countable strings list gmap fin_maps sets.
From Stdlib Require Import ZArith Lia Sorted.

Local Open Scope string_scope.
Local Open Scope Z_scope.

(** ** Exceptions and results *)

(** The Python exception classes the embedded code raises; the payload is the
    message (or the offending parameter name for the [Condition] checks). *)
Inductive exn : Type :=
  | ValueError (msg : string)
  | RuntimeError (msg : string)
  | AttributeError (msg : string)
  | UnboundLocalError (msg : string)
  | InvalidStateTrigger (msg : string)
  | UserException (msg : string).

Inductive result (A : Type) : Type :=
  | Ok (a : A)
  | Raise (e : exn).
Arguments Ok {A} a.
Arguments Raise {A} e.

Definition is_Ok {A} (r : result A) : bool :=
  match r with Ok _ => true | Raise _ => false end.

(** ** The method monad: [self] is threaded through, and survives a raise. *)

Definition M (S A : Type) : Type := S -> result A * S.

Definition ret {S A} (a : A) : M S A := fun s => (Ok a, s).

Definition bind {S A B} (c : M S A) (k : A -> M S B) : M S B :=
  fun s => match c s with
           | (Ok a, s') => k a s'
           | (Raise e, s') => (Raise e, s')
           end.

Definition raise {S A} (e : exn) : M S A := fun s => (Raise e, s).

Definition get {S} : M S S := fun s => (Ok s, s).

Definition modify {S} (f : S -> S) : M S unit := fun s => (Ok tt, f s).

(** [try: c  except Exception as ex: h ex] *)
Definition try_except {S A} (c : M S A) (h : exn -> M S A) : M S A :=
  fun s => match c s with
           | (Ok a, s') => (Ok a, s')
           | (Raise e, s') => h e s'
           end.

(** [for x in xs: body x] *)
Fixpoint for_each {S A} (xs : list A) (body : A -> M S unit) : M S unit :=
  match xs with
  | [] => ret tt
  | x :: xs' => bind (body x) (fun _ => for_each xs' body)
  end.

Global Instance M_ret {S} : MRet (M S) := fun A a => ret a.
Global Instance M_bind {S} : MBind (M S) := fun A B k c => bind c k.

(** ** Condition

    Modelled from the spec: the [Condition] precondition checks
    (core/correctness) are not part of the sources at hand; as the
    docstrings of the callers document ("Raises ValueError"), a failed check
    raises [ValueError] naming the parameter, and a passed check has no
    effect. *)
Module Condition.

Definition true {S} (predicate : bool) (fail_msg : string) : M S unit :=
  if predicate then ret tt else raise (ValueError fail_msg).

Definition not_none {S A} (argument : option A) (param : string) : M S A :=
  match argument with
  | Some a => ret a
  | None => raise (ValueError param)
  end.

Definition equal {S A} `{EqDecision A} (argument1 argument2 : A)
    (param1 param2 : string) : M S unit :=
  if decide (argument1 = argument2) then ret tt
  else raise (ValueError (param1 ++ " != " ++ param2)).

Definition not_equal {S A} `{EqDecision A} (argument1 argument2 : A)
    (param1 param2 : string) : M S unit :=
  if decide (argument1 = argument2)
  then raise (ValueError (param1 ++ " == " ++ param2)) else ret tt.

Definition not_empty {S A} (collection : list A) (param : string) : M S unit :=
  match collection with
  | [] => raise (ValueError param)
  | _ :: _ => ret tt
  end.

Definition not_in {S} `{Countable K} (element : K) (collection : gset K)
    (param1 param2 : string) : M S unit :=
  if decide (element ∈ collection)
  then raise (ValueError (param1 ++ " in " ++ param2)) else ret tt.

End Condition.

(** ** Accounts (accounting/accounts/base.pyx) *)
Module Accounts.

(** A currency is identified by its interned code. *)
Definition Currency : Type := string.
Definition AccountId : Type := string.

(** Modelled from the spec: [Money] (model/objects) is "(amount:
    fixed-precision decimal, currency: interned code)"; the amount is kept
    as the integer number of the currency's smallest units, so that the sum
    of two amounts of one currency is exact. *)
Record Money : Type := mkMoney {
  amount : Z;
  money_currency : Currency;
}.

(** Modelled from the spec: [AccountBalance] (model/objects) is
    "(currency, total, locked, free)". *)
Record AccountBalance : Type := mkAccountBalance {
  currency : Currency;
  total : Money;
  locked : Money;
  free : Money;
}.

(** Modelled from the spec: the account type (model/c_enums), "cash vs.
    margin accounts". *)
Inductive AccountType : Type := CASH | MARGIN.

(** Modelled from the spec: the [AccountState] event (model/events), as
    the fields of it that [Account] reads. *)
Record AccountState : Type := mkAccountState {
  account_id : AccountId;
  account_type : AccountType;
  event_base_currency : option Currency;
  balances : list AccountBalance;
}.

Record Account : Type := mkAccount {
  id : AccountId;
  type : AccountType;
  base_currency : option Currency;
  calculate_account_state : bool;
  _starting_balances : gmap Currency Money;
  _events : list AccountState;
  _balances : gmap Currency AccountBalance;
  _commissions : gmap Currency Money;
}.

Definition set_events (f : list AccountState -> list AccountState)
    (self : Account) : Account :=
  mkAccount (id self) (type self) (base_currency self)
    (calculate_account_state self) (_starting_balances self)
    (f (_events self)) (_balances self) (_commissions self).

Definition set_balances
    (f : gmap Currency AccountBalance -> gmap Currency AccountBalance)
    (self : Account) : Account :=
  mkAccount (id self) (type self) (base_currency self)
    (calculate_account_state self) (_starting_balances self)
    (_events self) (f (_balances self)) (_commissions self).

Definition set_commissions
    (f : gmap Currency Money -> gmap Currency Money)
    (self : Account) : Account :=
  mkAccount (id self) (type self) (base_currency self)
    (calculate_account_state self) (_starting_balances self)
    (_events self) (_balances self) (f (_commissions self)).

(** [for balance in balances: self._balances[balance.currency] = balance] *)
Definition store_balances (balances : list AccountBalance)
    (m : gmap Currency AccountBalance) : gmap Currency AccountBalance :=
  fold_left (fun m balance => <[currency balance := balance]> m) balances m.

Definition update_balances (balances : list AccountBalance) : M Account unit :=
  Condition.not_empty balances "balances";;
  modify (set_balances (store_balances balances)).

(** [Account.__init__]: the constructor fails when [update_balances] does. *)
Definition init (event : AccountState) (calculate_account_state : bool)
    : result unit * Account :=
  update_balances (balances event)
    (mkAccount (account_id event) (account_type event)
       (event_base_currency event) calculate_account_state
       (fold_left (fun m b => <[currency b := total b]> m) (balances event) ∅)
       [event] ∅ ∅).

(** *** Queries *)

Definition last_event_c (self : Account) : option AccountState :=
  last (_events self).

Definition event_count_c (self : Account) : nat := length (_events self).

(** [if currency is None: currency = self.base_currency;
    Condition.not_none(currency, "currency")] *)
Definition resolve_currency (self : Account) (currency : option Currency)
    : M Account Currency :=
  let currency :=
    match currency with None => base_currency self | Some c => Some c end in
  Condition.not_none currency "currency".

Definition balance (currency : option Currency)
    : M Account (option AccountBalance) :=
  self ← get;
  currency ← resolve_currency self currency;
  ret (_balances self !! currency).

Definition balance_total (currency : option Currency)
    : M Account (option Money) :=
  self ← get;
  currency ← resolve_currency self currency;
  match _balances self !! currency with
  | None => ret None
  | Some balance => ret (Some (total balance))
  end.

Definition balance_free (currency : option Currency)
    : M Account (option Money) :=
  self ← get;
  currency ← resolve_currency self currency;
  match _balances self !! currency with
  | None => ret None
  | Some balance => ret (Some (free balance))
  end.

Definition balance_locked (currency : option Currency)
    : M Account (option Money) :=
  self ← get;
  currency ← resolve_currency self currency;
  match _balances self !! currency with
  | None => ret None
  | Some balance => ret (Some (locked balance))
  end.

Definition commission (self : Account) (currency : Currency) : option Money :=
  _commissions self !! currency.

(** *** Commands *)

Definition apply (event : AccountState) : M Account unit :=
  self ← get;
  Condition.equal (account_id event) (id self) "self.id" "event.account_id";;
  Condition.equal (event_base_currency event) (base_currency self)
    "self.base_currency" "event.base_currency";;
  match base_currency self with
  | Some base =>
      (* Single-currency account *)
      Condition.true (bool_decide (length (balances event) = 1%nat))
        "single-currency account has multiple currency update";;
      first ← Condition.not_none (head (balances event)) "event.balances[0]";
      Condition.equal (currency first) base
        "event.balances[0].currency" "self.base_currency"
  | None => ret tt
  end;;
  modify (set_events (fun events => (events ++ [event])%list));;
  update_balances (balances event).

Definition update_commissions (commission : Money) : M Account unit :=
  if decide (amount commission = 0) then ret tt (* Nothing to update *)
  else
    self ← get;
    let currency := money_currency commission in
    let total_commissions :=
      match _commissions self !! currency with
      | Some m => amount m
      | None => 0
      end in
    modify (set_commissions
              <[currency := mkMoney (total_commissions + amount commission) currency]>).

(** A run of [apply] over a list of events, stopping at the first failure. *)
Definition apply_all (events : list AccountState) : M Account unit :=
  for_each events apply.

(** The running commission total of a currency, zero when none is kept. *)
Definition commission_total (self : Account) (c : Currency) : Z :=
  match commission self c with Some m => amount m | None => 0 end.

(** *** The remaining queries *)

(** [return self._events.copy()] *)
Definition events_c (self : Account) : list AccountState := _events self.

(** [return list(self._balances.keys())]; the order of the keys is not
    modelled, only which currencies are listed. *)
Definition currencies (self : Account) : list Currency :=
  (map_to_list (_balances self)).*1.

(** [return self._starting_balances.copy()] *)
Definition starting_balances (self : Account) : gmap Currency Money :=
  _starting_balances self.

(** [return {c: b.total for c, b in self._balances.items()}] *)
Definition balances_total (self : Account) : gmap Currency Money :=
  total <$> _balances self.

(** [return {c: b.free for c, b in self._balances.items()}] *)
Definition balances_free (self : Account) : gmap Currency Money :=
  free <$> _balances self.

(** [return {c: b.locked for c, b in self._balances.items()}] *)
Definition balances_locked (self : Account) : gmap Currency Money :=
  locked <$> _balances self.

(** [return self._commissions.copy()] *)
Definition commissions (self : Account) : gmap Currency Money :=
  _commissions self.

(** *** Runs of calls

    One call of a command of the account, and a run of such calls made one
    after the other by a caller that catches what a call raises: each call
    starts from the account as the call before left it. *)
Inductive Call : Type :=
  | Apply (event : AccountState)
  | UpdateCommissions (commission : Money).

Definition run_call (call : Call) : M Account unit :=
  match call with
  | Apply event => apply event
  | UpdateCommissions commission => update_commissions commission
  end.

Definition run_calls (calls : list Call) (self : Account) : Account :=
  fold_left (fun self call => snd (run_call call self)) calls self.

(** The commissions a run of calls passes to [update_commissions]. *)
Definition commissions_of (calls : list Call) : list Money :=
  omap (fun call => match call with
                    | UpdateCommissions commission => Some commission
                    | Apply _ => None
                    end) calls.

(** The sum of the amounts of the commissions of one currency. *)
Definition commission_sum (c : Currency) (commissions : list Money) : Z :=
  foldr (fun m acc => if decide (money_currency m = c) then amount m + acc else acc)
    0 commissions.

End Accounts.

(** ** Messages (core/message.pyx) *)
Module Messages.

(** Modelled from the spec: "category ∈ {Command, Document, Event,
    Request, Response}"; the [MessageCategory] enum itself is declared in
    core/message.pxd, its members are the five [from_str] returns. *)
Inductive MessageCategory : Type :=
  | COMMAND | DOCUMENT | EVENT | REQUEST | RESPONSE.

Global Instance MessageCategory_eq_dec : EqDecision MessageCategory.
Proof. solve_decision. Defined.

Definition UUID : Type := string.

(** *** MessageCategoryParser *)

(** The message of [ValueError(f"value was invalid, was {value}")] is kept
    as its fixed part. *)
Definition to_str (value : Z) : result string :=
  if decide (value = 1) then Ok "COMMAND"
  else if decide (value = 2) then Ok "DOCUMENT"
  else if decide (value = 3) then Ok "EVENT"
  else if decide (value = 4) then Ok "REQUEST"
  else if decide (value = 5) then Ok "RESPONSE"
  else Raise (ValueError "value was invalid").

Definition from_str (value : string) : result MessageCategory :=
  if decide (value = "COMMAND") then Ok COMMAND
  else if decide (value = "DOCUMENT") then Ok DOCUMENT
  else if decide (value = "EVENT") then Ok EVENT
  else if decide (value = "REQUEST") then Ok REQUEST
  else if decide (value = "RESPONSE") then Ok RESPONSE
  else Raise (ValueError "value was invalid").

Definition to_str_py (value : Z) : result string := to_str value.
Definition from_str_py (value : string) : result MessageCategory :=
  from_str value.

(** *** Message and its five subclasses

    A message object: the three attributes [Message.__init__] sets, and
    the attribute its subclass adds. *)
Inductive Extension : Type :=
  | NoExtension
  | EventExtension (ts_event : Z)
  | RequestExtension (callback : string)
  | ResponseExtension (correlation_id : UUID).

Record Message : Type := mkMessage {
  category : MessageCategory;
  id : UUID;
  ts_init : Z;
  extension : Extension;
}.

(** [Message.__init__(self, category, message_id, ts_init)] *)
Definition Message_init (category : MessageCategory) (message_id : UUID)
    (ts_init : Z) : Message :=
  mkMessage category message_id ts_init NoExtension.

Definition set_extension (x : Extension) (self : Message) : Message :=
  mkMessage (category self) (id self) (ts_init self) x.

(** [super().__init__(MessageCategory.COMMAND, command_id, ts_init)] *)
Definition Command_init (command_id : UUID) (ts_init : Z) : Message :=
  Message_init COMMAND command_id ts_init.

Definition Document_init (document_id : UUID) (ts_init : Z) : Message :=
  Message_init DOCUMENT document_id ts_init.

(** [super().__init__(MessageCategory.EVENT, event_id, ts_init);
    self.ts_event = ts_event] *)
Definition Event_init (event_id : UUID) (ts_event ts_init : Z) : Message :=
  set_extension (EventExtension ts_event) (Message_init EVENT event_id ts_init).

Definition Request_init (callback : string) (request_id : UUID) (ts_init : Z)
    : Message :=
  set_extension (RequestExtension callback)
    (Message_init REQUEST request_id ts_init).

Definition Response_init (correlation_id response_id : UUID) (ts_init : Z)
    : Message :=
  set_extension (ResponseExtension correlation_id)
    (Message_init RESPONSE response_id ts_init).

(** [return self.category == other.category and self.id == other.id] *)
Definition __eq__ (self other : Message) : bool :=
  bool_decide (category self = category other)
  && bool_decide (id self = id other).

(** [return hash((self.category, self.id))], for Python's [hash] on the
    pair. *)
Definition __hash__ (hash : MessageCategory * UUID -> Z) (self : Message) : Z :=
  hash (category self, id self).

End Messages.

(** ** CryptoSwap (model/instruments/crypto_swap.pyx) *)
Module Instruments.

(** The values a dictionary of initialization values holds. *)
Inductive Value : Type :=
  | VNone
  | VStr (s : string)
  | VBytes (b : string)
  | VInt (n : Z)
  | VBool (b : bool).

(** What the conversions raise: a missing key, a value of the wrong type
    for a typed local or parameter, or whatever a parser of a component
    raises. *)
Inductive error : Type :=
  | KeyError (key : string)
  | TypeError (what : string)
  | OverflowError (what : string)
  | ParseError (what : string).

Inductive outcome (A : Type) : Type :=
  | Done (a : A)
  | Fail (e : error).
Arguments Done {A} a.
Arguments Fail {A} e.

Definition and_then {A B} (c : outcome A) (k : A -> outcome B) : outcome B :=
  match c with
  | Done a => k a
  | Fail e => Fail e
  end.

Global Instance outcome_ret : MRet outcome := fun A a => Done a.
Global Instance outcome_bind : MBind outcome := fun A B k c => and_then c k.

(** [values[key]] *)
Definition item (values : gmap string Value) (key : string) : outcome Value :=
  match values !! key with
  | Some v => Done v
  | None => Fail (KeyError key)
  end.

(** Assignment to a local or parameter typed [str] or [bytes]: [None]
    passes, a value of another type raises [TypeError]. *)
Definition as_str (v : Value) : outcome (option string) :=
  match v with
  | VNone => Done None
  | VStr s => Done (Some s)
  | _ => Fail (TypeError "str")
  end.

Definition as_bytes (v : Value) : outcome (option string) :=
  match v with
  | VNone => Done None
  | VBytes b => Done (Some b)
  | _ => Fail (TypeError "bytes")
  end.

(** Conversion to a C integer of the given width ([int], [int64_t]) and to
    [bint]. A Python [bool] is an [int]; an integer outside the range of
    the C type raises [OverflowError]; the truth value of text is whether
    it is not empty. *)
Definition in_range (bits : Z) (n : Z) : Prop :=
  - 2 ^ (bits - 1) <= n < 2 ^ (bits - 1).

Definition as_int (bits : Z) (v : Value) : outcome Z :=
  match v with
  | VInt n =>
      if decide (in_range bits n) then Done n else Fail (OverflowError "int")
  | VBool b => Done (if b then 1 else 0)
  | _ => Fail (TypeError "int")
  end.

Definition as_bint (v : Value) : outcome bool :=
  match v with
  | VNone => Done false
  | VStr s | VBytes s => Done (negb (bool_decide (s = "")))
  | VInt n => Done (negb (bool_decide (n = 0)))
  | VBool b => Done b
  end.

Inductive AssetClass : Type := FX | EQUITY | COMMODITY | CRYPTO.
Inductive AssetType : Type := SPOT | SWAP | FUTURE | OPTION.

Section Components.

(** Modelled from the spec: the identifier, currency, price, quantity,
    money and decimal classes (model/identifiers, model/currency,
    model/objects, the standard library's [Decimal]) and [orjson] are
    outside the sources at hand; each comes with its "canonical string
    encoding", the text it prints as and the parser of that text. *)
Context {InstrumentId Currency Price Quantity Money Decimal Info : Type}.
Context `{EqDecision Currency}.

Variable id_value : InstrumentId -> string.
Variable InstrumentId_from_str_c : option string -> outcome InstrumentId.
Variable code : Currency -> string.
Variable Currency_from_str_c : option string -> outcome Currency.
Variable Price_str : Price -> string.
Variable Price_from_str_c : option string -> outcome Price.
Variable Quantity_str : Quantity -> string.
Variable Quantity_from_str_c : option string -> outcome Quantity.
Variable Quantity_from_int_c : Z -> Quantity.
Variable Money_to_str : Money -> string.
Variable Money_from_str_c : option string -> outcome Money.
Variable Decimal_str : Decimal -> string.
Variable Decimal_new : Value -> outcome Decimal.
Variable orjson_dumps : Info -> string.
Variable orjson_loads : string -> outcome Info.

Record CryptoSwap : Type := mkCryptoSwap {
  id : InstrumentId;
  asset_class : AssetClass;
  asset_type : AssetType;
  base_currency : Currency;
  quote_currency : Currency;
  settlement_currency : Currency;
  is_inverse : bool;
  is_quanto : bool;
  price_precision : Z;
  size_precision : Z;
  price_increment : Price;
  size_increment : Quantity;
  multiplier : Quantity;
  lot_size : Quantity;
  max_quantity : option Quantity;
  min_quantity : option Quantity;
  max_notional : option Money;
  min_notional : option Money;
  max_price : option Price;
  min_price : option Price;
  margin_init : Decimal;
  margin_maint : Decimal;
  maker_fee : Decimal;
  taker_fee : Decimal;
  ts_event : Z;
  ts_init : Z;
  info : option Info;
}.

(** Modelled from the spec: [Instrument.__init__] (model/instruments/base)
    keeps each argument as the attribute of its name, after the checks
    the docstring of [CryptoSwap.__init__] lists ("Raises ValueError");
    the checks are any function of the instrument being built. *)
Variable Instrument_checks : CryptoSwap -> option error.

(** [CryptoSwap.__init__] *)
Definition init (instrument_id : InstrumentId)
    (base_currency quote_currency settlement_currency : Currency)
    (is_inverse : bool) (price_precision size_precision : Z)
    (price_increment : Price) (size_increment : Quantity)
    (max_quantity min_quantity : option Quantity)
    (max_notional min_notional : option Money)
    (max_price min_price : option Price)
    (margin_init margin_maint maker_fee taker_fee : Decimal)
    (ts_event ts_init : Z) (info : option Info) : outcome CryptoSwap :=
  let self :=
    mkCryptoSwap instrument_id CRYPTO SWAP base_currency quote_currency
      settlement_currency is_inverse
      (if decide (settlement_currency <> base_currency
                  /\ settlement_currency <> quote_currency)
       then true else false)
      price_precision size_precision price_increment size_increment
      (Quantity_from_int_c 1) (Quantity_from_int_c 1)
      max_quantity min_quantity max_notional min_notional
      max_price min_price margin_init margin_maint maker_fee taker_fee
      ts_event ts_init info in
  match Instrument_checks self with
  | Some e => Fail e
  | None => Done self
  end.

Definition get_base_currency (self : CryptoSwap) : Currency :=
  base_currency self.

(** [f(x) if x is not None else None] *)
Definition if_not_none {A B} (x : option A) (f : A -> outcome B)
    : outcome (option B) :=
  match x with
  | Some a => b ← f a; Done (Some b)
  | None => Done None
  end.

Definition from_dict_c (values : gmap string Value) : outcome CryptoSwap :=
  max_q ← item values "max_quantity" ≫= as_str;
  min_q ← item values "min_quantity" ≫= as_str;
  max_n ← item values "max_notional" ≫= as_str;
  min_n ← item values "min_notional" ≫= as_str;
  max_p ← item values "max_price" ≫= as_str;
  min_p ← item values "min_price" ≫= as_str;
  info ← item values "info" ≫= as_bytes;
  instrument_id ← (item values "id" ≫= as_str) ≫= InstrumentId_from_str_c;
  base_currency ←
    (item values "base_currency" ≫= as_str) ≫= Currency_from_str_c;
  quote_currency ←
    (item values "quote_currency" ≫= as_str) ≫= Currency_from_str_c;
  settlement_currency ←
    (item values "settlement_currency" ≫= as_str) ≫= Currency_from_str_c;
  is_inverse ← item values "is_inverse";
  price_precision ← item values "price_precision";
  size_precision ← item values "size_precision";
  price_increment ←
    (item values "price_increment" ≫= as_str) ≫= Price_from_str_c;
  size_increment ←
    (item values "size_increment" ≫= as_str) ≫= Quantity_from_str_c;
  max_quantity ← if_not_none max_q (fun s => Quantity_from_str_c (Some s));
  min_quantity ← if_not_none min_q (fun s => Quantity_from_str_c (Some s));
  max_notional ← if_not_none max_n (fun s => Money_from_str_c (Some s));
  min_notional ← if_not_none min_n (fun s => Money_from_str_c (Some s));
  max_price ← if_not_none max_p (fun s => Price_from_str_c (Some s));
  min_price ← if_not_none min_p (fun s => Price_from_str_c (Some s));
  margin_init ← item values "margin_init" ≫= Decimal_new;
  margin_maint ← item values "margin_maint" ≫= Decimal_new;
  maker_fee ← item values "maker_fee" ≫= Decimal_new;
  taker_fee ← item values "taker_fee" ≫= Decimal_new;
  ts_event ← item values "ts_event";
  ts_init ← item values "ts_init";
  info ← if_not_none info orjson_loads;
  (* the call converts the arguments of a C type *)
  is_inverse ← as_bint is_inverse;
  price_precision ← as_int 32 price_precision;
  size_precision ← as_int 32 size_precision;
  ts_event ← as_int 64 ts_event;
  ts_init ← as_int 64 ts_init;
  init instrument_id base_currency quote_currency settlement_currency
    is_inverse price_precision size_precision price_increment
    size_increment max_quantity min_quantity max_notional min_notional
    max_price min_price margin_init margin_maint maker_fee taker_fee
    ts_event ts_init info.

(** [str(x) if x is not None else None] *)
Definition str_or_none {A} (print : A -> string) (x : option A) : Value :=
  match x with
  | Some a => VStr (print a)
  | None => VNone
  end.

Definition to_dict_c (obj : CryptoSwap) : gmap string Value :=
  <["type" := VStr "CryptoSwap"]>
  (<["id" := VStr (id_value (id obj))]>
  (<["base_currency" := VStr (code (base_currency obj))]>
  (<["quote_currency" := VStr (code (quote_currency obj))]>
  (<["settlement_currency" := VStr (code (settlement_currency obj))]>
  (<["is_inverse" := VBool (is_inverse obj)]>
  (<["price_precision" := VInt (price_precision obj)]>
  (<["price_increment" := VStr (Price_str (price_increment obj))]>
  (<["size_precision" := VInt (size_precision obj)]>
  (<["size_increment" := VStr (Quantity_str (size_increment obj))]>
  (<["max_quantity" := str_or_none Quantity_str (max_quantity obj)]>
  (<["min_quantity" := str_or_none Quantity_str (min_quantity obj)]>
  (<["max_notional" := str_or_none Money_to_str (max_notional obj)]>
  (<["min_notional" := str_or_none Money_to_str (min_notional obj)]>
  (<["max_price" := str_or_none Price_str (max_price obj)]>
  (<["min_price" := str_or_none Price_str (min_price obj)]>
  (<["margin_init" := VStr (Decimal_str (margin_init obj))]>
  (<["margin_maint" := VStr (Decimal_str (margin_maint obj))]>
  (<["maker_fee" := VStr (Decimal_str (maker_fee obj))]>
  (<["taker_fee" := VStr (Decimal_str (taker_fee obj))]>
  (<["ts_event" := VInt (ts_event obj)]>
  (<["ts_init" := VInt (ts_init obj)]>
  (<["info" := match info obj with
               | Some i => VBytes (orjson_dumps i)
               | None => VNone
               end]> ∅)))))))))))))))))))))).

Definition from_dict (values : gmap string Value) : outcome CryptoSwap :=
  from_dict_c values.

Definition to_dict (obj : CryptoSwap) : gmap string Value := to_dict_c obj.

(** The components read back what they print. *)
Definition codecs_round_trip : Prop :=
  (forall i, InstrumentId_from_str_c (Some (id_value i)) = Done i)
  /\ (forall c, Currency_from_str_c (Some (code c)) = Done c)
  /\ (forall p, Price_from_str_c (Some (Price_str p)) = Done p)
  /\ (forall q, Quantity_from_str_c (Some (Quantity_str q)) = Done q)
  /\ (forall m, Money_from_str_c (Some (Money_to_str m)) = Done m)
  /\ (forall d, Decimal_new (VStr (Decimal_str d)) = Done d)
  /\ (forall i, orjson_loads (orjson_dumps i) = Done i).

(** The instruments the constructor builds: the attributes of a C
    integer type hold values of that type, and the constructor, given
    the attributes, returns the instrument. *)
Definition constructed (obj : CryptoSwap) : Prop :=
  in_range 32 (price_precision obj) /\ in_range 32 (size_precision obj)
  /\ in_range 64 (ts_event obj) /\ in_range 64 (ts_init obj) /\
  init (id obj) (base_currency obj) (quote_currency obj)
    (settlement_currency obj) (is_inverse obj) (price_precision obj)
    (size_precision obj) (price_increment obj) (size_increment obj)
    (max_quantity obj) (min_quantity obj) (max_notional obj)
    (min_notional obj) (max_price obj) (min_price obj) (margin_init obj)
    (margin_maint obj) (maker_fee obj) (taker_fee obj) (ts_event obj)
    (ts_init obj) (info obj)
  = Done obj.

(** The keys of the dictionary form. *)
Definition keys : gset string :=
  list_to_set
    ["type"; "id"; "base_currency"; "quote_currency"; "settlement_currency";
     "is_inverse"; "price_precision"; "price_increment"; "size_precision";
     "size_increment"; "max_quantity"; "min_quantity"; "max_notional";
     "min_notional"; "max_price"; "min_price"; "margin_init";
     "margin_maint"; "maker_fee"; "taker_fee"; "ts_event"; "ts_init";
     "info"].

End Components.

End Instruments.
(** ** TradingStrategy (trading/strategy.pyx): data

    Conventions. An argument that the source declares with a Cython type and
    guards with [Condition.not_none] is taken at that type: the [None] the
    guard rejects is not a value of it. Attributes that are [None] until a
    registration method sets them ([log], [clock], [order_factory], the
    engines, ...) are options, and using one that is still [None] raises
    [AttributeError], as it does in Python. *)
Module Strategy.

Definition StrategyId : Type := string.
Definition TraderId : Type := string.
Definition AccountId : Type := string.
Definition Symbol : Type := string.
Definition BarType : Type := string.
Definition ClientPositionId : Type := string.
(** A client order id is identified by its sequence number: the trader and
    strategy tags in front of it are fixed for a given strategy. *)
Definition ClientOrderId : Type := Z.
(** An indicator is identified by its name; what it computes from the data
    it receives is outside the strategy. *)
Definition Indicator : Type := string.

(** Modelled from the spec: the [ComponentState] enum (model/c_enums), the
    states of the lifecycle state machine "{Initialized, Starting, Running,
    Stopping, Stopped, Resuming, Reset, Disposing, Disposed}". *)
Inductive ComponentState : Type :=
  | INITIALIZED | STARTING | RUNNING | STOPPING | STOPPED
  | RESUMING | RESETTING | DISPOSING | DISPOSED.

Global Instance ComponentState_eq_dec : EqDecision ComponentState.
Proof. solve_decision. Defined.

(** Modelled from the spec: the order side and the "market-position side
    (LONG/SHORT/FLAT)" enums (model/c_enums), each with the undefined value
    that [get_opposite_side] and [get_flatten_side] refuse. *)
Inductive OrderSide : Type := UNDEFINED_SIDE | BUY | SELL.
Inductive MarketPosition : Type := UNDEFINED | FLAT | LONG | SHORT.

Global Instance MarketPosition_eq_dec : EqDecision MarketPosition.
Proof. solve_decision. Defined.

(** Modelled from the spec: the market data (model/tick, model/bar), as
    the fields the handlers read and a payload. *)
Record QuoteTick : Type := mkQuoteTick {
  quote_symbol : Symbol; bid : Z; ask : Z;
}.

Record TradeTick : Type := mkTradeTick {
  trade_symbol : Symbol; price : Z;
}.

Record Bar : Type := mkBar {
  close : Z;
  timestamp : Z;  (* nanoseconds since the epoch *)
}.

(** Modelled from the spec: [Position] (model/position), "keyed by
    ClientPositionId", which "tracks net quantity, market-position side
    (LONG/SHORT/FLAT), open/closed state". *)
Record Position : Type := mkPosition {
  cl_pos_id : ClientPositionId;
  symbol : Symbol;
  market_position : MarketPosition;
  quantity : Z;
  is_closed : bool;
}.

(** Modelled from the spec: a market [Order] (model/order), as its client
    order id and what [OrderFactory.market] is given. *)
Record Order : Type := mkOrder {
  cl_ord_id : ClientOrderId;
  order_symbol : Symbol;
  side : OrderSide;
  order_quantity : Z;
}.

(** Modelled from the spec: the events (model/events) that [handle_event]
    tells apart; every other event (order accepted, position opened,
    timer, ...) is an [OtherEvent]. *)
Inductive Event : Type :=
  | OrderInvalid (id : ClientOrderId)
  | OrderDenied (id : ClientOrderId)
  | OrderRejected (id : ClientOrderId)
  | OrderCancelled (id : ClientOrderId)
  | OrderExpired (id : ClientOrderId)
  | OrderFilled (id : ClientOrderId)
  | OrderCancelReject (id : ClientOrderId)
  | PositionClosed (position : Position)
  | OtherEvent (name : string).

(** [isinstance(event, _ORDER_COMPLETION_TRIGGERS)], with [event.cl_ord_id]. *)
Definition _ORDER_COMPLETION_TRIGGERS (event : Event) : option ClientOrderId :=
  match event with
  | OrderInvalid id | OrderDenied id | OrderRejected id
  | OrderCancelled id | OrderExpired id | OrderFilled id => Some id
  | OrderCancelReject _ | PositionClosed _ | OtherEvent _ => None
  end.

(** Modelled from the spec: the commands (model/commands) sent to the
    execution engine; the fresh UUID and the timestamp every command
    carries are left out. [execute_command] hands
    a command over and returns: what the engine makes of it comes back
    later, as events. *)
Inductive Command : Type :=
  | SubmitOrder (trader : TraderId) (account : AccountId)
      (strategy : StrategyId) (position : ClientPositionId) (order : Order)
  | CancelOrder (trader : option TraderId) (account : AccountId)
      (order : ClientOrderId).

(** Modelled from the spec: the execution database and engine
    (common/execution_engine) are collaborators outside the sources at
    hand; the strategy "only queries and commands against" them, so they
    are the answers to the queries the strategy makes. *)
Record ExecutionDatabase : Type := mkExecutionDatabase {
  get_position : ClientPositionId -> option Position;
  get_positions_open : StrategyId -> list (ClientPositionId * Position);
  get_orders_working : StrategyId -> list (ClientOrderId * Order);
  get_client_position_id : ClientOrderId -> option ClientPositionId;
  is_position_open : ClientPositionId -> bool;
}.

Record ExecutionEngine : Type := mkExecutionEngine {
  account_id : AccountId;
  database : ExecutionDatabase;
}.

(** Modelled from the spec: the data engine, the UUID factory and the
    logger are collaborators of which the strategy here only asks whether
    they are there. *)
Inductive DataEngine : Type := mkDataEngine.
Inductive UUIDFactory : Type := mkUUIDFactory.
Inductive LoggerAdapter : Type := mkLoggerAdapter.

(** Modelled from the spec: the [Clock] (common/clock), as the names of
    its active timers. *)
Record Clock : Type := mkClock { timer_names : list string }.

(** Modelled from the spec: [OrderFactory] "owns order-id sequencing" and
    [PositionIdGenerator] likewise; each is its running count. *)
Record OrderFactory : Type := mkOrderFactory { order_id_count : Z }.
Record PositionIdGenerator : Type := mkPositionIdGenerator { count : Z }.

(** Modelled from the spec: [FiniteStateMachine] (core/fsm) is a trigger
    table with string triggers and a current state; a trigger the table
    does not list for the current state raises [InvalidStateTrigger]. *)
Record FiniteStateMachine : Type := mkFiniteStateMachine {
  state_transition_table : ComponentState -> string -> option ComponentState;
  state : ComponentState;
}.

(** Modelled from the spec: [create_component_fsm] (common/component), the
    lifecycle graph of section 4.5: [start] leads through Starting to
    Running, [stop] through Stopping to Stopped, [resume] through Resuming
    to Running, [reset] through Resetting back to Initialized, [dispose]
    through Disposing to the terminal Disposed. *)
Definition component_transitions (s : ComponentState) (trigger : string)
    : option ComponentState :=
  match s with
  | INITIALIZED =>
      if decide (trigger = "RESET") then Some RESETTING
      else if decide (trigger = "START") then Some STARTING
      else if decide (trigger = "DISPOSE") then Some DISPOSING else None
  | RESETTING => if decide (trigger = "RESET") then Some INITIALIZED else None
  | STARTING =>
      if decide (trigger = "RUNNING") then Some RUNNING
      else if decide (trigger = "STOP") then Some STOPPING else None
  | RUNNING => if decide (trigger = "STOP") then Some STOPPING else None
  | RESUMING =>
      if decide (trigger = "STOP") then Some STOPPING
      else if decide (trigger = "RUNNING") then Some RUNNING else None
  | STOPPING => if decide (trigger = "STOPPED") then Some STOPPED else None
  | STOPPED =>
      if decide (trigger = "RESET") then Some RESETTING
      else if decide (trigger = "RESUME") then Some RESUMING
      else if decide (trigger = "DISPOSE") then Some DISPOSING else None
  | DISPOSING => if decide (trigger = "DISPOSED") then Some DISPOSED else None
  | DISPOSED => None
  end.

Definition create_component_fsm : FiniteStateMachine :=
  mkFiniteStateMachine component_transitions INITIALIZED.

(** Python values and dictionary keys as far as [save] and [load] tell
    them apart: a text key is not a bytes key. Bytes are kept as the text
    they decode to. *)
Inductive PyKey : Type := KStr (s : string) | KBytes (b : string).
Inductive PyVal : Type :=
  | VNone | VInt (n : Z) | VStr (s : string) | VBytes (b : string).

Global Instance PyKey_eq_dec : EqDecision PyKey.
Proof. solve_decision. Defined.

Global Instance PyKey_countable : Countable PyKey.
Proof.
  refine (inj_countable'
            (fun k => match k with KStr s => inl s | KBytes b => inr b end)
            (fun x => match x with inl s => KStr s | inr b => KBytes b end) _).
  intros []; reflexivity.
Defined.

Abbreviation PyDict := (gmap PyKey PyVal).

(** The truth value of a Python object in [if x:]. *)
Definition truthy (v : PyVal) : bool :=
  match v with
  | VNone => false
  | VInt n => negb (n =? 0)
  | VStr s => negb (String.eqb s "")
  | VBytes b => negb (String.eqb b "")
  end.

Record TradingStrategy : Type := mkTradingStrategy {
  id : StrategyId;
  trader_id : option TraderId;
  clock : option Clock;
  uuid_factory : option UUIDFactory;
  log : option LoggerAdapter;
  flatten_on_stop : bool;
  flatten_on_reject : bool;
  cancel_all_orders_on_stop : bool;
  reraise_exceptions : bool;
  order_factory : option OrderFactory;
  position_id_generator : option PositionIdGenerator;
  _flattening_ids : gset ClientPositionId;
  _stop_loss_ids : gset ClientOrderId;
  _take_profit_ids : gset ClientOrderId;
  _indicators : list Indicator;
  _indicators_for_quotes : gmap Symbol (list Indicator);
  _indicators_for_trades : gmap Symbol (list Indicator);
  _indicators_for_bars : gmap BarType (list Indicator);
  _data_engine : option DataEngine;
  _exec_engine : option ExecutionEngine;
  _fsm : FiniteStateMachine;
}.

(** Attribute assignment [self.<field> = v], one setter per mutable field. *)
Definition set_clock (v : option Clock) (self : TradingStrategy)
    : TradingStrategy :=
  mkTradingStrategy (id self) (trader_id self) v (uuid_factory self)
    (log self) (flatten_on_stop self) (flatten_on_reject self)
    (cancel_all_orders_on_stop self) (reraise_exceptions self)
    (order_factory self) (position_id_generator self) (_flattening_ids self)
    (_stop_loss_ids self) (_take_profit_ids self) (_indicators self)
    (_indicators_for_quotes self) (_indicators_for_trades self)
    (_indicators_for_bars self) (_data_engine self) (_exec_engine self)
    (_fsm self).

Definition set_order_factory (v : option OrderFactory) (self : TradingStrategy)
    : TradingStrategy :=
  mkTradingStrategy (id self) (trader_id self) (clock self)
    (uuid_factory self) (log self) (flatten_on_stop self)
    (flatten_on_reject self) (cancel_all_orders_on_stop self)
    (reraise_exceptions self) v (position_id_generator self)
    (_flattening_ids self) (_stop_loss_ids self) (_take_profit_ids self)
    (_indicators self) (_indicators_for_quotes self)
    (_indicators_for_trades self) (_indicators_for_bars self)
    (_data_engine self) (_exec_engine self) (_fsm self).

Definition set_position_id_generator (v : option PositionIdGenerator) (self : TradingStrategy)
    : TradingStrategy :=
  mkTradingStrategy (id self) (trader_id self) (clock self)
    (uuid_factory self) (log self) (flatten_on_stop self)
    (flatten_on_reject self) (cancel_all_orders_on_stop self)
    (reraise_exceptions self) (order_factory self) v (_flattening_ids self)
    (_stop_loss_ids self) (_take_profit_ids self) (_indicators self)
    (_indicators_for_quotes self) (_indicators_for_trades self)
    (_indicators_for_bars self) (_data_engine self) (_exec_engine self)
    (_fsm self).

Definition set_flattening_ids (v : gset ClientPositionId) (self : TradingStrategy)
    : TradingStrategy :=
  mkTradingStrategy (id self) (trader_id self) (clock self)
    (uuid_factory self) (log self) (flatten_on_stop self)
    (flatten_on_reject self) (cancel_all_orders_on_stop self)
    (reraise_exceptions self) (order_factory self)
    (position_id_generator self) v (_stop_loss_ids self)
    (_take_profit_ids self) (_indicators self) (_indicators_for_quotes self)
    (_indicators_for_trades self) (_indicators_for_bars self)
    (_data_engine self) (_exec_engine self) (_fsm self).

Definition set_stop_loss_ids (v : gset ClientOrderId) (self : TradingStrategy)
    : TradingStrategy :=
  mkTradingStrategy (id self) (trader_id self) (clock self)
    (uuid_factory self) (log self) (flatten_on_stop self)
    (flatten_on_reject self) (cancel_all_orders_on_stop self)
    (reraise_exceptions self) (order_factory self)
    (position_id_generator self) (_flattening_ids self) v
    (_take_profit_ids self) (_indicators self) (_indicators_for_quotes self)
    (_indicators_for_trades self) (_indicators_for_bars self)
    (_data_engine self) (_exec_engine self) (_fsm self).

Definition set_take_profit_ids (v : gset ClientOrderId) (self : TradingStrategy)
    : TradingStrategy :=
  mkTradingStrategy (id self) (trader_id self) (clock self)
    (uuid_factory self) (log self) (flatten_on_stop self)
    (flatten_on_reject self) (cancel_all_orders_on_stop self)
    (reraise_exceptions self) (order_factory self)
    (position_id_generator self) (_flattening_ids self)
    (_stop_loss_ids self) v (_indicators self) (_indicators_for_quotes self)
    (_indicators_for_trades self) (_indicators_for_bars self)
    (_data_engine self) (_exec_engine self) (_fsm self).

Definition set_indicators (v : list Indicator) (self : TradingStrategy)
    : TradingStrategy :=
  mkTradingStrategy (id self) (trader_id self) (clock self)
    (uuid_factory self) (log self) (flatten_on_stop self)
    (flatten_on_reject self) (cancel_all_orders_on_stop self)
    (reraise_exceptions self) (order_factory self)
    (position_id_generator self) (_flattening_ids self)
    (_stop_loss_ids self) (_take_profit_ids self) v
    (_indicators_for_quotes self) (_indicators_for_trades self)
    (_indicators_for_bars self) (_data_engine self) (_exec_engine self)
    (_fsm self).

Definition set_indicators_for_quotes (v : gmap Symbol (list Indicator)) (self : TradingStrategy)
    : TradingStrategy :=
  mkTradingStrategy (id self) (trader_id self) (clock self)
    (uuid_factory self) (log self) (flatten_on_stop self)
    (flatten_on_reject self) (cancel_all_orders_on_stop self)
    (reraise_exceptions self) (order_factory self)
    (position_id_generator self) (_flattening_ids self)
    (_stop_loss_ids self) (_take_profit_ids self) (_indicators self) v
    (_indicators_for_trades self) (_indicators_for_bars self)
    (_data_engine self) (_exec_engine self) (_fsm self).

Definition set_indicators_for_trades (v : gmap Symbol (list Indicator)) (self : TradingStrategy)
    : TradingStrategy :=
  mkTradingStrategy (id self) (trader_id self) (clock self)
    (uuid_factory self) (log self) (flatten_on_stop self)
    (flatten_on_reject self) (cancel_all_orders_on_stop self)
    (reraise_exceptions self) (order_factory self)
    (position_id_generator self) (_flattening_ids self)
    (_stop_loss_ids self) (_take_profit_ids self) (_indicators self)
    (_indicators_for_quotes self) v (_indicators_for_bars self)
    (_data_engine self) (_exec_engine self) (_fsm self).

Definition set_indicators_for_bars (v : gmap BarType (list Indicator)) (self : TradingStrategy)
    : TradingStrategy :=
  mkTradingStrategy (id self) (trader_id self) (clock self)
    (uuid_factory self) (log self) (flatten_on_stop self)
    (flatten_on_reject self) (cancel_all_orders_on_stop self)
    (reraise_exceptions self) (order_factory self)
    (position_id_generator self) (_flattening_ids self)
    (_stop_loss_ids self) (_take_profit_ids self) (_indicators self)
    (_indicators_for_quotes self) (_indicators_for_trades self) v
    (_data_engine self) (_exec_engine self) (_fsm self).

Definition set_data_engine (v : option DataEngine) (self : TradingStrategy)
    : TradingStrategy :=
  mkTradingStrategy (id self) (trader_id self) (clock self)
    (uuid_factory self) (log self) (flatten_on_stop self)
    (flatten_on_reject self) (cancel_all_orders_on_stop self)
    (reraise_exceptions self) (order_factory self)
    (position_id_generator self) (_flattening_ids self)
    (_stop_loss_ids self) (_take_profit_ids self) (_indicators self)
    (_indicators_for_quotes self) (_indicators_for_trades self)
    (_indicators_for_bars self) v (_exec_engine self) (_fsm self).

Definition set_exec_engine (v : option ExecutionEngine) (self : TradingStrategy)
    : TradingStrategy :=
  mkTradingStrategy (id self) (trader_id self) (clock self)
    (uuid_factory self) (log self) (flatten_on_stop self)
    (flatten_on_reject self) (cancel_all_orders_on_stop self)
    (reraise_exceptions self) (order_factory self)
    (position_id_generator self) (_flattening_ids self)
    (_stop_loss_ids self) (_take_profit_ids self) (_indicators self)
    (_indicators_for_quotes self) (_indicators_for_trades self)
    (_indicators_for_bars self) (_data_engine self) v (_fsm self).

Definition set_fsm (v : FiniteStateMachine) (self : TradingStrategy)
    : TradingStrategy :=
  mkTradingStrategy (id self) (trader_id self) (clock self)
    (uuid_factory self) (log self) (flatten_on_stop self)
    (flatten_on_reject self) (cancel_all_orders_on_stop self)
    (reraise_exceptions self) (order_factory self)
    (position_id_generator self) (_flattening_ids self)
    (_stop_loss_ids self) (_take_profit_ids self) (_indicators self)
    (_indicators_for_quotes self) (_indicators_for_trades self)
    (_indicators_for_bars self) (_data_engine self) (_exec_engine self) v.

(** *** What a method does to the outside

    The calls a method makes on its collaborators (logger, state machine,
    indicators, clock, execution engine) and on the overridable [on_*]
    hooks are recorded, in order, in a trace. Log messages are kept
    without the values interpolated into them. What an indicator computes
    on an update is outside the strategy; the update is taken to return. *)
Inductive LogLevel : Type := DBG | INF | WRN | ERR.

Inductive Hook : Type :=
  | on_start_ | on_stop_ | on_resume_ | on_reset_ | on_dispose_
  | on_save_
  | on_load_ (state : PyDict)
  | on_quote_tick_ (tick : QuoteTick)
  | on_trade_tick_ (tick : TradeTick)
  | on_bar_ (bar_type : BarType) (bar : Bar)
  | on_data_ (data : string)
  | on_event_ (event : Event).

Inductive Effect : Type :=
  | Log (level : LogLevel) (msg : string)
  | LogException (ex : exn)
  | Trigger (trigger : string)
  | IndicatorQuoteTick (indicator : Indicator) (tick : QuoteTick)
  | IndicatorTradeTick (indicator : Indicator) (tick : TradeTick)
  | IndicatorBar (indicator : Indicator) (bar : Bar)
  | Call (hook : Hook)
  | ExecuteCommand (command : Command)
  | CancelAllTimers.

(** Projections of a trace: the hooks called, the indicator updates made,
    the commands sent, and the orders submitted for a given position. *)
Definition hooks_called (tr : list Effect) : list Hook :=
  omap (fun e => match e with Call hook => Some hook | _ => None end) tr.

Definition indicator_updates (tr : list Effect) : list Effect :=
  omap (fun e => match e with
                 | IndicatorQuoteTick _ _ | IndicatorTradeTick _ _
                 | IndicatorBar _ _ => Some e
                 | _ => None
                 end) tr.

Definition commands (tr : list Effect) : list Command :=
  omap (fun e => match e with ExecuteCommand c => Some c | _ => None end) tr.

Definition orders_for (p : ClientPositionId) (tr : list Effect) : list Order :=
  omap (fun c => match c with
                 | SubmitOrder _ _ _ q order =>
                     if decide (q = p) then Some order else None
                 | CancelOrder _ _ _ => None
                 end) (commands tr).

Definition triggers (tr : list Effect) : list string :=
  omap (fun e => match e with Trigger t => Some t | _ => None end) tr.

(** A strategy together with the trace of what it has done so far. *)
Record Sys : Type := mkSys {
  self : TradingStrategy;
  trace : list Effect;
}.

(** What the subclass puts into the overridable hooks: each hook returns
    normally ([None], or [Ok] with the saved state) or raises, as it
    chooses from the strategy it is called on; a hook is taken not to call
    back into the strategy. The hooks of [TradingStrategy] itself all
    return normally ([pass]). *)
Record UserCode : Type := mkUserCode {
  on_start_body : TradingStrategy -> option exn;
  on_stop_body : TradingStrategy -> option exn;
  on_resume_body : TradingStrategy -> option exn;
  on_reset_body : TradingStrategy -> option exn;
  on_dispose_body : TradingStrategy -> option exn;
  on_save_body : TradingStrategy -> result PyDict;
  on_load_body : TradingStrategy -> PyDict -> option exn;
  on_quote_tick_body : TradingStrategy -> QuoteTick -> option exn;
  on_trade_tick_body : TradingStrategy -> TradeTick -> option exn;
  on_bar_body : TradingStrategy -> BarType -> Bar -> option exn;
  on_data_body : TradingStrategy -> string -> option exn;
  on_event_body : TradingStrategy -> Event -> option exn;
}.

Definition base_class : UserCode :=
  mkUserCode (fun _ => None) (fun _ => None) (fun _ => None) (fun _ => None)
    (fun _ => None) (fun _ => Ok ∅) (fun _ _ => None) (fun _ _ => None)
    (fun _ _ => None) (fun _ _ _ => None) (fun _ _ => None) (fun _ _ => None).

Definition this : M Sys TradingStrategy := fun sys => (Ok (self sys), sys).

Definition update (f : TradingStrategy -> TradingStrategy) : M Sys unit :=
  modify (fun sys => mkSys (f (self sys)) (trace sys)).

Definition emit (e : Effect) : M Sys unit :=
  modify (fun sys => mkSys (self sys) (trace sys ++ [e])%list).

(** Attribute access on a component that may still be [None]. *)
Definition attr {A} (component : option A) (name : string) : M Sys A :=
  match component with
  | Some a => ret a
  | None => raise (AttributeError name)
  end.

Definition log_msg (level : LogLevel) (msg : string) : M Sys unit :=
  s ← this;
  attr (log s) "log";;
  emit (Log level msg).

Definition log_exception (ex : exn) : M Sys unit :=
  s ← this;
  attr (log s) "log";;
  emit (LogException ex).

(** [self._fsm.trigger(trigger)] *)
Definition fsm_trigger (trigger : string) : M Sys unit :=
  emit (Trigger trigger);;
  s ← this;
  match state_transition_table (_fsm s) (state (_fsm s)) trigger with
  | Some next =>
      update (set_fsm (mkFiniteStateMachine
                         (state_transition_table (_fsm s)) next))
  | None => raise (InvalidStateTrigger trigger)
  end.

Definition is_InvalidStateTrigger (ex : exn) : bool :=
  match ex with InvalidStateTrigger _ => true | _ => false end.

(** [try: c  except InvalidStateTrigger as ex: h ex] *)
Definition try_except_InvalidStateTrigger {A} (c : M Sys A)
    (h : exn -> M Sys A) : M Sys A :=
  try_except c (fun ex => if is_InvalidStateTrigger ex then h ex else raise ex).

(** [self.order_factory.market(symbol, side, quantity)]: the factory draws
    the next order id. The attribute is looked up before the arguments are
    evaluated, hence the side is passed as a computation. *)
Definition order_factory_market (symbol : Symbol) (side : M Sys OrderSide)
    (quantity : Z) : M Sys Order :=
  s ← this;
  factory ← attr (order_factory s) "order_factory";
  side ← side;
  let n := order_id_count factory + 1 in
  update (set_order_factory (Some (mkOrderFactory n)));;
  ret (mkOrder n symbol side quantity).

Section Methods.

(** The subclass's hooks, and Python's [int] on text ([None] for the
    [ValueError] it raises on text that is not a number). *)
Variable user : UserCode.
Variable int : string -> option Z.

(** *** Hooks *)

Definition run_hook (hook : Hook) (body : TradingStrategy -> option exn)
    : M Sys unit :=
  emit (Call hook);;
  s ← this;
  match body s with
  | None => ret tt
  | Some ex => raise ex
  end.

Definition on_start := run_hook on_start_ (on_start_body user).
Definition on_stop := run_hook on_stop_ (on_stop_body user).
Definition on_resume := run_hook on_resume_ (on_resume_body user).
Definition on_reset := run_hook on_reset_ (on_reset_body user).
Definition on_dispose := run_hook on_dispose_ (on_dispose_body user).
Definition on_load (state : PyDict) :=
  run_hook (on_load_ state) (fun s => on_load_body user s state).
Definition on_quote_tick (tick : QuoteTick) :=
  run_hook (on_quote_tick_ tick) (fun s => on_quote_tick_body user s tick).
Definition on_trade_tick (tick : TradeTick) :=
  run_hook (on_trade_tick_ tick) (fun s => on_trade_tick_body user s tick).
Definition on_bar (bar_type : BarType) (bar : Bar) :=
  run_hook (on_bar_ bar_type bar) (fun s => on_bar_body user s bar_type bar).
Definition on_data (data : string) :=
  run_hook (on_data_ data) (fun s => on_data_body user s data).
Definition on_event (event : Event) :=
  run_hook (on_event_ event) (fun s => on_event_body user s event).

Definition on_save : M Sys PyDict :=
  emit (Call on_save_);;
  s ← this;
  match on_save_body user s with
  | Ok d => ret d
  | Raise ex => raise ex
  end.

(** [try: hook  except Exception as ex: self.log.exception(ex);
    if self.reraise_exceptions: raise ex] *)
Definition guarded (hook : M Sys unit) : M Sys unit :=
  try_except hook (fun ex =>
    log_exception ex;;
    s ← this;
    if reraise_exceptions s then raise ex else ret tt).

(** *** Registration methods *)

Definition register_trader (trader_id : TraderId) (clock : Clock)
    (uuid_factory : UUIDFactory) (logger : LoggerAdapter) : M Sys unit :=
  update (fun self =>
    mkTradingStrategy (id self) (Some trader_id) (Some clock)
      (Some uuid_factory) (Some logger)
      (flatten_on_stop self) (flatten_on_reject self)
      (cancel_all_orders_on_stop self) (reraise_exceptions self)
      (Some (mkOrderFactory 0)) (Some (mkPositionIdGenerator 0))
      (_flattening_ids self) (_stop_loss_ids self) (_take_profit_ids self)
      (_indicators self) (_indicators_for_quotes self)
      (_indicators_for_trades self) (_indicators_for_bars self)
      (_data_engine self) (_exec_engine self) (_fsm self)).

Definition register_data_engine (engine : DataEngine) : M Sys unit :=
  update (set_data_engine (Some engine)).

Definition register_execution_engine (engine : ExecutionEngine)
    : M Sys unit :=
  update (set_exec_engine (Some engine)).

(** [if indicator not in self._indicators: self._indicators.append(indicator)] *)
Definition add_indicator (indicator : Indicator) : M Sys unit :=
  s ← this;
  if decide (indicator ∈ _indicators s) then ret tt
  else update (set_indicators (_indicators s ++ [indicator])%list).

Definition register_indicator_for_quote_ticks (symbol : Symbol)
    (indicator : Indicator) : M Sys unit :=
  add_indicator indicator;;
  s ← this;
  let registered := default [] (_indicators_for_quotes s !! symbol) in
  if decide (indicator ∈ registered)
  then log_msg ERR "Indicator already registered for quote ticks."
  else update (set_indicators_for_quotes
                 (<[symbol := (registered ++ [indicator])%list]>
                    (_indicators_for_quotes s))).

Definition register_indicator_for_trade_ticks (symbol : Symbol)
    (indicator : Indicator) : M Sys unit :=
  add_indicator indicator;;
  s ← this;
  let registered := default [] (_indicators_for_trades s !! symbol) in
  if decide (indicator ∈ registered)
  then log_msg ERR "Indicator already registered for trade ticks."
  else update (set_indicators_for_trades
                 (<[symbol := (registered ++ [indicator])%list]>
                    (_indicators_for_trades s))).

Definition register_indicator_for_bars (bar_type : BarType)
    (indicator : Indicator) : M Sys unit :=
  add_indicator indicator;;
  s ← this;
  let registered := default [] (_indicators_for_bars s !! bar_type) in
  if decide (indicator ∈ registered)
  then log_msg ERR "Indicator already registered for bars."
  else update (set_indicators_for_bars
                 (<[bar_type := (registered ++ [indicator])%list]>
                    (_indicators_for_bars s))).

Definition register_stop_loss (order : Order) : M Sys unit :=
  s ← this;
  Condition.not_in (cl_ord_id order) (_stop_loss_ids s)
    "order.id" "_stop_loss_ids";;
  update (set_stop_loss_ids ({[cl_ord_id order]} ∪ _stop_loss_ids s));;
  log_msg DBG "Registered SL order.".

Definition register_take_profit (order : Order) : M Sys unit :=
  s ← this;
  Condition.not_in (cl_ord_id order) (_take_profit_ids s)
    "order.cl_ord_id" "_take_profit_ids";;
  update (set_take_profit_ids ({[cl_ord_id order]} ∪ _take_profit_ids s));;
  log_msg DBG "Registered TP order.".

(** *** Handler methods: market data *)

Definition handle_quote_tick (tick : QuoteTick) (is_historical : bool)
    : M Sys unit :=
  s ← this;
  (* Update indicators *)
  match _indicators_for_quotes s !! quote_symbol tick with  (* Could be None *)
  | Some indicators =>
      for_each indicators (fun indicator =>
        emit (IndicatorQuoteTick indicator tick))
  | None => ret tt
  end;;
  if is_historical then ret tt  (* Don't pass to on_tick() *)
  else
    s ← this;
    if decide (state (_fsm s) = RUNNING)
    then guarded (on_quote_tick tick)
    else ret tt.

Definition handle_quote_ticks (ticks : list QuoteTick) : M Sys unit :=
  match ticks with
  | _ :: _ => log_msg INF "Received <QuoteTick[]> data."
  | [] => log_msg WRN "Received <QuoteTick[]> data with no ticks."
  end;;
  for_each ticks (fun tick => handle_quote_tick tick true).

Definition handle_trade_tick (tick : TradeTick) (is_historical : bool)
    : M Sys unit :=
  s ← this;
  (* Update indicators *)
  match _indicators_for_trades s !! trade_symbol tick with  (* Could be None *)
  | Some indicators =>
      for_each indicators (fun indicator =>
        emit (IndicatorTradeTick indicator tick))
  | None => ret tt
  end;;
  if is_historical then ret tt  (* Don't pass to on_tick() *)
  else
    s ← this;
    if decide (state (_fsm s) = RUNNING)
    then guarded (on_trade_tick tick)
    else ret tt.

Definition handle_trade_ticks (ticks : list TradeTick) : M Sys unit :=
  match ticks with
  | _ :: _ => log_msg INF "Received <TradeTick[]> data."
  | [] => log_msg WRN "Received <TradeTick[]> data with no ticks."
  end;;
  for_each ticks (fun tick => handle_trade_tick tick true).

Definition handle_bar (bar_type : BarType) (bar : Bar)
    (is_historical : bool) : M Sys unit :=
  s ← this;
  (* Update indicators *)
  match _indicators_for_bars s !! bar_type with  (* Could be None *)
  | Some indicators =>
      for_each indicators (fun indicator => emit (IndicatorBar indicator bar))
  | None => ret tt
  end;;
  if is_historical then ret tt  (* Don't pass to on_bar() *)
  else
    s ← this;
    if decide (state (_fsm s) = RUNNING)
    then guarded (on_bar bar_type bar)
    else ret tt.

Definition handle_bars (bar_type : BarType) (bars : list Bar)
    : M Sys unit :=
  log_msg INF "Received <Bar[]> data.";;
  (* length > 0 and bars[0].timestamp > bars[length - 1].timestamp *)
  match head bars, last bars with
  | Some first, Some final =>
      if bool_decide (timestamp first > timestamp final)
      then raise (RuntimeError
                    "Cannot handle <Bar[]> data (incorrectly sorted).")
      else ret tt
  | _, _ => ret tt
  end;;
  for_each bars (fun bar => handle_bar bar_type bar true).

Definition handle_data (data : string) : M Sys unit :=
  s ← this;
  if decide (state (_fsm s) = RUNNING)
  then guarded (on_data data)
  else ret tt.

(** *** Commands *)

Definition get_flatten_side (market_position : MarketPosition)
    : M Sys OrderSide :=
  Condition.not_equal market_position UNDEFINED
    "market_position" "MarketPosition.UNDEFINED";;
  Condition.not_equal market_position FLAT
    "market_position" "MarketPosition.FLAT";;
  ret (if decide (market_position = SHORT) then BUY else SELL).

Definition submit_order (order : Order) (cl_pos_id : ClientPositionId)
    : M Sys unit :=
  s ← this;
  trader ← Condition.not_none (trader_id s) "trader_id";
  engine ← Condition.not_none (_exec_engine s) "execution_engine";
  attr (uuid_factory s) "uuid_factory";;
  attr (clock s) "clock";;
  let command :=
    SubmitOrder trader (account_id engine) (id s) cl_pos_id order in
  log_msg INF "CMD SENT SubmitOrder.";;
  emit (ExecuteCommand command).

Definition cancel_all_orders : M Sys unit :=
  s ← this;
  engine ← Condition.not_none (_exec_engine s) "execution_engine";
  let working_orders := get_orders_working (database engine) (id s) in
  match working_orders with
  | [] => log_msg INF "No working orders to cancel."
  | _ :: _ =>
      log_msg INF "Cancelling working order(s)...";;
      for_each working_orders (fun '(order_id, _) =>
        s ← this;
        engine ← attr (_exec_engine s) "_exec_engine";
        attr (uuid_factory s) "uuid_factory";;
        attr (clock s) "clock";;
        let command :=
          CancelOrder (trader_id s) (account_id engine) order_id in
        log_msg INF "CMD SENT CancelOrder.";;
        emit (ExecuteCommand command))
  end.

Definition flatten_position (cl_pos_id : ClientPositionId) : M Sys unit :=
  s ← this;
  engine ← Condition.not_none (_exec_engine s) "execution_engine";
  if decide (cl_pos_id ∈ _flattening_ids s)
  then log_msg WRN "Already flattening."
  else
    match get_position (database engine) cl_pos_id with
    | None =>
        log_msg ERR
          "Cannot flatten position (cannot find in cached positions."
    | Some position =>
        if is_closed position
        then log_msg WRN
               "Cannot flatten position (the position was already closed)."
        else
          order ← order_factory_market (symbol position)
                     (get_flatten_side (market_position position))
                     (quantity position);
          s ← this;
          update (set_flattening_ids ({[cl_pos_id]} ∪ _flattening_ids s));;
          log_msg INF "Flattening position...";;
          (* Assumption that market order won't be rejected *)
          submit_order order cl_pos_id
    end.

Definition flatten_all_positions : M Sys unit :=
  s ← this;
  engine ← Condition.not_none (_exec_engine s) "execution_engine";
  let positions := get_positions_open (database engine) (id s) in
  match positions with
  | [] => log_msg INF "No open positions to flatten."
  | _ :: _ =>
      log_msg INF "Flattening open position(s)...";;
      for_each positions (fun '(position_id, position) =>
        if is_closed position
        then log_msg WRN
               "Cannot flatten position (the position was already FLAT."
        else
          order ← order_factory_market (symbol position)
                     (get_flatten_side (market_position position))
                     (quantity position);
          log_msg INF "Flattening position...";;
          submit_order order position_id)
  end.

Definition _flatten_on_reject (id : ClientOrderId) : M Sys unit :=
  s ← this;
  if decide ((id ∉ _stop_loss_ids s) /\ (id ∉ _take_profit_ids s))
  then ret tt  (* Not a registered stop-loss *)
  else
    (* Find position_id for order *)
    engine ← attr (_exec_engine s) "_exec_engine";
    match get_client_position_id (database engine) id with
    | None => log_msg ERR "Cannot find PositionId for order."
    | Some position_id =>
        (* Flatten if open position *)
        if is_position_open (database engine) position_id
        then
          log_msg WRN "Rejected order was a registered child order, now flattening.";;
          flatten_position position_id
        else ret tt
    end.

(** *** Handler methods: events *)

Definition handle_event (event : Event) : M Sys unit :=
  s ← this;
  match event with
  | OrderRejected id =>
      log_msg WRN "RECV EVT.";;
      if flatten_on_reject s then _flatten_on_reject id else ret tt
  | OrderCancelReject _ => log_msg WRN "RECV EVT."
  | PositionClosed position =>
      update (set_flattening_ids (_flattening_ids s ∖ {[cl_pos_id position]}))
  | _ => log_msg INF "RECV EVT."
  end;;
  (* Remove order from registered orders *)
  match _ORDER_COMPLETION_TRIGGERS event with
  | Some id =>
      s ← this;
      update (set_stop_loss_ids (_stop_loss_ids s ∖ {[id]}));;
      s ← this;
      update (set_take_profit_ids (_take_profit_ids s ∖ {[id]}))
  | None => ret tt
  end;;
  s ← this;
  if decide (state (_fsm s) = RUNNING)
  then guarded (on_event event)
  else ret tt.

(** *** Lifecycle *)

Definition stop : M Sys unit :=
  triggered ← try_except_InvalidStateTrigger
                (fsm_trigger "STOP";; ret true)
                (fun ex => log_exception ex;; ret false);
  if negb triggered then ret tt
  else
    log_msg INF "state=...";;
    (* Clean up clock *)
    s ← this;
    clock_ ← attr (clock s) "clock";
    emit CancelAllTimers;;
    update (set_clock (Some (mkClock [])));;
    for_each (timer_names clock_) (fun _ => log_msg INF "Cancelled Timer.");;
    (* Flatten open positions *)
    s ← this;
    (if flatten_on_stop s then flatten_all_positions else ret tt);;
    (* Cancel working orders *)
    s ← this;
    (if cancel_all_orders_on_stop s then cancel_all_orders else ret tt);;
    try_except on_stop log_exception;;
    fsm_trigger "STOPPED";;
    log_msg INF "state=.".

Definition start : M Sys unit :=
  triggered ← try_except_InvalidStateTrigger
                (fsm_trigger "START";; ret true)
                (fun ex =>
                   log_exception ex;;
                   stop;;  (* Do not start strategy in an invalid state *)
                   ret false);
  if negb triggered then ret tt
  else
    log_msg INF "state=...";;
    s ← this;
    match _data_engine s with
    | None =>
        log_msg ERR
          "Cannot start strategy (the data engine is not registered)."
    | Some _ =>
        match _exec_engine s with
        | None =>
            log_msg ERR
              "Cannot start strategy (the execution engine is not registered)."
        | Some _ =>
            started ← try_except (on_start;; ret true)
                        (fun ex => log_exception ex;; stop;; ret false);
            if negb started then ret tt
            else
              fsm_trigger "RUNNING";;
              log_msg INF "state=."
        end
    end.

Definition resume : M Sys unit :=
  triggered ← try_except_InvalidStateTrigger
                (fsm_trigger "RESUME";; ret true)
                (fun ex =>
                   log_exception ex;;
                   stop;;  (* Do not start strategy in an invalid state *)
                   ret false);
  if negb triggered then ret tt
  else
    log_msg INF "state=...";;
    resumed ← try_except (on_resume;; ret true)
                (fun ex => log_exception ex;; stop;; ret false);
    if negb resumed then ret tt
    else
      fsm_trigger "RUNNING";;
      log_msg INF "state=.".

Definition reset : M Sys unit :=
  triggered ← try_except_InvalidStateTrigger
                (fsm_trigger "RESET";; ret true)
                (fun ex => log_exception ex;; ret false);
  if negb triggered then ret tt
  else
    log_msg INF "state=...";;
    s ← this;
    match order_factory s with
    | Some _ => update (set_order_factory (Some (mkOrderFactory 0)))
    | None => ret tt
    end;;
    match position_id_generator s with
    | Some _ =>
        update (set_position_id_generator (Some (mkPositionIdGenerator 0)))
    | None => ret tt
    end;;
    update (set_flattening_ids ∅);;
    update (set_stop_loss_ids ∅);;
    update (set_take_profit_ids ∅);;
    update (set_indicators []);;
    update (set_indicators_for_quotes ∅);;
    update (set_indicators_for_trades ∅);;
    update (set_indicators_for_bars ∅);;
    try_except on_reset log_exception;;
    fsm_trigger "RESET";;
    log_msg INF "state=.".

Definition dispose : M Sys unit :=
  triggered ← try_except_InvalidStateTrigger
                (fsm_trigger "DISPOSE";; ret true)
                (fun ex => log_exception ex;; ret false);
  if negb triggered then ret tt
  else
    log_msg INF "state=...";;
    try_except on_dispose log_exception;;
    fsm_trigger "DISPOSED";;
    log_msg INF "state=.".

(** *** Saving and loading *)

Definition save : M Sys PyDict :=
  s ← this;
  factory ← attr (order_factory s) "order_factory";
  generator ← attr (position_id_generator s) "position_id_generator";
  let state : PyDict :=
    <[KStr "OrderIdCount" := VInt (order_id_count factory)]>
      (<[KStr "PositionIdCount" := VInt (count generator)]> ∅) in
  (* when on_save raises, user_state is never bound *)
  user_state ← try_except (d ← on_save; ret (Some d))
                 (fun ex => log_exception ex;; ret None);
  match user_state with
  | Some user_state => ret (user_state ∪ state)  (* {**state, **user_state} *)
  | None => raise (UnboundLocalError "user_state")
  end.

(** [int(value.decode("utf8"))] *)
Definition decode_int (value : PyVal) : M Sys Z :=
  match value with
  | VBytes b =>
      match int b with
      | Some n => ret n
      | None => raise (ValueError "invalid literal for int()")
      end
  | _ => raise (AttributeError "decode")
  end.

Definition load (state : PyDict) : M Sys unit :=
  Condition.not_empty (map_to_list state) "state";;
  let order_id_count := default VNone (state !! KBytes "OrderIdCount") in
  (if truthy order_id_count then
     order_id_count ← decode_int order_id_count;
     s ← this;
     attr (order_factory s) "order_factory";;
     update (set_order_factory (Some (mkOrderFactory order_id_count)));;
     log_msg INF "Setting OrderIdGenerator count."
   else ret tt);;
  let position_id_count := default VNone (state !! KBytes "PositionIdCount") in
  (if truthy position_id_count then
     position_id_count ← decode_int position_id_count;
     s ← this;
     attr (position_id_generator s) "position_id_generator";;
     update (set_position_id_generator
               (Some (mkPositionIdGenerator position_id_count)));;
     log_msg INF "Setting PositionIdGenerator count."
   else ret tt);;
  try_except (on_load state) log_exception.

(** *** Runs: the calls a strategy receives, one after the other *)

Inductive Op : Type :=
  | Start | Stop | Resume | Reset | Dispose
  | Save
  | Load (state : PyDict)
  | RegisterTrader (trader_id : TraderId) (clock : Clock)
  | RegisterDataEngine (engine : DataEngine)
  | RegisterExecutionEngine (engine : ExecutionEngine)
  | RegisterIndicatorForQuoteTicks (symbol : Symbol) (indicator : Indicator)
  | RegisterIndicatorForTradeTicks (symbol : Symbol) (indicator : Indicator)
  | RegisterIndicatorForBars (bar_type : BarType) (indicator : Indicator)
  | RegisterStopLoss (order : Order)
  | RegisterTakeProfit (order : Order)
  | HandleQuoteTick (tick : QuoteTick) (is_historical : bool)
  | HandleQuoteTicks (ticks : list QuoteTick)
  | HandleTradeTick (tick : TradeTick) (is_historical : bool)
  | HandleTradeTicks (ticks : list TradeTick)
  | HandleBar (bar_type : BarType) (bar : Bar) (is_historical : bool)
  | HandleBars (bar_type : BarType) (bars : list Bar)
  | HandleData (data : string)
  | HandleEvent (event : Event)
  | SubmitOrderOp (order : Order) (cl_pos_id : ClientPositionId)
  | CancelAllOrders
  | FlattenPosition (cl_pos_id : ClientPositionId)
  | FlattenAllPositions.

Definition run_op (op : Op) : M Sys unit :=
  match op with
  | Start => start
  | Stop => stop
  | Resume => resume
  | Reset => reset
  | Dispose => dispose
  | Save => save;; ret tt
  | Load state => load state
  | RegisterTrader trader_id clock =>
      register_trader trader_id clock mkUUIDFactory mkLoggerAdapter
  | RegisterDataEngine engine => register_data_engine engine
  | RegisterExecutionEngine engine => register_execution_engine engine
  | RegisterIndicatorForQuoteTicks symbol indicator =>
      register_indicator_for_quote_ticks symbol indicator
  | RegisterIndicatorForTradeTicks symbol indicator =>
      register_indicator_for_trade_ticks symbol indicator
  | RegisterIndicatorForBars bar_type indicator =>
      register_indicator_for_bars bar_type indicator
  | RegisterStopLoss order => register_stop_loss order
  | RegisterTakeProfit order => register_take_profit order
  | HandleQuoteTick tick is_historical => handle_quote_tick tick is_historical
  | HandleQuoteTicks ticks => handle_quote_ticks ticks
  | HandleTradeTick tick is_historical => handle_trade_tick tick is_historical
  | HandleTradeTicks ticks => handle_trade_ticks ticks
  | HandleBar bar_type bar is_historical =>
      handle_bar bar_type bar is_historical
  | HandleBars bar_type bars => handle_bars bar_type bars
  | HandleData data => handle_data data
  | HandleEvent event => handle_event event
  | SubmitOrderOp order cl_pos_id => submit_order order cl_pos_id
  | CancelAllOrders => cancel_all_orders
  | FlattenPosition cl_pos_id => flatten_position cl_pos_id
  | FlattenAllPositions => flatten_all_positions
  end.

(** The caller goes on after an exception: the strategy is left as the
    failed call left it. *)
Definition run_ops (ops : list Op) (sys : Sys) : Sys :=
  fold_left (fun sys op => snd (run_op op sys)) ops sys.

End Methods.

(** *** Vocabulary of the claims *)

(** Bars in descending, respectively ascending, order of timestamp. *)
Definition descending (bars : list Bar) : Prop :=
  Sorted (fun a b => timestamp b <= timestamp a) bars.

Definition ascending (bars : list Bar) : Prop :=
  Sorted (fun a b => timestamp a <= timestamp b) bars.

(** What a flattening order asks for: the position, and the symbol, side
    and quantity of the market order. *)
Definition flatten_request (c : Command)
    : option (ClientPositionId * Symbol * OrderSide * Z) :=
  match c with
  | SubmitOrder _ _ _ p order =>
      Some (p, order_symbol order, side order, order_quantity order)
  | CancelOrder _ _ _ => None
  end.

Definition flatten_requests (tr : list Effect)
    : list (ClientPositionId * Symbol * OrderSide * Z) :=
  omap flatten_request (commands tr).

(** The order that brings a position to zero: buy back a short, sell a long. *)
Definition flattening_of (entry : ClientPositionId * Position)
    : ClientPositionId * Symbol * OrderSide * Z :=
  (entry.1, symbol entry.2,
   if decide (market_position entry.2 = SHORT) then BUY else SELL,
   quantity entry.2).

Definition not_closed (entry : ClientPositionId * Position) : bool :=
  negb (is_closed entry.2).

(** A strategy registered with a trader and with the execution engine. *)
Definition ready (trader : TraderId) (engine : ExecutionEngine)
    (s : TradingStrategy) : Prop :=
  trader_id s = Some trader /\ _exec_engine s = Some engine
  /\ is_Some (log s) /\ is_Some (uuid_factory s) /\ is_Some (clock s)
  /\ is_Some (order_factory s).

(** The calls that take a position id out of the in-flight flattening set
    whatever else holds: [reset], and the handling of the position's
    [PositionClosed] event. *)
Definition releases (p : ClientPositionId) (op : Op) : bool :=
  match op with
  | Reset => true
  | HandleEvent (PositionClosed position) => bool_decide (cl_pos_id position = p)
  | _ => false
  end.

(** The calls that reach [flatten_position]: the method itself, and
    [handle_event] through flatten-on-reject. *)
Definition reaches_flatten_position (op : Op) : bool :=
  match op with
  | FlattenPosition _ | HandleEvent _ => true
  | _ => false
  end.

(** How often [on_start] was called. *)
Definition on_start_calls (tr : list Effect) : nat :=
  length (omap (fun e => match e with
                         | Call on_start_ => Some tt
                         | _ => None
                         end) tr).

(** What the lifecycle graph of section 4.5 says of a trigger table, as far
    as starting goes: a strategy starts from Initialized only, to which only
    a reset leads back; Running is entered by the RUNNING trigger only; and
    a running strategy can be stopped. *)
Definition lifecycle_table_ok
    (table : ComponentState -> string -> option ComponentState) : Prop :=
  (forall s, is_Some (table s "START") -> s = INITIALIZED)
  /\ (forall s trigger, table s trigger = Some INITIALIZED -> trigger = "RESET")
  /\ (forall s trigger, table s trigger = Some RUNNING -> trigger = "RUNNING")
  /\ is_Some (table RUNNING "STOP").

(** Invariants of the lifecycle, for a given trigger table: the strategy
    carries that table and has called [on_start] [n] times; moreover it has
    left Initialized; it may since have called [on_start] once more, and
    then has left Initialized; it is not Running. *)
Definition counted (table : ComponentState -> string -> option ComponentState)
    (n : nat) (sys : Sys) : Prop :=
  state_transition_table (_fsm (self sys)) = table
  /\ on_start_calls (trace sys) = n.

Definition started (table : ComponentState -> string -> option ComponentState)
    (n : nat) (sys : Sys) : Prop :=
  counted table n sys /\ state (_fsm (self sys)) <> INITIALIZED.

Definition after_start
    (table : ComponentState -> string -> option ComponentState)
    (n : nat) (sys : Sys) : Prop :=
  counted table n sys \/ started table (S n) sys.

Definition not_running
    (table : ComponentState -> string -> option ComponentState)
    (sys : Sys) : Prop :=
  state_transition_table (_fsm (self sys)) = table
  /\ state (_fsm (self sys)) <> RUNNING.

(** [TradingStrategy.__init__] *)
Definition init (name order_id_tag : string)
    (flatten_on_stop flatten_on_reject cancel_all_orders_on_stop
       reraise_exceptions : bool) : TradingStrategy :=
  mkTradingStrategy (name ++ "-" ++ order_id_tag) None None None None
    flatten_on_stop flatten_on_reject cancel_all_orders_on_stop
    reraise_exceptions None None ∅ ∅ ∅ [] ∅ ∅ ∅ None None
    create_component_fsm.

(** *** Further query and management methods *)

Global Instance OrderSide_eq_dec : EqDecision OrderSide.
Proof. solve_decision. Defined.

(** [return self._indicators.copy()] *)
Definition registered_indicators : M Sys (list Indicator) :=
  s ← this;
  ret (_indicators s).

Definition get_opposite_side (side : OrderSide) : M Sys OrderSide :=
  Condition.not_equal side UNDEFINED_SIDE "side" "OrderSide.UNDEFINED";;
  ret (if decide (side = SELL) then BUY else SELL).

(** [return cl_ord_id in self._stop_loss_ids] *)
Definition is_stop_loss (cl_ord_id : ClientOrderId) : M Sys bool :=
  s ← this;
  ret (bool_decide (cl_ord_id ∈ _stop_loss_ids s)).

(** [return cl_ord_id in self._take_profit_ids] *)
Definition is_take_profit (cl_ord_id : ClientOrderId) : M Sys bool :=
  s ← this;
  ret (bool_decide (cl_ord_id ∈ _take_profit_ids s)).

Definition cancel_order (order : Order) : M Sys unit :=
  s ← this;
  trader ← Condition.not_none (trader_id s) "trader_id";
  engine ← Condition.not_none (_exec_engine s) "execution_engine";
  attr (uuid_factory s) "uuid_factory";;
  attr (clock s) "clock";;
  let command :=
    CancelOrder (Some trader) (account_id engine) (cl_ord_id order) in
  log_msg INF "CMD SENT CancelOrder.";;
  emit (ExecuteCommand command).

(** *** Vocabulary of the further properties *)

(** The five lifecycle calls. *)
Definition lifecycle (op : Op) : bool :=
  match op with
  | Start | Stop | Resume | Reset | Dispose => true
  | _ => false
  end.

(** The call that registers the execution engine. *)
Definition registers_engine (op : Op) : bool :=
  match op with RegisterExecutionEngine _ => true | _ => false end.

(** The ids of the orders a trace asks to cancel. *)
Definition cancel_requests (tr : list Effect) : list ClientOrderId :=
  omap (fun c => match c with
                 | CancelOrder _ _ id => Some id
                 | SubmitOrder _ _ _ _ _ => None
                 end) (commands tr).

(** The three calls that register an indicator. *)
Definition registers_indicator (op : Op) : bool :=
  match op with
  | RegisterIndicatorForQuoteTicks _ _ | RegisterIndicatorForTradeTicks _ _
  | RegisterIndicatorForBars _ _ => true
  | _ => false
  end.

(** A well-formed list of receivers: not empty, no indicator twice, every
    one of them among the registered indicators. *)
Definition receivers_ok (registered : list Indicator)
    (receivers : list Indicator) : Prop :=
  receivers <> [] /\ NoDup receivers /\ receivers ⊆ registered.

(** A well-formed indicator registry: no indicator is registered twice,
    and the receivers kept for each symbol and bar type are well-formed. *)
Definition registry_ok (s : TradingStrategy) : Prop :=
  NoDup (_indicators s)
  /\ (forall symbol l, _indicators_for_quotes s !! symbol = Some l ->
                       receivers_ok (_indicators s) l)
  /\ (forall symbol l, _indicators_for_trades s !! symbol = Some l ->
                       receivers_ok (_indicators s) l)
  /\ (forall bar_type l, _indicators_for_bars s !! bar_type = Some l ->
                         receivers_ok (_indicators s) l).

(** The calls that take an order id out of the stop-loss and take-profit
    registries: [reset], and the handling of an event that completes the
    order. *)
Definition forgets (id : ClientOrderId) (op : Op) : bool :=
  match op with
  | Reset => true
  | HandleEvent event =>
      bool_decide (_ORDER_COMPLETION_TRIGGERS event = Some id)
  | _ => false
  end.

(** The session state [reset] clears. *)
Definition session_cleared (s : TradingStrategy) : Prop :=
  _flattening_ids s = ∅ /\ _stop_loss_ids s = ∅ /\ _take_profit_ids s = ∅
  /\ _indicators s = [] /\ _indicators_for_quotes s = ∅
  /\ _indicators_for_trades s = ∅ /\ _indicators_for_bars s = ∅.

End Strategy.
(** * Concrete instances *)
Module AccountExamples.
Import Accounts.

Definition usd (total_ locked_ free_ : Z) : AccountBalance :=
  mkAccountBalance "USD" (mkMoney total_ "USD") (mkMoney locked_ "USD")
    (mkMoney free_ "USD").

Definition btc (total_ locked_ free_ : Z) : AccountBalance :=
  mkAccountBalance "BTC" (mkMoney total_ "BTC") (mkMoney locked_ "BTC")
    (mkMoney free_ "BTC").

(** A multi-currency account holding USD and BTC. *)
Definition multi_account : Account :=
  snd (init (mkAccountState "SIM-001" CASH None
               [usd 1000000 0 1000000; btc 10 0 10]) false).

(** A single-currency account with 10_000.00 USD. *)
Definition usd_account : Account :=
  snd (init (mkAccountState "SIM-000" CASH (Some "USD")
               [usd 1000000 0 1000000]) false).

Definition usd_update : AccountState :=
  mkAccountState "SIM-000" CASH (Some "USD") [usd 995000 5000 990000].

End AccountExamples.

Module MessageExamples.
Import Messages.

(** A numbering of the enum's members, in the order [to_str] reads. *)
Definition value_of (c : MessageCategory) : Z :=
  match c with
  | COMMAND => 1 | DOCUMENT => 2 | EVENT => 3 | REQUEST => 4 | RESPONSE => 5
  end.

End MessageExamples.

Module InstrumentExamples.
Import Instruments.

(** Components that are their own text: each prints as itself and is
    parsed from any text. *)
Definition print (s : string) : string := s.

Definition parse (s : option string) : outcome string :=
  match s with
  | Some s => Done s
  | None => Fail (TypeError "NoneType")
  end.

Definition parse_value (v : Value) : outcome string :=
  match v with
  | VStr s => Done s
  | _ => Fail (ParseError "Decimal")
  end.

Definition parse_bytes (b : string) : outcome string := Done b.

(** A perpetual swap on BTC/USDT, settled in USDT, without price limits. *)
Definition btc_perpetual : CryptoSwap :=
  mkCryptoSwap "BTCUSDT-PERP.BINANCE" CRYPTO SWAP "BTC" "USDT" "USDT" false
    false 2 6 "0.01" "0.000001" "1" "1" (Some "9000") (Some "0.000001")
    None (Some "10.00 USDT") None None "0.0125" "0.0075" "0.0002" "0.0004"
    0 0 (Some "{}").

End InstrumentExamples.

Module StrategyExamples.
Import Strategy.

(** Python's [int] on plain decimal digits. *)
Definition digit (a : Ascii.ascii) : option Z :=
  let n := Z.of_nat (Ascii.nat_of_ascii a) in
  if bool_decide (48 <= n <= 57) then Some (n - 48) else None.

Fixpoint decimal_from (acc : Z) (s : string) : option Z :=
  match s with
  | EmptyString => Some acc
  | String a s' =>
      match digit a with
      | Some d => decimal_from (10 * acc + d) s'
      | None => None
      end
  end.

Definition decimal (s : string) : option Z :=
  match s with
  | EmptyString => None
  | _ => decimal_from 0 s
  end.

(** An open long position, and the stop-loss order 1 that belongs to it. *)
Definition position_y : Position :=
  mkPosition "P-1" "AUD/USD" LONG 100000 false.

Definition database_y : ExecutionDatabase :=
  mkExecutionDatabase
    (fun p => if decide (p = "P-1") then Some position_y else None)
    (fun _ => [("P-1", position_y)])
    (fun _ => [])
    (fun o => if decide (o = 1) then Some "P-1" else None)
    (fun p => bool_decide (p = "P-1")).

Definition engine_y : ExecutionEngine := mkExecutionEngine "SIM-000" database_y.

(** A strategy as constructed, with every management flag set. *)
Definition fresh : Sys :=
  mkSys (init "TradingStrategy" "001" true true true true) [].

(** The strategy registered with a trader and both engines. *)
Definition registered : Sys :=
  run_ops base_class decimal
    [RegisterTrader "TESTER-000" (mkClock []);
     RegisterDataEngine mkDataEngine;
     RegisterExecutionEngine engine_y] fresh.

(** The strategy registered with a trader and the execution engine only. *)
Definition without_data_engine : Sys :=
  run_ops base_class decimal
    [RegisterTrader "TESTER-000" (mkClock []);
     RegisterExecutionEngine engine_y] fresh.

(** The registered strategy, started. *)
Definition running : Sys := run_ops base_class decimal [Start] registered.

(** The registered strategy after a first [flatten_position] of P-1. *)
Definition flattening_y : Sys :=
  run_ops base_class decimal [FlattenPosition "P-1"] registered.

(** A subclass whose [on_start] raises. *)
Definition failing_on_start : UserCode :=
  mkUserCode (fun _ => Some (UserException "on_start")) (fun _ => None)
    (fun _ => None) (fun _ => None) (fun _ => None) (fun _ => Ok ∅)
    (fun _ _ => None) (fun _ _ => None) (fun _ _ => None)
    (fun _ _ _ => None) (fun _ _ => None) (fun _ _ => None).

(** A subclass whose [on_save] returns one value of its own. *)
Definition saving_user : UserCode :=
  mkUserCode (fun _ => None) (fun _ => None) (fun _ => None) (fun _ => None)
    (fun _ => None) (fun _ => Ok {[KStr "UserState" := VInt 1]})
    (fun _ _ => None) (fun _ _ => None) (fun _ _ => None)
    (fun _ _ _ => None) (fun _ _ => None) (fun _ _ => None).

(** A subclass whose [on_save] raises. *)
Definition failing_on_save : UserCode :=
  mkUserCode (fun _ => None) (fun _ => None) (fun _ => None) (fun _ => None)
    (fun _ => None) (fun _ => Raise (UserException "on_save"))
    (fun _ _ => None) (fun _ _ => None) (fun _ _ => None)
    (fun _ _ _ => None) (fun _ _ => None) (fun _ _ => None).

(** A subclass whose [on_data] raises. *)
Definition failing_on_data : UserCode :=
  mkUserCode (fun _ => None) (fun _ => None) (fun _ => None) (fun _ => None)
    (fun _ => None) (fun _ => Ok ∅) (fun _ _ => None) (fun _ _ => None)
    (fun _ _ => None) (fun _ _ _ => None)
    (fun _ _ => Some (UserException "on_data")) (fun _ _ => None).

(** The registered strategy with order 1 registered as the stop-loss of
    the open position P-1. *)
Definition protected_y : Sys :=
  run_ops base_class decimal
    [RegisterStopLoss (mkOrder 1 "AUD/USD" SELL 100000)] registered.

(** The registered strategy with one indicator receiving the quote ticks
    of AUD/USD. *)
Definition with_indicator : Sys :=
  run_ops base_class decimal
    [RegisterIndicatorForQuoteTicks "AUD/USD" "ema-10"] registered.

(** The registered strategy, disposed. *)
Definition disposed : Sys := run_ops base_class decimal [Dispose] registered.

(** A state as the persistence layer hands it back: bytes throughout. *)
Definition persisted_state : PyDict :=
  <[KBytes "OrderIdCount" := VBytes "12"]>
    (<[KBytes "PositionIdCount" := VBytes "3"]> ∅).

End StrategyExamples.

(** * Reasoning about monadic code *)

Local Open Scope list_scope.

Ltac monad_unfold :=
  cbv beta iota delta
    [mbind M_bind mret M_ret bind ret raise get modify try_except
     Condition.true Condition.not_none Condition.equal Condition.not_equal
     Condition.not_empty Condition.not_in].

Ltac monad_simpl := repeat (progress (monad_unfold; simpl)).

(** [hoare P c Q E]: from a state in [P], [c] ends in [Q] when it returns
    and in [E] when it raises. The state-and-exception monad is total, so
    this is a statement about the run [c] does make. *)
Definition hoare {S A} (P : S -> Prop) (c : M S A) (Q : A -> S -> Prop)
    (E : S -> Prop) : Prop :=
  forall s, P s ->
    match c s with
    | (Ok a, s') => Q a s'
    | (Raise _, s') => E s'
    end.

(** [preserves I c]: [c] keeps the invariant [I], however it ends. *)
Definition preserves {S A} (I : S -> Prop) (c : M S A) : Prop :=
  hoare I c (fun _ => I) I.

Section Hoare.
Context {S : Type}.
Implicit Types (P E I : S -> Prop).

Lemma hoare_run {A} P (c : M S A) Q E s :
  hoare P c Q E -> P s ->
  match fst (c s) with Ok a => Q a (snd (c s)) | Raise _ => E (snd (c s)) end.
Proof. intros H HP. specialize (H s HP). by destruct (c s) as [[a|e] s']. Qed.

Lemma preserves_run {A} I (c : M S A) s : preserves I c -> I s -> I (snd (c s)).
Proof. intros H HI. specialize (H s HI). by destruct (c s) as [[a|e] s']. Qed.

Lemma hoare_weaken {A} P P' (c : M S A) (Q Q' : A -> S -> Prop) E E' :
  hoare P' c Q' E' ->
  (forall s, P s -> P' s) -> (forall a s, Q' a s -> Q a s) ->
  (forall s, E' s -> E s) ->
  hoare P c Q E.
Proof.
  intros H HP HQ HE s Hs. specialize (H s (HP s Hs)).
  destruct (c s) as [[a|e] s']; auto.
Qed.

Lemma preserves_hoare {A} I (c : M S A) (Q : A -> S -> Prop) E :
  preserves I c -> (forall a s, I s -> Q a s) -> (forall s, I s -> E s) ->
  hoare I c Q E.
Proof. intros H HQ HE. eapply hoare_weaken; [exact H|done|done|done]. Qed.

Lemma hoare_ret {A} P (a : A) (Q : A -> S -> Prop) E :
  (forall s, P s -> Q a s) -> hoare P (ret a) Q E.
Proof. intros H s Hs. by apply H. Qed.

Lemma hoare_raise {A} P (e : exn) (Q : A -> S -> Prop) E :
  (forall s, P s -> E s) -> hoare P (raise e) Q E.
Proof. intros H s Hs. by apply H. Qed.

Lemma hoare_bind {A B} P (c : M S A) (k : A -> M S B) R Q E :
  hoare P c R E -> (forall a, hoare (R a) (k a) Q E) ->
  hoare P (c ≫= k) Q E.
Proof.
  intros Hc Hk s Hs. specialize (Hc s Hs).
  unfold mbind, M_bind, bind. destruct (c s) as [[a|e] s']; [|done].
  by apply Hk.
Qed.

Lemma hoare_try_except {A} P (c : M S A) (h : exn -> M S A) Q R E :
  hoare P c Q R -> (forall e, hoare R (h e) Q E) ->
  hoare P (try_except c h) Q E.
Proof.
  intros Hc Hh s Hs. specialize (Hc s Hs).
  unfold try_except. destruct (c s) as [[a|e] s']; [done|].
  by apply Hh.
Qed.

Lemma preserves_ret {A} I (a : A) : preserves I (ret a).
Proof. by apply hoare_ret. Qed.

Lemma preserves_raise {A} I (e : exn) : preserves I (raise e : M S A).
Proof. by apply hoare_raise. Qed.

Lemma preserves_get I : preserves I get.
Proof. by intros s Hs. Qed.

Lemma preserves_modify I (f : S -> S) :
  (forall s, I s -> I (f s)) -> preserves I (modify f).
Proof. intros H s Hs. by apply H. Qed.

Lemma preserves_bind {A B} I (c : M S A) (k : A -> M S B) :
  preserves I c -> (forall a, preserves I (k a)) -> preserves I (c ≫= k).
Proof. intros Hc Hk. by eapply hoare_bind. Qed.

Lemma preserves_try_except {A} I (c : M S A) (h : exn -> M S A) :
  preserves I c -> (forall e, preserves I (h e)) ->
  preserves I (try_except c h).
Proof. intros Hc Hh. by eapply hoare_try_except. Qed.

Lemma preserves_for_each {A} I (xs : list A) (body : A -> M S unit) :
  (forall x, preserves I (body x)) -> preserves I (for_each xs body).
Proof.
  intros Hbody. induction xs as [|x xs IH]; simpl.
  - apply preserves_ret.
  - apply (preserves_bind I (body x) (fun _ => for_each xs body)); auto.
Qed.

Lemma preserves_Condition_true I b msg : preserves I (Condition.true b msg).
Proof. destruct b; [apply preserves_ret|apply preserves_raise]. Qed.

Lemma preserves_Condition_not_none {A} I (o : option A) param :
  preserves I (Condition.not_none o param).
Proof. destruct o; [apply preserves_ret|apply preserves_raise]. Qed.

Lemma preserves_Condition_equal {A} `{EqDecision A} I (a b : A) p1 p2 :
  preserves I (Condition.equal a b p1 p2).
Proof.
  unfold Condition.equal. case_decide; [apply preserves_ret|apply preserves_raise].
Qed.

Lemma preserves_Condition_not_equal {A} `{EqDecision A} I (a b : A) p1 p2 :
  preserves I (Condition.not_equal a b p1 p2).
Proof.
  unfold Condition.not_equal.
  case_decide; [apply preserves_raise|apply preserves_ret].
Qed.

Lemma preserves_Condition_not_empty {A} I (l : list A) param :
  preserves I (Condition.not_empty l param).
Proof. destruct l; [apply preserves_raise|apply preserves_ret]. Qed.

Lemma preserves_Condition_not_in `{Countable K} I (x : K) (X : gset K) p1 p2 :
  preserves I (Condition.not_in x X p1 p2).
Proof.
  unfold Condition.not_in.
  case_decide; [apply preserves_raise|apply preserves_ret].
Qed.

End Hoare.

(** * Properties of Account *)
Module AccountsFacts.
Import Accounts AccountExamples.

(** What [store_balances] leaves under a currency: the last entry of the
    list that names it, or else what was there before. *)
Lemma store_balances_lookup (bs : list AccountBalance)
    (m : gmap Currency AccountBalance) (c : Currency) :
  (c ∈ (currency <$> bs) ->
     exists pre b post, bs = (pre ++ (b :: post))%list /\ currency b = c /\
       (c ∉ (currency <$> post)) /\ store_balances bs m !! c = Some b)
  /\ (c ∉ (currency <$> bs) -> store_balances bs m !! c = m !! c).
Proof.
  unfold store_balances.
  induction bs as [|x bs IH] using rev_ind.
  - split; [intros H; inversion H | done].
  - rewrite fold_left_app, fmap_app. simpl.
    destruct (decide (currency x = c)) as [Heq|Hne].
    + split.
      * intros _. exists bs, x, []. repeat split; auto.
        -- simpl. apply not_elem_of_nil.
        -- rewrite <- Heq. apply lookup_insert_eq.
      * intros Hn. exfalso. apply Hn. apply elem_of_app. right.
        rewrite Heq. apply list_elem_of_singleton. reflexivity.
    + rewrite lookup_insert_ne by exact Hne. split.
      * intros Hin. apply elem_of_app in Hin as [Hin|Hin].
        -- destruct (proj1 IH Hin) as (pre & b & post & -> & Hb & Hpost & Hl).
           exists pre, b, (post ++ [x])%list. repeat split; auto.
           ++ rewrite <- app_assoc. reflexivity.
           ++ rewrite fmap_app. intros [H|H]%elem_of_app; [done|].
              apply list_elem_of_singleton in H. congruence.
        -- apply list_elem_of_singleton in Hin. congruence.
      * intros Hn. apply IH. intros Hin. apply Hn. apply elem_of_app. by left.
Qed.

(** A successful [apply] appended the event and stored its balances. *)
Lemma apply_Ok_inv (self self' : Account) (event : AccountState) :
  apply event self = (Ok tt, self') ->
  self' = set_balances (store_balances (balances event))
            (set_events (fun events => (events ++ [event])%list) self).
Proof.
  unfold apply, update_balances. monad_simpl.
  case_decide; monad_simpl; [|discriminate].
  case_decide; monad_simpl; [|discriminate].
  destruct (base_currency self) as [base|]; monad_simpl.
  - case_bool_decide; monad_simpl; [|discriminate].
    destruct (balances event) as [|b l]; monad_simpl; [discriminate|].
    case_decide; monad_simpl; [|discriminate]. congruence.
  - destruct (balances event) as [|b l]; monad_simpl; [discriminate|]. congruence.
Qed.

(** C1: after a successful [apply], every currency the event names holds
    the balance the event declares for it (its last entry for that currency,
    which is its only one when the event names each currency once), and
    every other currency keeps the balance it had. *)
Theorem apply_last_write_wins (self self' : Account) (event : AccountState) :
  apply event self = (Ok tt, self') ->
  forall c : Currency,
    (c ∈ (currency <$> balances event) ->
       exists pre b post, balances event = (pre ++ (b :: post))%list /\
         currency b = c /\ (c ∉ (currency <$> post)) /\
         _balances self' !! c = Some b)
    /\ (forall b, b ∈ balances event -> currency b = c ->
          (forall b', b' ∈ balances event -> currency b' = c -> b' = b) ->
          _balances self' !! c = Some b)
    /\ (c ∉ (currency <$> balances event) ->
          _balances self' !! c = _balances self !! c).
Proof.
  intros Happly c. apply apply_Ok_inv in Happly. subst self'. simpl.
  pose proof (store_balances_lookup (balances event) (_balances self) c) as [Hin Hout].
  split; [exact Hin|]. split; [|exact Hout].
  intros b Hb Hc Huniq.
  destruct Hin as (pre & b0 & post & Heq & Hb0 & _ & Hl).
  - apply list_elem_of_fmap. exists b. auto.
  - rewrite Hl. f_equal. apply Huniq; [|exact Hb0].
    rewrite Heq. apply elem_of_app. right. apply list_elem_of_here.
Qed.

(** Over a run of events the same holds from event to event: a currency
    holds what the last event naming it declares, and its initial balance
    when no event names it. *)
Lemma apply_all_cons (event : AccountState) (events : list AccountState)
    (self self' : Account) :
  apply_all (event :: events) self = (Ok tt, self') ->
  exists middle,
    apply event self = (Ok tt, middle) /\ apply_all events middle = (Ok tt, self').
Proof.
  unfold apply_all. simpl. unfold bind at 1.
  destruct (apply event self) as [[[]|e] middle]; [eauto|discriminate].
Qed.

Lemma apply_all_untouched (events : list AccountState) (c : Currency) :
  Forall (fun e => c ∉ (currency <$> balances e)) events ->
  forall self self', apply_all events self = (Ok tt, self') ->
  _balances self' !! c = _balances self !! c.
Proof.
  induction 1 as [|event events Hev _ IH]; intros self self' Hrun.
  - injection Hrun as <-. reflexivity.
  - apply apply_all_cons in Hrun as (middle & Hstep & Hrest).
    rewrite (IH _ _ Hrest). apply apply_Ok_inv in Hstep. subst middle. simpl.
    by apply store_balances_lookup.
Qed.

Lemma apply_all_last_write_wins (before after : list AccountState)
    (event : AccountState) (self self' : Account) (c : Currency) :
  apply_all (before ++ event :: after) self = (Ok tt, self') ->
  c ∈ (currency <$> balances event) ->
  Forall (fun e => c ∉ (currency <$> balances e)) after ->
  exists pre b post,
    balances event = (pre ++ (b :: post))%list /\ currency b = c
    /\ (c ∉ (currency <$> post)) /\ _balances self' !! c = Some b.
Proof.
  revert self. induction before as [|e before IH]; intros self Hrun Hin Hafter.
  - simpl in Hrun. apply apply_all_cons in Hrun as (middle & Hstep & Hrest).
    rewrite (apply_all_untouched after c Hafter _ _ Hrest).
    apply apply_Ok_inv in Hstep. subst middle. simpl.
    by apply store_balances_lookup.
  - simpl in Hrun. apply apply_all_cons in Hrun as (middle & _ & Hrest).
    by apply (IH middle).
Qed.

(** C2: an event for another account, with another base currency, or (on a
    single-currency account) with a number of balances other than one or a
    balance in another currency is rejected with the account unchanged. *)
Theorem apply_rejects_atomically (self : Account) (event : AccountState) :
  account_id event <> id self
  \/ event_base_currency event <> base_currency self
  \/ (exists base, base_currency self = Some base /\
        (length (balances event) <> 1%nat
         \/ exists b, b ∈ balances event /\ currency b <> base)) ->
  exists msg, apply event self = (Raise (ValueError msg), self).
Proof.
  intros H.
  unfold apply. monad_simpl.
  case_decide; monad_simpl; [|eauto].
  case_decide; monad_simpl; [|eauto].
  destruct H as [H|[H|(base & Hbase & H)]]; [done|done|].
  rewrite Hbase. monad_simpl.
  case_bool_decide as Hlen; monad_simpl; [|eauto].
  destruct H as [H|(b & Hb & Hne)]; [done|].
  destruct (balances event) as [|b0 [|b1 l]]; simpl in *; try discriminate.
  apply list_elem_of_singleton in Hb. subst b0.
  case_decide; monad_simpl; [done|eauto].
Qed.

(** Outside the mismatches above: an event without balances, applied to a
    multi-currency account, is appended to the log before [update_balances]
    refuses it. *)
Example apply_without_balances :
  exists msg self',
    apply (mkAccountState "SIM-001" CASH None []) multi_account
    = (Raise (ValueError msg), self')
    /\ event_count_c multi_account = 1%nat
    /\ event_count_c self' = 2%nat
    /\ _balances self' = _balances multi_account.
Proof. eexists _, _. split; [reflexivity|]. repeat split. Qed.

(** C8: with no currency argument the four balance queries use the
    account's base currency; they fail when neither is given; and when the
    resolved currency has no recorded balance they answer [None], which is
    not a [Money] of amount zero. *)
Theorem balance_queries_resolve_currency (self : Account) :
  (forall base, base_currency self = Some base ->
     balance None self = balance (Some base) self
     /\ balance_total None self = balance_total (Some base) self
     /\ balance_free None self = balance_free (Some base) self
     /\ balance_locked None self = balance_locked (Some base) self)
  /\ (base_currency self = None ->
      exists msg,
        balance None self = (Raise (ValueError msg), self)
        /\ balance_total None self = (Raise (ValueError msg), self)
        /\ balance_free None self = (Raise (ValueError msg), self)
        /\ balance_locked None self = (Raise (ValueError msg), self))
  /\ (forall (query : option Currency) (c : Currency),
        match query with Some q => Some q | None => base_currency self end
          = Some c ->
        _balances self !! c = None ->
        balance query self = (Ok None, self)
        /\ balance_total query self = (Ok None, self)
        /\ balance_free query self = (Ok None, self)
        /\ balance_locked query self = (Ok None, self)
        /\ balance_total query self <> (Ok (Some (mkMoney 0 c)), self)
        /\ balance_free query self <> (Ok (Some (mkMoney 0 c)), self)
        /\ balance_locked query self <> (Ok (Some (mkMoney 0 c)), self)).
Proof.
  split; [|split].
  - intros base Hbase.
    unfold balance, balance_total, balance_free, balance_locked, resolve_currency.
    monad_simpl. rewrite Hbase. auto.
  - intros Hbase. exists "currency".
    unfold balance, balance_total, balance_free, balance_locked, resolve_currency.
    monad_simpl. rewrite Hbase. auto.
  - intros query c Hres Hnone.
    unfold balance, balance_total, balance_free, balance_locked, resolve_currency.
    monad_simpl. rewrite Hres. monad_simpl. rewrite Hnone.
    repeat split; auto; discriminate.
Qed.

(** C9: a commission of amount zero leaves the account as it is; any other
    commission (negative ones too) is added to the running total of its
    currency, and the totals of all other currencies stay as they are. *)
Theorem update_commissions_spec (self : Account) (commission : Money) :
  (amount commission = 0 ->
     update_commissions commission self = (Ok tt, self))
  /\ (amount commission <> 0 ->
      exists self',
        update_commissions commission self = (Ok tt, self')
        /\ _commissions self' !! money_currency commission
           = Some (mkMoney
                     (commission_total self (money_currency commission)
                      + amount commission)
                     (money_currency commission))
        /\ (forall c, c <> money_currency commission ->
              _commissions self' !! c = _commissions self !! c)
        /\ _balances self' = _balances self
        /\ _events self' = _events self).
Proof.
  unfold update_commissions. split; intros Hz.
  - case_decide; [reflexivity|done].
  - case_decide; [done|]. monad_simpl. eexists. split; [reflexivity|].
    simpl. split; [|split].
    + rewrite lookup_insert_eq. reflexivity.
    + intros c Hc. rewrite lookup_insert_ne by congruence. reflexivity.
    + auto.
Qed.

(** The end-to-end scenario of the specification: after the update the
    queries report it, and the starting balance still reads 10_000.00. *)
Example usd_account_scenario :
  let self' := snd (apply usd_update usd_account) in
  fst (apply usd_update usd_account) = Ok tt
  /\ fst (balance_total None self') = Ok (Some (mkMoney 995000 "USD"))
  /\ fst (balance_free None self') = Ok (Some (mkMoney 990000 "USD"))
  /\ fst (balance_locked None self') = Ok (Some (mkMoney 5000 "USD"))
  /\ _starting_balances self' !! "USD" = Some (mkMoney 1000000 "USD")
  /\ event_count_c self' = 2%nat.
Proof. vm_compute. repeat split; reflexivity. Qed.

Lemma apply_last_write_wins_witness :
  _balances (snd (apply (mkAccountState "SIM-001" CASH None [btc 7 2 5])
                    multi_account)) !! "BTC" = Some (btc 7 2 5)
  /\ _balances (snd (apply (mkAccountState "SIM-001" CASH None [btc 7 2 5])
                       multi_account)) !! "USD"
     = _balances multi_account !! "USD".
Proof.
  pose proof (apply_last_write_wins multi_account
                (snd (apply (mkAccountState "SIM-001" CASH None [btc 7 2 5])
                        multi_account))
                (mkAccountState "SIM-001" CASH None [btc 7 2 5])
                ltac:(vm_compute; reflexivity)) as H.
  split.
  - apply (proj1 (proj2 (H "BTC")) (btc 7 2 5)).
    + simpl. apply list_elem_of_here.
    + reflexivity.
    + simpl. intros b' Hb' _. apply list_elem_of_singleton in Hb'. exact Hb'.
  - apply (proj2 (proj2 (H "USD"))). simpl.
    intros Hin. apply list_elem_of_singleton in Hin. discriminate.
Defined.

Lemma apply_rejects_atomically_witness :
  exists msg,
    apply (mkAccountState "SIM-999" CASH (Some "USD") [usd 1 0 1]) usd_account
    = (Raise (ValueError msg), usd_account).
Proof.
  apply apply_rejects_atomically. left. simpl. discriminate.
Defined.

Lemma balance_queries_resolve_currency_witness :
  balance_total None usd_account = balance_total (Some "USD") usd_account
  /\ balance_total (Some "EUR") usd_account = (Ok None, usd_account)
  /\ exists msg, balance None multi_account = (Raise (ValueError msg), multi_account).
Proof.
  split; [|split].
  - apply (proj1 (balance_queries_resolve_currency usd_account) "USD").
    reflexivity.
  - apply (proj2 (proj2 (balance_queries_resolve_currency usd_account))
             (Some "EUR") "EUR"); [reflexivity | vm_compute; reflexivity].
  - destruct (proj1 (proj2 (balance_queries_resolve_currency multi_account))
                eq_refl) as (msg & H & _).
    exists msg. exact H.
Defined.

Lemma update_commissions_spec_witness :
  update_commissions (mkMoney 0 "USD") usd_account = (Ok tt, usd_account)
  /\ exists self',
       update_commissions (mkMoney (-25) "USD") usd_account = (Ok tt, self')
       /\ _commissions self' !! "USD" = Some (mkMoney (-25) "USD").
Proof.
  split.
  - apply (proj1 (update_commissions_spec usd_account (mkMoney 0 "USD"))).
    reflexivity.
  - destruct (proj2 (update_commissions_spec usd_account (mkMoney (-25) "USD")))
      as (self' & H1 & H2 & _).
    + simpl. lia.
    + exists self'. split; [exact H1|exact H2].
Defined.

End AccountsFacts.

(** * Account: construction, runs of calls and the dictionary views *)
Module AccountRunsFacts.
Import Accounts AccountExamples.

(** The totals of the stored balances are what the comprehension over the
    same list collects. *)
Lemma store_balances_total (bs : list AccountBalance)
    (m : gmap Currency AccountBalance) :
  total <$> store_balances bs m
  = fold_left (fun m b => <[currency b := total b]> m) bs (total <$> m).
Proof.
  unfold store_balances. revert m.
  induction bs as [|b bs IH]; intros m; simpl; [reflexivity|].
  rewrite IH, fmap_insert. reflexivity.
Qed.

Lemma elem_of_currencies (self : Account) (c : Currency) :
  c ∈ currencies self <-> is_Some (_balances self !! c).
Proof.
  unfold currencies. rewrite list_elem_of_fmap. split.
  - intros ([c' b] & -> & Hin). apply elem_of_map_to_list in Hin.
    simpl. by eexists.
  - intros [b Hb]. exists (c, b). split; [reflexivity|].
    by apply elem_of_map_to_list.
Qed.

Lemma balance_total_lookup (self : Account) (c : Currency) :
  balance_total (Some c) self = (Ok (balances_total self !! c), self).
Proof.
  unfold balance_total, balances_total, resolve_currency. monad_simpl.
  rewrite lookup_fmap. destruct (_balances self !! c); reflexivity.
Qed.

(** X1: The constructor refuses an event without balances; from any other
    event it builds an account whose log holds that one event, which has no
    commissions, and whose balance totals are its starting balances. *)
Theorem init_spec (event : AccountState) (calculate : bool) :
  (balances event = [] ->
     exists msg self, init event calculate = (Raise (ValueError msg), self))
  /\ (balances event <> [] ->
      exists self,
        init event calculate = (Ok tt, self)
        /\ id self = account_id event
        /\ type self = account_type event
        /\ base_currency self = event_base_currency event
        /\ events_c self = [event]
        /\ last_event_c self = Some event
        /\ commissions self = ∅
        /\ balances_total self = starting_balances self
        /\ (forall c, balance_total (Some c) self
                      = (Ok (starting_balances self !! c), self))).
Proof.
  unfold init, update_balances. split; intros Hb.
  - rewrite Hb. monad_simpl. eauto.
  - destruct (balances event) as [|b bs] eqn:Heq; [done|]. monad_simpl.
    eexists. split; [reflexivity|].
    match goal with |- context [events_c ?s] => set (self := s) end.
    assert (Htot : balances_total self = starting_balances self).
    { unfold balances_total, starting_balances, self.
      cbn [_balances _starting_balances set_balances].
      rewrite store_balances_total, fmap_empty. reflexivity. }
    repeat split; try reflexivity; try exact Htot.
    intros c. rewrite balance_total_lookup, Htot. reflexivity.
Qed.

(** What one call can change: [apply] the log and the balances,
    [update_commissions] the commissions; the log only grows at its end. *)
Lemma run_call_frame (call : Call) (self : Account) :
  let self' := snd (run_call call self) in
  id self' = id self
  /\ type self' = type self
  /\ base_currency self' = base_currency self
  /\ calculate_account_state self' = calculate_account_state self
  /\ _starting_balances self' = _starting_balances self
  /\ (_events self' = _events self
      \/ exists event, call = Apply event
                       /\ _events self' = (_events self ++ [event])%list).
Proof.
  destruct call as [event|commission]; simpl.
  - unfold apply, update_balances. monad_simpl.
    case_decide; monad_simpl; [|by repeat split; auto].
    case_decide; monad_simpl; [|by repeat split; auto].
    destruct (base_currency self) as [base|] eqn:Hbase; monad_simpl.
    + case_bool_decide; monad_simpl; [|by rewrite ?Hbase; repeat split; auto].
      destruct (balances event) as [|b l]; monad_simpl;
        [by rewrite ?Hbase; repeat split; auto|].
      case_decide; monad_simpl; [|by rewrite ?Hbase; repeat split; auto].
      simpl. rewrite Hbase. repeat split; eauto.
    + destruct (balances event) as [|b l]; monad_simpl; simpl;
        rewrite ?Hbase; repeat split; eauto.
  - unfold update_commissions. case_decide; monad_simpl; simpl;
      repeat split; auto.
Qed.

Lemma run_calls_snoc (calls : list Call) (call : Call) (self : Account) :
  run_calls (calls ++ [call]) self
  = snd (run_call call (run_calls calls self)).
Proof. unfold run_calls. rewrite fold_left_app. reflexivity. Qed.

(** A failed [apply], inverted. *)
Lemma apply_Raise_inv (self self' : Account) (event : AccountState)
    (e : exn) :
  apply event self = (Raise e, self') ->
  self' = self
  \/ (balances event = [] /\ base_currency self = None
      /\ account_id event = id self /\ event_base_currency event = None
      /\ self' = set_events (fun events => (events ++ [event])%list) self).
Proof.
  unfold apply, update_balances. monad_simpl.
  case_decide as Hid; monad_simpl; [|intros [= _ <-]; by left].
  case_decide as Hbase; monad_simpl; [|intros [= _ <-]; by left].
  destruct (base_currency self) as [base|] eqn:Hb; monad_simpl.
  - case_bool_decide; monad_simpl; [|intros [= _ <-]; by left].
    destruct (balances event) as [|b l]; monad_simpl; [intros [= _ <-]; by left|].
    case_decide; monad_simpl; [discriminate|intros [= _ <-]; by left].
  - destruct (balances event) as [|b l]; monad_simpl; [|discriminate].
    intros [= _ <-]. right. repeat split; auto.
Qed.

(** X2: Whatever a failed [apply] leaves behind: the account as it was, or, for
    an event without balances applied to a multi-currency account, the
    account with that event appended to its log and nothing else changed.
    Either way the balances, the commissions and the starting balances are
    those from before the call. *)
Theorem apply_failure_footprint (self self' : Account) (event : AccountState)
    (e : exn) :
  apply event self = (Raise e, self') ->
  (self' = self
   \/ (balances event = [] /\ base_currency self = None
       /\ account_id event = id self /\ event_base_currency event = None
       /\ self' = set_events (fun events => (events ++ [event])%list) self))
  /\ _balances self' = _balances self
  /\ commissions self' = commissions self
  /\ starting_balances self' = starting_balances self.
Proof.
  intros Happly. pose proof (apply_Raise_inv _ _ _ _ Happly) as H.
  split; [exact H|].
  destruct H as [->|(_ & _ & _ & _ & ->)]; repeat split.
Qed.

Lemma run_calls_base_currency (calls : list Call) (self : Account) :
  base_currency (run_calls calls self) = base_currency self.
Proof.
  induction calls as [|call calls IH] using rev_ind; [reflexivity|].
  rewrite run_calls_snoc.
  destruct (run_call_frame call (run_calls calls self)) as (_ & _ & H & _).
  congruence.
Qed.

(** X3: Over any run of [apply] and [update_commissions] calls, failed ones
    included, the account keeps its identifier, type, base currency and
    starting balances, and its event log is only extended at the end. *)
Theorem run_calls_frame (calls : list Call) (self : Account) :
  id (run_calls calls self) = id self
  /\ type (run_calls calls self) = type self
  /\ base_currency (run_calls calls self) = base_currency self
  /\ calculate_account_state (run_calls calls self)
     = calculate_account_state self
  /\ starting_balances (run_calls calls self) = starting_balances self
  /\ events_c self `prefix_of` events_c (run_calls calls self).
Proof.
  induction calls as [|call calls IH] using rev_ind.
  - repeat split; reflexivity.
  - rewrite run_calls_snoc.
    destruct IH as (H1 & H2 & H3 & H4 & H5 & H6).
    destruct (run_call_frame call (run_calls calls self))
      as (G1 & G2 & G3 & G4 & G5 & G6).
    unfold starting_balances, events_c in *.
    repeat split; try congruence.
    destruct G6 as [->|(event & _ & ->)]; [exact H6|].
    by apply prefix_app_r.
Qed.

(** X4: The comment of [last_event_c], "always at least one event": a
    constructed account has a last event after any run of calls, and the
    first event of its log stays the event it was constructed from. *)
Theorem always_at_least_one_event (event : AccountState) (calculate : bool)
    (self : Account) (calls : list Call) :
  init event calculate = (Ok tt, self) ->
  is_Some (last_event_c (run_calls calls self))
  /\ head (events_c (run_calls calls self)) = Some event
  /\ (1 <= event_count_c (run_calls calls self))%nat.
Proof.
  intros Hinit.
  assert (Hev : _events self = [event]).
  { unfold init, update_balances in Hinit. revert Hinit. monad_simpl.
    destruct (balances event); monad_simpl; [discriminate|].
    intros [= <-]. reflexivity. }
  assert (Hrun : exists rest, _events (run_calls calls self) = event :: rest).
  { induction calls as [|call calls IH] using rev_ind.
    - exists []. exact Hev.
    - rewrite run_calls_snoc. destruct IH as (rest & IH).
      destruct (run_call_frame call (run_calls calls self))
        as (_ & _ & _ & _ & _ & [->|(ev & _ & ->)]).
      + eauto.
      + rewrite IH. exists (rest ++ [ev])%list. reflexivity. }
  destruct Hrun as (rest & Hrun).
  unfold last_event_c, events_c, event_count_c. rewrite Hrun.
  repeat split.
  - destruct rest as [|x rest] using rev_ind; [by eexists|].
    change (event :: rest ++ [x])%list with ((event :: rest) ++ [x])%list.
    rewrite last_snoc. by eexists.
  - simpl. lia.
Qed.

(** X5: A single-currency account whose balances hold its base currency alone
    holds that currency alone after any run of calls. *)
Theorem single_currency_account_keeps_one_currency (self : Account)
    (base : Currency) (calls : list Call) :
  base_currency self = Some base ->
  dom (_balances self) = {[ base ]} ->
  dom (_balances (run_calls calls self)) = {[ base ]}
  /\ forall c, c ∈ currencies (run_calls calls self) <-> c = base.
Proof.
  intros Hbase Hdom.
  assert (Hrun : dom (_balances (run_calls calls self)) = {[ base ]}).
  { induction calls as [|call calls IH] using rev_ind; [exact Hdom|].
    rewrite run_calls_snoc.
    pose proof (run_calls_base_currency calls self) as Hb.
    rewrite Hbase in Hb. revert IH Hb.
    generalize (run_calls calls self). intros mid IH Hb.
    destruct call as [event|commission]; simpl.
    - destruct (apply event mid) as [[[]|e] mid'] eqn:Happly.
      + pose proof Happly as Hinv.
        apply AccountsFacts.apply_Ok_inv in Hinv. subst mid'. simpl.
        revert Happly. unfold apply, update_balances. monad_simpl.
        case_decide; monad_simpl; [|discriminate].
        case_decide; monad_simpl; [|discriminate].
        rewrite Hb. monad_simpl.
        case_bool_decide as Hlen; monad_simpl; [|discriminate].
        destruct (balances event) as [|b [|b' l]]; simpl in Hlen;
          try discriminate.
        monad_simpl. case_decide as Hc; monad_simpl; [|discriminate].
        intros _. unfold store_balances. simpl.
        rewrite dom_insert_L, IH, Hc. apply (idemp_L (∪)).
      + apply apply_Raise_inv in Happly
          as [->|(_ & Hnone & _)]; simpl; [exact IH|congruence].
    - unfold update_commissions. case_decide; monad_simpl; exact IH. }
  split; [exact Hrun|].
  intros c. rewrite elem_of_currencies, <- elem_of_dom.
  rewrite Hrun. apply elem_of_singleton.
Qed.

(** The dictionary views and the per-currency queries agree: under every
    currency the three views hold what the matching query answers, nothing
    when the query answers [None], and [currencies] lists exactly the
    currencies that have an entry. *)
Lemma balance_views_agree (self : Account) (c : Currency) :
  balance_total (Some c) self = (Ok (balances_total self !! c), self)
  /\ balance_free (Some c) self = (Ok (balances_free self !! c), self)
  /\ balance_locked (Some c) self = (Ok (balances_locked self !! c), self)
  /\ (c ∈ currencies self <-> balance (Some c) self <> (Ok None, self))
  /\ (c ∈ currencies self <-> is_Some (balances_total self !! c)).
Proof.
  split; [apply balance_total_lookup|].
  unfold balance, balance_free, balance_locked, balances_total, balances_free,
    balances_locked, resolve_currency.
  monad_simpl. rewrite !lookup_fmap, elem_of_currencies.
  destruct (_balances self !! c) as [b|]; simpl; repeat split;
    try reflexivity; try (intros _; by eexists); try discriminate;
    try (by intros []); try (intros H; by destruct H).
Qed.

(** One [update_commissions] adds the amount to the total of its currency. *)
Lemma update_commissions_total (m : Money) (self : Account) (c : Currency) :
  commission_total (snd (update_commissions m self)) c
  = commission_total self c
    + (if decide (money_currency m = c) then amount m else 0).
Proof.
  unfold update_commissions, commission_total, commission.
  case_decide as Hz; monad_simpl; simpl.
  - case_decide; lia.
  - case_decide as Hc.
    + subst c. rewrite lookup_insert_eq. simpl.
      destruct (_commissions self !! money_currency m); reflexivity.
    + rewrite lookup_insert_ne by exact Hc. lia.
Qed.

Lemma apply_commissions (event : AccountState) (self : Account) :
  _commissions (snd (apply event self)) = _commissions self.
Proof.
  destruct (apply event self) as [[[]|e] self'] eqn:Happly; simpl.
  - apply AccountsFacts.apply_Ok_inv in Happly. by subst self'.
  - apply apply_Raise_inv in Happly as [->|(_ & _ & _ & _ & ->)];
      reflexivity.
Qed.

(** X6: Over any run of calls the commission total of a currency is what it
    was plus the amounts, credits included, of the commissions of that
    currency the run passed to [update_commissions]; [apply] never touches
    it. *)
Theorem commissions_accumulate (calls : list Call) (self : Account)
    (c : Currency) :
  commission_total (run_calls calls self) c
  = commission_total self c + commission_sum c (commissions_of calls).
Proof.
  revert self. induction calls as [|call calls IH]; intros self.
  - simpl. lia.
  - change (run_calls (call :: calls) self)
      with (run_calls calls (snd (run_call call self))).
    rewrite IH. destruct call as [event|m]; simpl.
    + unfold commission_total, commission. rewrite apply_commissions.
      reflexivity.
    + fold (commissions_of calls).
      rewrite update_commissions_total. case_decide; lia.
Qed.

(** X7: A commission entry is created by the first commission of its currency
    with an amount other than zero, and is never removed afterwards: after
    a run of calls a currency has no entry exactly when it had none before
    and every commission of that currency in the run had amount zero. An
    entry whose total has come back to zero stays, as a [Money] of amount
    zero. *)
Theorem commission_entries (calls : list Call) (self : Account)
    (c : Currency) :
  commission (run_calls calls self) c = None
  <-> commission self c = None
      /\ Forall (fun m => money_currency m = c -> amount m = 0)
           (commissions_of calls).
Proof.
  revert self. induction calls as [|call calls IH]; intros self.
  - simpl. split; [intros H; split; [exact H|constructor]|tauto].
  - change (run_calls (call :: calls) self)
      with (run_calls calls (snd (run_call call self))).
    rewrite IH. destruct call as [event|m]; simpl.
    + unfold commission. rewrite apply_commissions. reflexivity.
    + fold (commissions_of calls). rewrite Forall_cons.
      unfold update_commissions, commission.
      case_decide as Hz; monad_simpl; simpl.
      * tauto.
      * destruct (decide (money_currency m = c)) as [Hc|Hc].
        -- subst c. rewrite lookup_insert_eq. split; [intros [[=] _]|].
           intros (_ & Hm & _). exfalso. auto.
        -- rewrite lookup_insert_ne by exact Hc. tauto.
Qed.

(** Every commission entry is a [Money] of the currency it is kept under,
    and runs of calls keep it so. *)
Lemma commission_entries_tagged (calls : list Call) (self : Account) :
  (forall c m, commission self c = Some m -> money_currency m = c) ->
  forall c m, commission (run_calls calls self) c = Some m ->
              money_currency m = c.
Proof.
  intros Htag c m. revert self Htag.
  induction calls as [|call calls IH]; intros self Htag.
  - apply Htag.
  - change (run_calls (call :: calls) self)
      with (run_calls calls (snd (run_call call self))).
    apply IH. intros c' m'. destruct call as [event|m0]; simpl.
    + unfold commission. rewrite apply_commissions. apply Htag.
    + unfold update_commissions, commission.
      case_decide as Hz; monad_simpl; simpl; [apply Htag|].
      destruct (decide (money_currency m0 = c')) as [Hc|Hc].
      * subst c'. rewrite lookup_insert_eq. by intros [= <-].
      * rewrite lookup_insert_ne by exact Hc. apply Htag.
Qed.

(** *** Instances *)

Lemma init_spec_witness :
  (exists msg self,
     init (mkAccountState "SIM-001" CASH None []) false
     = (Raise (ValueError msg), self))
  /\ exists self,
       init (mkAccountState "SIM-001" CASH None [usd 5 0 5; usd 7 0 7]) false
       = (Ok tt, self)
       /\ starting_balances self !! "USD" = Some (mkMoney 7 "USD")
       /\ balance_total (Some "USD") self = (Ok (Some (mkMoney 7 "USD")), self).
Proof.
  split.
  - apply (proj1 (init_spec (mkAccountState "SIM-001" CASH None []) false)).
    reflexivity.
  - destruct (proj2 (init_spec (mkAccountState "SIM-001" CASH None
                                  [usd 5 0 5; usd 7 0 7]) false))
      as (self & Hinit & _ & _ & _ & _ & _ & _ & _ & Hq); [discriminate|].
    exists self. split; [exact Hinit|].
    assert (Hs : starting_balances self !! "USD" = Some (mkMoney 7 "USD")).
    { injection Hinit as <-. vm_compute. reflexivity. }
    split; [exact Hs|]. rewrite Hq.
    exact (f_equal (fun x => (Ok x, self)) Hs).
Defined.

Lemma apply_failure_footprint_witness :
  _balances (snd (apply (mkAccountState "SIM-001" CASH None []) multi_account))
  = _balances multi_account.
Proof.
  apply (proj1 (proj2 (apply_failure_footprint multi_account
                         (snd (apply (mkAccountState "SIM-001" CASH None [])
                                 multi_account))
                         (mkAccountState "SIM-001" CASH None [])
                         (ValueError "balances")
                         ltac:(vm_compute; reflexivity)))).
Defined.

Lemma always_at_least_one_event_witness :
  is_Some (last_event_c
             (run_calls [Apply (mkAccountState "SIM-001" CASH None []);
                         UpdateCommissions (mkMoney 3 "USD")] multi_account)).
Proof.
  apply (always_at_least_one_event
           (mkAccountState "SIM-001" CASH None
              [usd 1000000 0 1000000; btc 10 0 10]) false multi_account).
  vm_compute. reflexivity.
Defined.

Lemma single_currency_account_keeps_one_currency_witness :
  dom (_balances (run_calls [Apply usd_update;
                             Apply (mkAccountState "SIM-000" CASH (Some "USD")
                                      [btc 1 0 1])] usd_account))
  = {[ "USD" ]}.
Proof.
  apply (single_currency_account_keeps_one_currency usd_account "USD").
  - reflexivity.
  - vm_compute. reflexivity.
Defined.

Lemma commission_entries_witness :
  commission (run_calls [UpdateCommissions (mkMoney 0 "USD");
                         UpdateCommissions (mkMoney 4 "BTC")] usd_account) "USD"
  = None.
Proof.
  apply (proj2 (commission_entries _ usd_account "USD")).
  split; [reflexivity|]. simpl.
  repeat constructor; simpl; intros; (reflexivity || discriminate).
Defined.

End AccountRunsFacts.

(** * Messages: the category parser and message equality *)
Module MessagesFacts.
Import Messages MessageExamples.

(** X8: [to_str] answers for the values 1 to 5 and raises [ValueError] for
    every other value; the names it answers are exactly the names
    [from_str] accepts, distinct values have distinct names and distinct
    names distinct categories. *)
Theorem parser_names_agree :
  (forall value, is_Ok (to_str value) = bool_decide (1 <= value <= 5))
  /\ (forall value, ~ 1 <= value <= 5 ->
        exists msg, to_str value = Raise (ValueError msg))
  /\ (forall name, is_Ok (from_str name) = true
                   <-> exists value, to_str value = Ok name)
  /\ (forall name, is_Ok (from_str name) = false ->
        exists msg, from_str name = Raise (ValueError msg))
  /\ (forall v1 v2 name, to_str v1 = Ok name -> to_str v2 = Ok name -> v1 = v2)
  /\ (forall n1 n2 c, from_str n1 = Ok c -> from_str n2 = Ok c -> n1 = n2)
  /\ (forall c, exists name, from_str name = Ok c).
Proof.
  split; [|split; [|split; [|split; [|split; [|split]]]]].
  - intros value. unfold to_str.
    repeat (case_decide; [subst; reflexivity|]).
    simpl. symmetry. apply bool_decide_eq_false. lia.
  - intros value Hv. unfold to_str.
    repeat (case_decide; [lia|]). eauto.
  - intros name. split.
    + unfold from_str.
      repeat (case_decide; [subst; intros _; first
        [ by exists 1 | by exists 2 | by exists 3 | by exists 4
        | by exists 5 ]|]).
      discriminate.
    + intros (value & H). revert H. unfold to_str.
      repeat (case_decide; [intros [= <-]; reflexivity|]). discriminate.
  - intros name. unfold from_str.
    repeat (case_decide; [discriminate|]). eauto.
  - intros v1 v2 name. unfold to_str.
    repeat (case_decide; [subst v1|]); try discriminate;
      intros [= <-]; repeat (case_decide; [subst v2|]);
      (reflexivity || discriminate).
  - intros n1 n2 c. unfold from_str.
    repeat (case_decide; [subst n1|]); try discriminate;
      intros [= <-]; repeat (case_decide; [subst n2|]);
      (reflexivity || discriminate).
  - intros c. destruct c;
      [ exists "COMMAND" | exists "DOCUMENT" | exists "EVENT"
      | exists "REQUEST" | exists "RESPONSE" ]; reflexivity.
Qed.

Section Numbering.

(** The integer value of a member of the enum, which core/message.pxd
    declares. *)
Variable value_of : MessageCategory -> Z.

Hypothesis numbering :
  value_of COMMAND = 1 /\ value_of DOCUMENT = 2 /\ value_of EVENT = 3
  /\ value_of REQUEST = 4 /\ value_of RESPONSE = 5.

(** X9: When the enum numbers its members 1 to 5, as [to_str] reads them, the
    two parsers are inverse to each other: a category printed and parsed
    again is itself, and a name parsed and printed again is itself. *)
Theorem parser_round_trip :
  (forall c, exists name,
      to_str (value_of c) = Ok name /\ from_str name = Ok c)
  /\ (forall name c, from_str name = Ok c -> to_str (value_of c) = Ok name)
  /\ (forall value name, to_str value = Ok name ->
        exists c, from_str name = Ok c /\ value_of c = value).
Proof using numbering.
  destruct numbering as (H1 & H2 & H3 & H4 & H5).
  split; [|split].
  - intros []; rewrite ?H1, ?H2, ?H3, ?H4, ?H5; eexists;
      (split; [reflexivity|reflexivity]).
  - intros name c. unfold from_str.
    repeat (case_decide;
            [intros [= <-]; subst;
             rewrite ?H1, ?H2, ?H3, ?H4, ?H5; reflexivity|]).
    discriminate.
  - intros value name. unfold to_str.
    repeat (case_decide;
            [intros [= <-]; subst; eexists; (split; [reflexivity|]);
             by rewrite ?H1, ?H2, ?H3, ?H4, ?H5|]).
    discriminate.
Qed.

End Numbering.


Lemma parser_names_agree_witness :
  (exists msg, to_str 0 = Raise (ValueError msg))
  /\ is_Ok (from_str "EVENT") = true.
Proof.
  split.
  - apply (proj1 (proj2 parser_names_agree)). lia.
  - apply (proj1 (proj2 (proj2 parser_names_agree))). by exists 3.
Defined.

Lemma parser_round_trip_witness :
  to_str (value_of REQUEST) = Ok "REQUEST".
Proof.
  apply (proj1 (proj2 (parser_round_trip value_of
                         ltac:(repeat split; reflexivity)))).
  reflexivity.
Defined.


End MessagesFacts.

(** * CryptoSwap: the dictionary form *)
Module InstrumentsFacts.
Import Instruments InstrumentExamples.

Section Components.
Context {InstrumentId Currency Price Quantity Money Decimal Info : Type}.
Context `{EqDecision Currency}.
Variable id_value : InstrumentId -> string.
Variable InstrumentId_from_str_c : option string -> outcome InstrumentId.
Variable code : Currency -> string.
Variable Currency_from_str_c : option string -> outcome Currency.
Variable Price_str : Price -> string.
Variable Price_from_str_c : option string -> outcome Price.
Variable Quantity_str : Quantity -> string.
Variable Quantity_from_str_c : option string -> outcome Quantity.
Variable Quantity_from_int_c : Z -> Quantity.
Variable Money_to_str : Money -> string.
Variable Money_from_str_c : option string -> outcome Money.
Variable Decimal_str : Decimal -> string.
Variable Decimal_new : Value -> outcome Decimal.
Variable orjson_dumps : Info -> string.
Variable orjson_loads : string -> outcome Info.
Variable Instrument_checks :
  CryptoSwap (InstrumentId:=InstrumentId) (Currency:=Currency)
    (Price:=Price) (Quantity:=Quantity) (Money:=Money) (Decimal:=Decimal)
    (Info:=Info) -> option error.

Local Abbreviation to_dict_c' :=
  (to_dict_c id_value code Price_str Quantity_str Money_to_str Decimal_str
     orjson_dumps).
Local Abbreviation from_dict_c' :=
  (from_dict_c InstrumentId_from_str_c Currency_from_str_c Price_from_str_c
     Quantity_from_str_c Quantity_from_int_c Money_from_str_c Decimal_new
     orjson_loads Instrument_checks).
Local Abbreviation to_dict' :=
  (to_dict id_value code Price_str Quantity_str Money_to_str Decimal_str
     orjson_dumps).
Local Abbreviation from_dict' :=
  (from_dict InstrumentId_from_str_c Currency_from_str_c Price_from_str_c
     Quantity_from_str_c Quantity_from_int_c Money_from_str_c Decimal_new
     orjson_loads Instrument_checks).
Local Abbreviation round_trip :=
  (codecs_round_trip id_value InstrumentId_from_str_c code
     Currency_from_str_c Price_str Price_from_str_c Quantity_str
     Quantity_from_str_c Money_to_str Money_from_str_c Decimal_str
     Decimal_new orjson_dumps orjson_loads).
Local Abbreviation constructed' :=
  (constructed Quantity_from_int_c Instrument_checks).

(** What [to_dict_c] puts under each of its keys. *)
Lemma to_dict_c_lookup (obj : CryptoSwap) :
  to_dict_c' obj !! "type" = Some (VStr "CryptoSwap")
  /\ to_dict_c' obj !! "id" = Some (VStr (id_value (id obj)))
  /\ to_dict_c' obj !! "base_currency" = Some (VStr (code (base_currency obj)))
  /\ to_dict_c' obj !! "quote_currency" = Some (VStr (code (quote_currency obj)))
  /\ to_dict_c' obj !! "settlement_currency" = Some (VStr (code (settlement_currency obj)))
  /\ to_dict_c' obj !! "is_inverse" = Some (VBool (is_inverse obj))
  /\ to_dict_c' obj !! "price_precision" = Some (VInt (price_precision obj))
  /\ to_dict_c' obj !! "price_increment" = Some (VStr (Price_str (price_increment obj)))
  /\ to_dict_c' obj !! "size_precision" = Some (VInt (size_precision obj))
  /\ to_dict_c' obj !! "size_increment" = Some (VStr (Quantity_str (size_increment obj)))
  /\ to_dict_c' obj !! "max_quantity" = Some (str_or_none Quantity_str (max_quantity obj))
  /\ to_dict_c' obj !! "min_quantity" = Some (str_or_none Quantity_str (min_quantity obj))
  /\ to_dict_c' obj !! "max_notional" = Some (str_or_none Money_to_str (max_notional obj))
  /\ to_dict_c' obj !! "min_notional" = Some (str_or_none Money_to_str (min_notional obj))
  /\ to_dict_c' obj !! "max_price" = Some (str_or_none Price_str (max_price obj))
  /\ to_dict_c' obj !! "min_price" = Some (str_or_none Price_str (min_price obj))
  /\ to_dict_c' obj !! "margin_init" = Some (VStr (Decimal_str (margin_init obj)))
  /\ to_dict_c' obj !! "margin_maint" = Some (VStr (Decimal_str (margin_maint obj)))
  /\ to_dict_c' obj !! "maker_fee" = Some (VStr (Decimal_str (maker_fee obj)))
  /\ to_dict_c' obj !! "taker_fee" = Some (VStr (Decimal_str (taker_fee obj)))
  /\ to_dict_c' obj !! "ts_event" = Some (VInt (ts_event obj))
  /\ to_dict_c' obj !! "ts_init" = Some (VInt (ts_init obj))
  /\ to_dict_c' obj !! "info" = Some (match info obj with Some i => VBytes (orjson_dumps i) | None => VNone end).
Proof. repeat split. Qed.

Lemma item_lookup (values : gmap string Value) (key : string) (v : Value) :
  values !! key = Some v -> item values key = Done v.
Proof. unfold item. by intros ->. Qed.

Lemma as_str_or_none {A} (print : A -> string) (x : option A) :
  as_str (str_or_none print x) = Done (print <$> x).
Proof. by destruct x. Qed.

Lemma if_not_none_round_trip {A} (print : A -> string)
    (parse : option string -> outcome A) (x : option A) :
  (forall a, parse (Some (print a)) = Done a) ->
  if_not_none (print <$> x) (fun s => parse (Some s)) = Done x.
Proof. intros Hparse. destruct x as [a|]; simpl; [|done]. by rewrite Hparse. Qed.

Lemma as_bytes_info (x : option Info) :
  as_bytes match x with Some i => VBytes (orjson_dumps i) | None => VNone end
  = Done (orjson_dumps <$> x).
Proof. by destruct x. Qed.

Lemma if_not_none_loads (x : option Info) :
  (forall i, orjson_loads (orjson_dumps i) = Done i) ->
  if_not_none (orjson_dumps <$> x) orjson_loads = Done x.
Proof. intros Hjson. destruct x as [i|]; simpl; [|done]. by rewrite Hjson. Qed.

Ltac outcome_step := cbn [mbind outcome_bind and_then mret outcome_ret].

(** X11: Round trip: when each component parses back what it prints, an
    instrument the constructor accepts is read back from its dictionary
    form as itself. *)
Theorem to_dict_from_dict_round_trip (obj : CryptoSwap) :
  round_trip -> constructed' obj -> from_dict' (to_dict' obj) = Done obj.
Proof.
  intros (Hid & Hcur & Hprice & Hqty & Hmoney & Hdec & Hjson)
    (Hpp & Hsp & Hte & Hti & Hobj).
  destruct (to_dict_c_lookup obj)
    as (_ & Lid & Lbase & Lquote & Lsettle & Linv & Lpp & Lpi & Lsp & Lsi
        & Lmaxq & Lminq & Lmaxn & Lminn & Lmaxp & Lminp & Lmi & Lmm & Lmf
        & Ltf & Lte & Lti & Linfo).
  unfold from_dict, to_dict, from_dict_c.
  repeat first
    [ progress outcome_step
    | progress cbn [as_str as_int as_bint]
    | rewrite (decide_True _ _ Hpp) | rewrite (decide_True _ _ Hsp)
    | rewrite (decide_True _ _ Hte) | rewrite (decide_True _ _ Hti)
    | rewrite (item_lookup _ _ _ Lid) | rewrite (item_lookup _ _ _ Lbase)
    | rewrite (item_lookup _ _ _ Lquote) | rewrite (item_lookup _ _ _ Lsettle)
    | rewrite (item_lookup _ _ _ Linv) | rewrite (item_lookup _ _ _ Lpp)
    | rewrite (item_lookup _ _ _ Lpi) | rewrite (item_lookup _ _ _ Lsp)
    | rewrite (item_lookup _ _ _ Lsi) | rewrite (item_lookup _ _ _ Lmaxq)
    | rewrite (item_lookup _ _ _ Lminq) | rewrite (item_lookup _ _ _ Lmaxn)
    | rewrite (item_lookup _ _ _ Lminn) | rewrite (item_lookup _ _ _ Lmaxp)
    | rewrite (item_lookup _ _ _ Lminp) | rewrite (item_lookup _ _ _ Lmi)
    | rewrite (item_lookup _ _ _ Lmm) | rewrite (item_lookup _ _ _ Lmf)
    | rewrite (item_lookup _ _ _ Ltf) | rewrite (item_lookup _ _ _ Lte)
    | rewrite (item_lookup _ _ _ Lti) | rewrite (item_lookup _ _ _ Linfo)
    | rewrite as_str_or_none | rewrite as_bytes_info
    | rewrite Hid | rewrite Hcur | rewrite Hprice | rewrite Hqty
    | rewrite Hdec
    | rewrite (if_not_none_round_trip Quantity_str Quantity_from_str_c) by exact Hqty
    | rewrite (if_not_none_round_trip Money_to_str Money_from_str_c) by exact Hmoney
    | rewrite (if_not_none_round_trip Price_str Price_from_str_c) by exact Hprice
    | rewrite (if_not_none_loads _ Hjson) ].
  exact Hobj.
Qed.

Lemma item_missing (values : gmap string Value) (key : string) :
  values !! key = None -> item values key = Fail (KeyError key).
Proof. unfold item. by intros ->. Qed.

Lemma fails_later {A B} (c : outcome A) (k : A -> outcome B) :
  (forall a, exists e, k a = Fail e) -> exists e, (c ≫= k) = Fail e.
Proof. intros Hk. destruct c as [a|e]; [apply Hk|by exists e]. Qed.

Lemma bind_ext {A B} (c c' : outcome A) (k k' : A -> outcome B) :
  c = c' -> (forall a, k a = k' a) -> (c ≫= k) = (c' ≫= k').
Proof. intros -> Hk. destruct c' as [a|e]; [apply Hk|reflexivity]. Qed.

Lemma from_dict_needs_every_key (values : gmap string Value)
    (key : string) :
  key ∈ keys ∖ {["type"]} ->
  values !! key = None ->
  exists e, from_dict' values = Fail e.
Proof.
  intros Hkey Hnone.
  assert (Hcases : key ∈ ["id"; "base_currency"; "quote_currency";
            "settlement_currency"; "is_inverse"; "price_precision";
            "price_increment"; "size_precision"; "size_increment";
            "max_quantity"; "min_quantity"; "max_notional"; "min_notional";
            "max_price"; "min_price"; "margin_init"; "margin_maint";
            "maker_fee"; "taker_fee"; "ts_event"; "ts_init"; "info"]).
  { apply elem_of_difference in Hkey as [Hin Hn].
    unfold keys in Hin. apply elem_of_list_to_set in Hin.
    apply elem_of_cons in Hin as [->|Hin]; [|exact Hin].
    exfalso. apply Hn. by apply elem_of_singleton. }
  clear Hkey. unfold from_dict, from_dict_c.
  repeat (apply elem_of_cons in Hcases as [->|Hcases];
          [repeat first
             [ rewrite (item_missing _ _ Hnone); outcome_step; by eexists
             | apply fails_later; intros ? ]|]).
  by apply elem_of_nil in Hcases.
Qed.

(** X12: [from_dict] reads the twenty-two keys other than ["type"], and
    nothing else: it fails when one of them is missing, and two
    dictionaries that agree on them give the same result, so that the
    ["type"] discriminator is not looked at. *)
Theorem from_dict_reads_its_keys (values : gmap string Value) :
  (forall key, key ∈ keys ∖ {["type"]} -> values !! key = None ->
     exists e, from_dict' values = Fail e)
  /\ (forall values' : gmap string Value,
        (forall key, key ∈ keys ∖ {["type"]} ->
           values' !! key = values !! key) ->
        from_dict' values' = from_dict' values).
Proof.
  split.
  - apply from_dict_needs_every_key.
  - intros values' Hagree. unfold from_dict, from_dict_c.
    assert (Hitem : forall key, key ∈ keys ∖ {["type"]} ->
              item values' key = item values key).
    { intros key Hkey. unfold item. by rewrite Hagree. }
    repeat first
      [ reflexivity
      | apply bind_ext; [|intros ?]
      | apply Hitem; apply elem_of_difference; split;
        [ unfold keys; apply elem_of_list_to_set;
          repeat first [ apply list_elem_of_here | apply list_elem_of_further ]
        | rewrite elem_of_singleton; discriminate ] ].
Qed.

(** X13: The dictionary form of every instrument has the same twenty-three
    keys, with the discriminator ["type"] set to ["CryptoSwap"]; a field
    that is [None] is kept, as an explicit [None], not left out. *)
Theorem to_dict_shape (obj : CryptoSwap) :
  dom (to_dict' obj) = keys
  /\ to_dict' obj !! "type" = Some (VStr "CryptoSwap")
  /\ (to_dict' obj !! "max_quantity" = Some VNone <-> max_quantity obj = None)
  /\ (to_dict' obj !! "min_quantity" = Some VNone <-> min_quantity obj = None)
  /\ (to_dict' obj !! "max_notional" = Some VNone <-> max_notional obj = None)
  /\ (to_dict' obj !! "min_notional" = Some VNone <-> min_notional obj = None)
  /\ (to_dict' obj !! "max_price" = Some VNone <-> max_price obj = None)
  /\ (to_dict' obj !! "min_price" = Some VNone <-> min_price obj = None)
  /\ (to_dict' obj !! "info" = Some VNone <-> info obj = None).
Proof.
  unfold to_dict.
  destruct (to_dict_c_lookup obj)
    as (Ltype & Lid & Lbase & Lquote & Lsettle & Linv & Lpp & Lpi & Lsp & Lsi
        & Lmaxq & Lminq & Lmaxn & Lminn & Lmaxp & Lminp & Lmi & Lmm & Lmf
        & Ltf & Lte & Lti & Linfo).
  split.
  { unfold to_dict_c. rewrite !dom_insert_L, dom_empty_L. unfold keys.
    simpl. set_solver. }
  split; [exact Ltype|].
  rewrite Lmaxq, Lminq, Lmaxn, Lminn, Lmaxp, Lminp, Linfo.
  repeat split; try (intros ->; reflexivity);
    try (destruct (max_quantity obj); simpl; congruence);
    try (destruct (min_quantity obj); simpl; congruence);
    try (destruct (max_notional obj); simpl; congruence);
    try (destruct (min_notional obj); simpl; congruence);
    try (destruct (max_price obj); simpl; congruence);
    try (destruct (min_price obj); simpl; congruence);
    try (destruct (info obj); simpl; congruence).
Qed.
End Components.

(** *** Instances *)

Lemma to_dict_from_dict_round_trip_witness :
  from_dict parse parse parse parse (fun n => "1") parse parse_value parse_bytes
    (fun _ => None)
    (to_dict print print print print print print print btc_perpetual)
  = Done btc_perpetual.
Proof.
  apply (to_dict_from_dict_round_trip print parse print parse print parse
           print parse (fun n => "1") print parse print parse_value print
           parse_bytes (fun _ => None) btc_perpetual).
  - repeat split.
  - repeat split; vm_compute; congruence.
Defined.

Lemma from_dict_reads_its_keys_witness :
  exists e,
    from_dict parse parse parse parse (fun n => "1") parse parse_value
      parse_bytes (fun _ => None)
      (delete "info"
         (to_dict print print print print print print print btc_perpetual))
    = Fail e.
Proof.
  apply (proj1 (from_dict_reads_its_keys parse parse parse parse
                  (fun n => "1") parse parse_value parse_bytes
                  (fun _ => None) _) "info").
  - vm_compute. reflexivity.
  - apply lookup_delete_eq.
Defined.

Lemma to_dict_shape_witness :
  to_dict print print print print print print print btc_perpetual
    !! "max_price" = Some VNone.
Proof.
  apply (proj1 (proj2 (proj2 (proj2 (proj2 (proj2 (proj2
           (to_dict_shape print print print print print print print
              btc_perpetual)))))))).
  reflexivity.
Defined.

End InstrumentsFacts.

(** * Properties of TradingStrategy *)
Module StrategyFacts.
Import Strategy StrategyExamples.

(** *** The primitives *)

Lemma for_each_emit {A} (f : A -> Effect) (xs : list A) (sys : Sys) :
  for_each xs (fun x => emit (f x)) sys
  = (Ok tt, mkSys (self sys) (trace sys ++ map f xs)).
Proof.
  revert sys. induction xs as [|x xs IH]; intros [s tr]; simpl.
  - unfold ret. by rewrite app_nil_r.
  - unfold bind, emit, modify. simpl. rewrite IH. simpl.
    by rewrite <- app_assoc.
Qed.

Lemma hooks_called_app (tr1 tr2 : list Effect) :
  hooks_called (tr1 ++ tr2) = hooks_called tr1 ++ hooks_called tr2.
Proof. apply omap_app. Qed.

Lemma indicator_updates_app (tr1 tr2 : list Effect) :
  indicator_updates (tr1 ++ tr2) = indicator_updates tr1 ++ indicator_updates tr2.
Proof. apply omap_app. Qed.

Lemma commands_app (tr1 tr2 : list Effect) :
  commands (tr1 ++ tr2) = commands tr1 ++ commands tr2.
Proof. apply omap_app. Qed.

Lemma orders_for_app p (tr1 tr2 : list Effect) :
  orders_for p (tr1 ++ tr2) = orders_for p tr1 ++ orders_for p tr2.
Proof. unfold orders_for. by rewrite commands_app, omap_app. Qed.

Lemma flatten_requests_app (tr1 tr2 : list Effect) :
  flatten_requests (tr1 ++ tr2) = flatten_requests tr1 ++ flatten_requests tr2.
Proof. unfold flatten_requests. by rewrite commands_app, omap_app. Qed.

Lemma commands_snoc (tr : list Effect) (e : Effect) :
  commands (tr ++ [e])
  = commands tr ++ match e with ExecuteCommand c => [c] | _ => [] end.
Proof. rewrite commands_app. f_equal. by destruct e. Qed.

Lemma orders_for_snoc p (tr : list Effect) (e : Effect) :
  orders_for p (tr ++ [e])
  = orders_for p tr
    ++ match e with
       | ExecuteCommand (SubmitOrder _ _ _ q order) =>
           if decide (q = p) then [order] else []
       | _ => []
       end.
Proof.
  rewrite orders_for_app. f_equal. destruct e as [| | | | | | |[]|]; try done.
  unfold orders_for. simpl. by case_decide.
Qed.

Lemma preserves_this I : preserves I this.
Proof. by intros sys H. Qed.

(** After [s ← this], [s] is a strategy on which the invariant held. *)
Lemma preserves_bind_this {B} (I : Sys -> Prop) (k : TradingStrategy -> M Sys B) :
  (forall s, (exists tr, I (mkSys s tr)) -> preserves I (k s)) ->
  preserves I (this ≫= k).
Proof.
  intros Hk [s tr] HI. unfold mbind, M_bind, bind, this. simpl.
  apply (Hk s); eauto.
Qed.

Lemma preserves_update I (f : TradingStrategy -> TradingStrategy) :
  (forall sys, I sys -> I (mkSys (f (self sys)) (trace sys))) ->
  preserves I (update f).
Proof. intros H. by apply preserves_modify. Qed.

Lemma preserves_emit I (e : Effect) :
  (forall sys, I sys -> I (mkSys (self sys) (trace sys ++ [e]))) ->
  preserves I (emit e).
Proof. intros H. by apply preserves_modify. Qed.

Lemma preserves_attr {A} I (o : option A) name : preserves I (attr o name).
Proof. destruct o; [apply preserves_ret|apply preserves_raise]. Qed.

(** One step of an invariant proof: follow the structure of the code down
    to the updates and emissions, which are left as goals. *)
Ltac preserves_step :=
  cbv beta zeta;
  lazymatch goal with
  | |- hoare ?I ?c (fun _ => ?I) ?I => change (preserves I c)
  | |- preserves _ (this ≫= _) => apply preserves_bind_this; intros ? ?
  | |- preserves _ (_ ≫= _) => apply preserves_bind; [|intros ?]
  | |- preserves _ (ret _) => apply preserves_ret
  | |- preserves _ (raise _) => apply preserves_raise
  | |- preserves _ this => apply preserves_this
  | |- preserves _ (attr _ _) => apply preserves_attr
  | |- preserves _ (Condition.true _ _) => apply preserves_Condition_true
  | |- preserves _ (Condition.not_none _ _) => apply preserves_Condition_not_none
  | |- preserves _ (Condition.equal _ _ _ _) => apply preserves_Condition_equal
  | |- preserves _ (Condition.not_equal _ _ _ _) =>
      apply preserves_Condition_not_equal
  | |- preserves _ (Condition.not_empty _ _) => apply preserves_Condition_not_empty
  | |- preserves _ (Condition.not_in _ _ _ _) => apply preserves_Condition_not_in
  | |- preserves _ (try_except _ _) => apply preserves_try_except; [|intros ?]
  | |- preserves _ (for_each _ _) => apply preserves_for_each; intros ?
  | |- preserves _ (update _) => apply preserves_update
  | |- preserves _ (emit _) => apply preserves_emit
  | |- preserves _ (match decide ?P with _ => _ end) => destruct (decide P)
  | |- preserves _ (match ?x with _ => _ end) => destruct x eqn:?
  | |- preserves _ _ =>
      progress unfold log_msg, log_exception, fsm_trigger,
        try_except_InvalidStateTrigger, order_factory_market, run_hook,
        on_start, on_stop, on_resume, on_reset, on_dispose, on_load, on_save,
        on_quote_tick, on_trade_tick, on_bar, on_data, on_event, guarded,
        register_trader, register_data_engine, register_execution_engine,
        add_indicator, register_indicator_for_quote_ticks,
        register_indicator_for_trade_ticks, register_indicator_for_bars,
        register_stop_loss, register_take_profit,
        handle_quote_tick, handle_quote_ticks, handle_trade_tick,
        handle_trade_ticks, handle_bar, handle_bars, handle_data,
        get_flatten_side, submit_order, cancel_all_orders, flatten_position,
        flatten_all_positions, _flatten_on_reject, handle_event,
        stop, start, resume, reset, dispose, save, decode_int, load
  end.

Ltac preserves_steps := repeat preserves_step.

(** *** Runs of the building blocks *)

Lemma bind_run {S A B} (c : M S A) (k : A -> M S B) (s : S) :
  (c ≫= k) s
  = match c s with (Ok a, s') => k a s' | (Raise e, s') => (Raise e, s') end.
Proof. reflexivity. Qed.

Lemma log_msg_run level msg (sys : Sys) :
  is_Some (log (self sys)) ->
  log_msg level msg sys = (Ok tt, mkSys (self sys) (trace sys ++ [Log level msg])).
Proof.
  intros [lg Hlog]. unfold log_msg, attr, this, emit. monad_simpl.
  rewrite Hlog. reflexivity.
Qed.

Lemma log_exception_run ex (sys : Sys) :
  is_Some (log (self sys)) ->
  log_exception ex sys = (Ok tt, mkSys (self sys) (trace sys ++ [LogException ex])).
Proof.
  intros [lg Hlog]. unfold log_exception, attr, this, emit. monad_simpl.
  rewrite Hlog. reflexivity.
Qed.

Lemma get_flatten_side_run mp (sys : Sys) :
  mp = LONG \/ mp = SHORT ->
  get_flatten_side mp sys = (Ok (if decide (mp = SHORT) then BUY else SELL), sys).
Proof. intros [->| ->]; reflexivity. Qed.

Lemma order_factory_market_run sym (side : M Sys OrderSide) sd q factory (sys : Sys) :
  order_factory (self sys) = Some factory ->
  side sys = (Ok sd, sys) ->
  order_factory_market sym side q sys
  = (Ok (mkOrder (order_id_count factory + 1) sym sd q),
     mkSys (set_order_factory
              (Some (mkOrderFactory (order_id_count factory + 1))) (self sys))
       (trace sys)).
Proof.
  intros Hf Hside. unfold order_factory_market, attr, this, update.
  monad_simpl. rewrite Hf. monad_simpl. rewrite Hside. reflexivity.
Qed.

Lemma submit_order_run trader engine order p (sys : Sys) :
  ready trader engine (self sys) ->
  submit_order order p sys
  = (Ok tt,
     mkSys (self sys)
       (trace sys ++ [Log INF "CMD SENT SubmitOrder.";
                      ExecuteCommand
                        (SubmitOrder trader (account_id engine) (id (self sys))
                           p order)])).
Proof.
  intros (Htr & Heng & [lg Hlog] & [uf Huf] & [ck Hck] & _).
  unfold submit_order, log_msg, attr, this, emit. monad_simpl.
  rewrite Htr, Heng, Huf, Hck. monad_simpl. rewrite Hlog. monad_simpl.
  by rewrite <- app_assoc.
Qed.

Lemma ready_set_order_factory trader engine factory s :
  ready trader engine s -> ready trader engine (set_order_factory (Some factory) s).
Proof.
  intros (? & ? & ? & ? & ? & ?). unfold ready. simpl. repeat split; eauto.
Qed.

(** What [guarded hook] adds to the trace: the call, and the logged
    exception when the hook raises (and a logger is there). *)
Lemma guarded_run_hook (hook : Hook) (body : TradingStrategy -> option exn)
    (sys : Sys) :
  exists r tail,
    guarded (run_hook hook body) sys
    = (r, mkSys (self sys) (trace sys ++ Call hook :: tail))
    /\ hooks_called tail = [] /\ indicator_updates tail = [].
Proof.
  destruct sys as [s tr]. unfold guarded, run_hook, log_exception, attr, this, emit.
  monad_simpl. destruct (body s) as [ex|]; monad_simpl.
  - destruct (log s); monad_simpl.
    + destruct (reraise_exceptions s); monad_simpl;
        eexists _, [LogException ex]; rewrite <- app_assoc; simpl; eauto.
    + eexists _, []; eauto.
  - eexists _, []; eauto.
Qed.

(** The common shape of the three market-data handlers: the updates of the
    registered indicators, then the guarded hook when the datum is live and
    the strategy Running. *)
Lemma handler_shape (registered : option (list Indicator))
    (update_of : Indicator -> Effect) (hook : Hook)
    (body : TradingStrategy -> option exn) (is_historical : bool) (sys : Sys) :
  exists r tail,
    (match registered with
     | Some indicators =>
         for_each indicators (fun indicator => emit (update_of indicator))
     | None => ret tt
     end ≫= fun _ =>
       if is_historical then ret tt
       else this ≫= fun s =>
              if decide (state (_fsm s) = RUNNING)
              then guarded (run_hook hook body)
              else ret tt) sys
    = (r, mkSys (self sys)
            (trace sys ++ map update_of (default [] registered) ++ tail))
    /\ indicator_updates tail = []
    /\ hooks_called tail
       = if negb is_historical
            && bool_decide (state (_fsm (self sys)) = RUNNING)
         then [hook] else [].
Proof.
  rewrite bind_run.
  assert (Hupdates :
    match registered with
    | Some indicators =>
        for_each indicators (fun indicator => emit (update_of indicator))
    | None => ret tt
    end sys
    = (Ok tt, mkSys (self sys)
                (trace sys ++ map update_of (default [] registered)))).
  { destruct registered as [indicators|]; simpl.
    - apply for_each_emit.
    - destruct sys. unfold ret. simpl. by rewrite app_nil_r. }
  rewrite Hupdates. destruct is_historical; simpl.
  { eexists _, []. rewrite app_nil_r. eauto. }
  rewrite bind_run. unfold this at 1. cbv beta iota. cbn [self].
  case_decide as Hrunning.
  - rewrite bool_decide_eq_true_2 by done.
    destruct (guarded_run_hook hook body
                (mkSys (self sys)
                   (trace sys ++ map update_of (default [] registered))))
      as (r & tail & Hrun & Hhooks & Hupd).
    rewrite Hrun. exists r, (Call hook :: tail). cbn [self trace].
    rewrite <- app_assoc. simpl. rewrite Hhooks, Hupd. eauto.
  - rewrite bool_decide_eq_false_2 by done.
    eexists _, []. rewrite app_nil_r. eauto.
Qed.

(** C5: each market-data handler first passes the datum to every indicator
    registered for its symbol or bar type, whatever the lifecycle state; it
    then calls the matching [on_*] hook, once, exactly when the datum is not
    historical and the state is Running. *)
Theorem handlers_update_indicators_then_call (user : UserCode) (sys : Sys)
    (is_historical : bool) :
  let running := bool_decide (state (_fsm (self sys)) = RUNNING) in
  (forall tick : QuoteTick, exists r tail,
      handle_quote_tick user tick is_historical sys
      = (r, mkSys (self sys)
              (trace sys
               ++ map (fun i => IndicatorQuoteTick i tick)
                    (default [] (_indicators_for_quotes (self sys)
                                   !! quote_symbol tick))
               ++ tail))
      /\ indicator_updates tail = []
      /\ hooks_called tail
         = if negb is_historical && running then [on_quote_tick_ tick] else [])
  /\ (forall tick : TradeTick, exists r tail,
      handle_trade_tick user tick is_historical sys
      = (r, mkSys (self sys)
              (trace sys
               ++ map (fun i => IndicatorTradeTick i tick)
                    (default [] (_indicators_for_trades (self sys)
                                   !! trade_symbol tick))
               ++ tail))
      /\ indicator_updates tail = []
      /\ hooks_called tail
         = if negb is_historical && running then [on_trade_tick_ tick] else [])
  /\ (forall (bar_type : BarType) (bar : Bar), exists r tail,
      handle_bar user bar_type bar is_historical sys
      = (r, mkSys (self sys)
              (trace sys
               ++ map (fun i => IndicatorBar i bar)
                    (default [] (_indicators_for_bars (self sys) !! bar_type))
               ++ tail))
      /\ indicator_updates tail = []
      /\ hooks_called tail
         = if negb is_historical && running then [on_bar_ bar_type bar] else []).
Proof.
  intros running. subst running. split; [|split].
  - intros tick. unfold handle_quote_tick, on_quote_tick.
    rewrite bind_run. unfold this at 1. cbv beta iota.
    apply (handler_shape (_indicators_for_quotes (self sys) !! quote_symbol tick)
             (fun i => IndicatorQuoteTick i tick)).
  - intros tick. unfold handle_trade_tick, on_trade_tick.
    rewrite bind_run. unfold this at 1. cbv beta iota.
    apply (handler_shape (_indicators_for_trades (self sys) !! trade_symbol tick)
             (fun i => IndicatorTradeTick i tick)).
  - intros bar_type bar. unfold handle_bar, on_bar.
    rewrite bind_run. unfold this at 1. cbv beta iota.
    apply (handler_shape (_indicators_for_bars (self sys) !! bar_type)
             (fun i => IndicatorBar i bar)).
Qed.

(** *** Unsorted bars *)

Lemma descending_bounds (bars : list Bar) (final : Bar) :
  descending bars -> last bars = Some final ->
  Forall (fun b => timestamp final <= timestamp b) bars.
Proof.
  intros Hd. apply Sorted_StronglySorted in Hd.
  2:{ intros a b c Hab Hbc. simpl in *. lia. }
  induction Hd as [|a l Hl IH Hall]; intros Hlast; [discriminate|].
  destruct l as [|b l'].
  - simpl in Hlast. injection Hlast as <-. constructor; [lia|constructor].
  - assert (Hlast' : last (b :: l') = Some final) by exact Hlast.
    specialize (IH Hlast'). constructor; [|exact IH].
    rewrite Forall_forall in Hall.
    assert (final ∈ b :: l') as Hin by (by apply last_Some_elem_of).
    specialize (Hall final Hin). simpl in Hall. lia.
Qed.

Lemma constant_ascending (bars : list Bar) (t : Z) :
  Forall (fun b => timestamp b = t) bars -> ascending bars.
Proof.
  unfold ascending. induction 1 as [|a l Ha Hl IH]; constructor; [exact IH|].
  destruct Hl as [|b l' Hb _]; constructor. lia.
Qed.

(** A descending list that is not in ascending order starts strictly after
    it ends: the one comparison [handle_bars] makes finds it out. *)
Lemma descending_unsorted_endpoints (bars : list Bar) :
  descending bars -> ~ ascending bars ->
  exists first final,
    head bars = Some first /\ last bars = Some final
    /\ timestamp first > timestamp final.
Proof.
  intros Hd Hna. destruct bars as [|first rest].
  { exfalso. apply Hna. constructor. }
  destruct (last (first :: rest)) as [final|] eqn:Hlast.
  2:{ by apply last_None in Hlast. }
  exists first, final. repeat split.
  destruct (decide (timestamp first > timestamp final)) as [|Hle]; [done|].
  exfalso. apply Hna. apply (constant_ascending _ (timestamp first)).
  pose proof (descending_bounds _ _ Hd Hlast) as Hlow.
  apply Sorted_StronglySorted in Hd.
  2:{ intros a b c Hab Hbc. simpl in *. lia. }
  inversion Hd as [|a l Hl Hhigh]; subst.
  inversion Hlow as [|a l Hfirst Hlow']; subst.
  constructor; [done|].
  rewrite Forall_forall in *. intros b Hb.
  specialize (Hhigh b Hb). specialize (Hlow' b Hb). simpl in *. lia.
Qed.

(** C6: given a non-empty list of bars in descending order where ascending
    order is required, [handle_bars] raises before any bar reaches an
    indicator or a hook; with a logger in place the error is the sort-order
    [RuntimeError]. *)
Theorem handle_bars_unsorted_fails_fast (user : UserCode)
    (bar_type : BarType) (bars : list Bar) (sys : Sys) :
  descending bars -> ~ ascending bars ->
  exists ex tail,
    handle_bars user bar_type bars sys
    = (Raise ex, mkSys (self sys) (trace sys ++ tail))
    /\ indicator_updates tail = []
    /\ hooks_called tail = []
    /\ (log (self sys) <> None ->
        ex = RuntimeError "Cannot handle <Bar[]> data (incorrectly sorted).").
Proof.
  intros Hd Hna.
  destruct (descending_unsorted_endpoints bars Hd Hna)
    as (first & final & Hhead & Hlast & Hgt).
  destruct sys as [s tr]. unfold handle_bars, log_msg, attr, this, emit.
  monad_simpl. destruct (log s) as [logger|]; monad_simpl.
  - rewrite Hhead, Hlast. rewrite bool_decide_eq_true_2 by exact Hgt.
    monad_simpl. eexists _, [_]. repeat split; reflexivity.
  - eexists _, []. rewrite app_nil_r. repeat split; try reflexivity. done.
Qed.

(** The comparison is of the two ends only: bars out of order in between
    are handed on. *)
Example handle_bars_compares_the_ends :
  fst (handle_bars base_class "AUD/USD-1-MIN"
         [mkBar 100 1; mkBar 101 3; mkBar 99 2] registered)
  = Ok tt.
Proof. vm_compute. reflexivity. Qed.

Lemma handle_bars_unsorted_fails_fast_witness :
  exists ex tail,
    handle_bars base_class "AUD/USD-1-MIN" [mkBar 100 3; mkBar 101 2; mkBar 99 1]
      registered
    = (Raise ex, mkSys (self registered) (trace registered ++ tail))
    /\ indicator_updates tail = []
    /\ hooks_called tail = []
    /\ (log (self registered) <> None ->
        ex = RuntimeError "Cannot handle <Bar[]> data (incorrectly sorted).").
Proof.
  apply handle_bars_unsorted_fails_fast.
  - repeat constructor; simpl; lia.
  - intros Hasc. inversion Hasc as [|a l _ Hhd]; subst.
    inversion Hhd as [|b l' Hle]; subst. simpl in Hle. lia.
Defined.

(** *** The in-flight flattening set *)

(** The loop of [flatten_all_positions], from a registered strategy. *)
Lemma flatten_loop trader engine (positions : list (ClientPositionId * Position)) :
  Forall (fun entry => is_closed entry.2 = false ->
            market_position entry.2 = LONG \/ market_position entry.2 = SHORT)
    positions ->
  forall sys, ready trader engine (self sys) ->
  exists sys',
    for_each positions (fun '(position_id, position) =>
            if is_closed position
            then log_msg WRN
                   "Cannot flatten position (the position was already FLAT."
            else
              order ← order_factory_market (symbol position)
                         (get_flatten_side (market_position position))
                         (quantity position);
              log_msg INF "Flattening position...";;
              submit_order order position_id) sys = (Ok tt, sys')
    /\ ready trader engine (self sys')
    /\ id (self sys') = id (self sys)
    /\ flatten_requests (trace sys')
       = flatten_requests (trace sys)
         ++ map flattening_of (filter (fun e => not_closed e = true) positions).
Proof.
  induction 1 as [|[pid pos] positions Hpos Hrest IH]; intros [s tr] Hready.
  - simpl. eexists. split; [reflexivity|]. rewrite app_nil_r. auto.
  - simpl for_each. set (loop := for_each positions _) in *.
    unfold bind at 1. simpl in Hpos.
    destruct (is_closed pos) eqn:Hclosed.
    + rewrite log_msg_run by apply Hready.
      destruct (IH (mkSys s (tr ++ [Log WRN
          "Cannot flatten position (the position was already FLAT."])))
        as (sys' & Hrun & Hr & Hid & Hreq); [exact Hready|].
      exists sys'. cbv beta iota. cbn [self trace]. rewrite Hrun. repeat split; try apply Hr; [exact Hid|].
      rewrite Hreq. simpl. unfold flatten_requests. rewrite commands_snoc. simpl.
      rewrite app_nil_r. f_equal.
      rewrite filter_cons_False; [done|]. unfold not_closed. simpl.
      rewrite Hclosed. simpl. done.
    + destruct (Hready) as (_ & _ & _ & _ & _ & [fa Hfa]).
      rewrite bind_run.
      rewrite (order_factory_market_run _ _ _ _ fa) by
        (try exact Hfa; apply get_flatten_side_run; auto).
      rewrite bind_run.
      rewrite log_msg_run by apply Hready.
      rewrite (submit_order_run trader engine) by
        (by apply ready_set_order_factory).
      cbv beta iota. cbn [self trace].
      match goal with |- context [loop ?x] => destruct (IH x)
        as (sys' & Hrun & Hr & Hid & Hreq) end.
      { by apply ready_set_order_factory. }
      exists sys'. cbv beta iota. cbn [self trace]. rewrite Hrun. repeat split; try apply Hr; [exact Hid|].
      rewrite Hreq. simpl. unfold flatten_requests.
      rewrite !commands_app. simpl. rewrite app_nil_r, omap_app. simpl.
      rewrite <- app_assoc. f_equal.
      rewrite filter_cons_True; [done|]. unfold not_closed. simpl.
      by rewrite Hclosed.
Qed.

(** [flatten_all_positions] from a registered strategy. *)
Lemma flatten_all_positions_run trader engine (sys : Sys) :
  ready trader engine (self sys) ->
  Forall (fun entry =>
            is_closed entry.2 = false ->
            market_position entry.2 = LONG \/ market_position entry.2 = SHORT)
    (get_positions_open (database engine) (id (self sys))) ->
  exists sys',
    flatten_all_positions sys = (Ok tt, sys')
    /\ flatten_requests (trace sys')
       = flatten_requests (trace sys)
         ++ map flattening_of
              (filter (fun e => not_closed e = true)
                 (get_positions_open (database engine) (id (self sys)))).
Proof.
  intros Hready Hpos. pose proof Hready as (_ & Heng & _).
  destruct sys as [s tr]. cbn [self trace] in *.
  unfold flatten_all_positions.
  rewrite bind_run. unfold this at 1. cbv beta iota. cbn [self].
  rewrite bind_run. rewrite Heng. unfold Condition.not_none at 1. unfold ret at 1.
  cbv beta iota zeta.
  destruct (get_positions_open (database engine) (id s))
    as [|entry positions] eqn:Hopen.
  - rewrite log_msg_run by apply Hready. eexists. split; [reflexivity|].
    cbn [self trace]. rewrite flatten_requests_app. reflexivity.
  - rewrite bind_run. rewrite log_msg_run by apply Hready. cbv beta iota.
    destruct (flatten_loop trader engine (entry :: positions) Hpos
                (mkSys s (tr ++ [Log INF "Flattening open position(s)..."])))
      as (sys' & Hrun & _ & _ & Hreq); [exact Hready|].
    cbn [self trace] in *. rewrite Hrun. exists sys'. split; [done|].
    rewrite Hreq, flatten_requests_app. cbn [flatten_requests commands omap].
    by rewrite app_nil_r.
Qed.

(** C10: [flatten_all_positions] leaves the in-flight flattening set as it
    is, whatever it does and however it ends; and from a strategy registered
    with a trader and the execution engine, whose open positions are long or
    short, it sends one market order for each open position that is not
    closed, whether or not the position is in the flattening set. *)
Theorem flatten_all_positions_bypasses_guard (sys : Sys) :
  _flattening_ids (self (snd (flatten_all_positions sys)))
  = _flattening_ids (self sys)
  /\ (forall trader engine,
        ready trader engine (self sys) ->
        let positions := get_positions_open (database engine) (id (self sys)) in
        Forall (fun entry =>
                  is_closed entry.2 = false ->
                  market_position entry.2 = LONG
                  \/ market_position entry.2 = SHORT) positions ->
        fst (flatten_all_positions sys) = Ok tt
        /\ flatten_requests (trace (snd (flatten_all_positions sys)))
           = flatten_requests (trace sys)
             ++ map flattening_of (filter (fun e => not_closed e = true) positions)).
Proof.
  split.
  - apply (preserves_run
             (fun sys' => _flattening_ids (self sys') = _flattening_ids (self sys))).
    2:{ reflexivity. }
    preserves_steps; intros [s' tr'] H'; exact H'.
  - intros trader engine Hready positions Hpos. subst positions.
    destruct (flatten_all_positions_run trader engine sys Hready Hpos)
      as (sys' & Hrun & Hreq).
    rewrite Hrun. split; [reflexivity|exact Hreq].
Qed.

Lemma flatten_all_positions_bypasses_guard_witness :
  "P-1" ∈ _flattening_ids (self flattening_y)
  /\ fst (flatten_all_positions flattening_y) = Ok tt
  /\ flatten_requests (trace (snd (flatten_all_positions flattening_y)))
     = flatten_requests (trace flattening_y)
       ++ [("P-1", "AUD/USD", SELL, 100000)].
Proof.
  split; [vm_compute; reflexivity|].
  apply (proj2 (flatten_all_positions_bypasses_guard flattening_y)
           "TESTER-000" engine_y).
  - repeat split; by eexists.
  - repeat constructor; simpl; auto.
Defined.

Ltac in_flight_side :=
  intros [? ?] ?; simpl in *;
  repeat match goal with H : exists _, _ |- _ => destruct H end;
  simpl in *; set_solver.

Lemma in_flight_kept (user : UserCode) (int : string -> option Z)
    (p : ClientPositionId) (op : Op) :
  releases p op = false ->
  preserves (fun sys => p ∈ _flattening_ids (self sys)) (run_op user int op).
Proof.
  intros Hrel. destruct op; try discriminate; simpl run_op;
    try (preserves_steps; in_flight_side).
  destruct event; simpl in Hrel;
    try apply bool_decide_eq_false in Hrel;
    preserves_steps; in_flight_side.
Qed.

Ltac no_order_side :=
  intros [? ?] [? Horders]; simpl in *;
  repeat match goal with H : exists _, _ /\ _ |- _ => destruct H as (? & ? & ?) end;
  simpl in *;
  split; [set_solver|];
  first
    [ exact Horders
    | rewrite orders_for_snoc, Horders; simpl;
      first
        [ apply app_nil_r
        | let Heq := fresh "Heq" in
          case_decide as Heq;
          [exfalso; set_solver | apply app_nil_r] ] ].

Lemma no_order_while_in_flight (user : UserCode) (int : string -> option Z)
    (p : ClientPositionId) (op : Op) (L : list Order) :
  releases p op = false -> reaches_flatten_position op = true ->
  preserves (fun sys => p ∈ _flattening_ids (self sys)
                        /\ orders_for p (trace sys) = L)
    (run_op user int op).
Proof.
  intros Hrel Hreach. destruct op; try discriminate; simpl run_op.
  - destruct event; simpl in Hrel;
    try apply bool_decide_eq_false in Hrel;
    preserves_steps; no_order_side.
  - preserves_steps; no_order_side.
Qed.

Lemma run_ops_app (user : UserCode) (int : string -> option Z)
    (ops1 ops2 : list Op) (sys : Sys) :
  run_ops user int (ops1 ++ ops2) sys
  = run_ops user int ops2 (run_ops user int ops1 sys).
Proof. apply fold_left_app. Qed.

Lemma in_flight_kept_run (user : UserCode) (int : string -> option Z)
    (p : ClientPositionId) (ops : list Op) (sys : Sys) :
  Forall (fun op => releases p op = false) ops ->
  p ∈ _flattening_ids (self sys) ->
  p ∈ _flattening_ids (self (run_ops user int ops sys)).
Proof.
  intros Hops. revert sys. induction Hops as [|op ops Hop _ IH]; intros sys Hin.
  - exact Hin.
  - simpl. apply IH.
    apply (preserves_run _ _ _ (in_flight_kept user int p op Hop) Hin).
Qed.

(** The guarded call: nothing but a warning. *)
Lemma flatten_position_in_flight (p : ClientPositionId) (sys : Sys) :
  p ∈ _flattening_ids (self sys) ->
  exists r tail,
    flatten_position p sys = (r, mkSys (self sys) (trace sys ++ tail))
    /\ commands tail = []
    /\ (is_Some (_exec_engine (self sys)) -> is_Some (log (self sys)) ->
        r = Ok tt /\ tail = [Log WRN "Already flattening."]).
Proof.
  intros Hin. destruct sys as [s tr]. cbn [self trace] in *.
  unfold flatten_position. rewrite bind_run. unfold this at 1. cbv beta iota.
  cbn [self]. rewrite bind_run.
  destruct (_exec_engine s) as [engine|]; simpl.
  - destruct (decide (p ∈ _flattening_ids s)) as [_|Hn]; [|done].
    unfold log_msg, attr, this, emit. monad_simpl.
    destruct (log s) as [lg|]; monad_simpl.
    + eexists _, [_]. split; [reflexivity|]. split; [reflexivity|]. done.
    + eexists _, []. rewrite app_nil_r. split; [reflexivity|].
      split; [reflexivity|]. intros _ [? ?]; discriminate.
  - eexists _, []. rewrite app_nil_r. split; [reflexivity|].
    split; [reflexivity|]. intros [? ?]; discriminate.
Qed.

(** Handling the position's [PositionClosed] takes it out of the set. *)
Lemma handle_event_position_closed (user : UserCode) (position : Position)
    (sys : Sys) :
  cl_pos_id position ∉
    _flattening_ids (self (snd (handle_event user (PositionClosed position) sys))).
Proof.
  assert (Hh : hoare (fun _ => True%type)
                 (handle_event user (PositionClosed position))
                 (fun _ sys' => cl_pos_id position ∉ _flattening_ids (self sys'))
                 (fun sys' => cl_pos_id position ∉ _flattening_ids (self sys'))).
  { unfold handle_event.
    apply hoare_bind with (R := fun _ _ => True%type).
    { by intros ? ?. }
    intros s. simpl.
    apply hoare_bind with
      (R := fun _ sys' => cl_pos_id position ∉ _flattening_ids (self sys')).
    { intros [s' tr'] _. simpl. intros [_ Hn]%elem_of_difference.
      apply Hn. by apply elem_of_singleton. }
    intros _.
    change (preserves
              (fun sys' => cl_pos_id position ∉ _flattening_ids (self sys'))
              (ret () ≫= (λ _ : (),
                 this ≫= (λ s0 : TradingStrategy,
                   if decide (state (_fsm s0) = RUNNING)
                   then guarded (on_event user (PositionClosed position))
                   else ret ())))).
    preserves_steps; intros [? ?] ?; simpl in *; assumption. }
  pose proof (hoare_run _ _ _ _ sys Hh I) as H.
  by destruct (handle_event user (PositionClosed position) sys) as [[[]|e] sys'].
Qed.

(** C4 (as amended): while [p] is in the in-flight flattening set,
    [flatten_position p] sends no command and changes nothing in the
    strategy (it logs a warning); handling the [PositionClosed] event of
    [p] takes [p] out of the set; and over any run of calls that contains
    neither that nor a [reset], [p] stays in the set and no call that
    reaches [flatten_position] submits an order for [p]. *)
Theorem flatten_position_guard (user : UserCode) (int : string -> option Z)
    (p : ClientPositionId) (sys : Sys) :
  p ∈ _flattening_ids (self sys) ->
  (exists r tail,
      flatten_position p sys = (r, mkSys (self sys) (trace sys ++ tail))
      /\ commands tail = []
      /\ (is_Some (_exec_engine (self sys)) -> is_Some (log (self sys)) ->
          r = Ok tt /\ tail = [Log WRN "Already flattening."]))
  /\ (forall position, cl_pos_id position = p ->
        p ∉ _flattening_ids
              (self (snd (handle_event user (PositionClosed position) sys))))
  /\ (forall ops, Forall (fun op => releases p op = false) ops ->
        p ∈ _flattening_ids (self (run_ops user int ops sys))
        /\ forall before op after,
             ops = before ++ op :: after ->
             reaches_flatten_position op = true ->
             orders_for p (trace (run_ops user int (before ++ [op]) sys))
             = orders_for p (trace (run_ops user int before sys))).
Proof.
  intros Hin. split; [by apply flatten_position_in_flight|]. split.
  - intros position <-. apply handle_event_position_closed.
  - intros ops Hops. split; [by apply in_flight_kept_run|].
    intros before op after -> Hreach.
    apply Forall_app in Hops as [Hbefore Hop].
    apply Forall_cons in Hop as [Hop _].
    rewrite run_ops_app. simpl.
    pose proof (in_flight_kept_run user int p before sys Hbefore Hin) as Hin'.
    apply (preserves_run _ _ _
             (no_order_while_in_flight user int p op
                (orders_for p (trace (run_ops user int before sys))) Hop Hreach)).
    split; [exact Hin'|reflexivity].
Qed.

(** C4 as stated does not hold: [reset] empties the flattening set, so a
    position in flight is released, and flattened a second time, without
    any [PositionClosed] event. *)
Lemma flatten_guard_released_by_reset :
  ~ (forall (user : UserCode) (int : string -> option Z)
       (p : ClientPositionId) (sys : Sys) (ops : list Op),
       p ∈ _flattening_ids (self sys) ->
       Forall (fun op => forall position,
                 op = HandleEvent (PositionClosed position) ->
                 cl_pos_id position <> p) ops ->
       p ∈ _flattening_ids (self (run_ops user int ops sys))).
Proof.
  intros Hclaim.
  pose proof (Hclaim base_class decimal "P-1" flattening_y [Reset]) as Hin.
  assert (Hempty : _flattening_ids
                     (self (run_ops base_class decimal [Reset] flattening_y))
                   = ∅) by (vm_compute; reflexivity).
  rewrite Hempty in Hin. apply (not_elem_of_empty (C:=gset ClientPositionId) "P-1").
  apply Hin.
  - vm_compute. reflexivity.
  - constructor; [|constructor]. intros position Hop. discriminate.
Qed.

(** After the reset, [flatten_position] submits a second order for P-1;
    and so it is when the strategy was started, then stopped and reset. *)
Example reset_then_flatten_again :
  length (orders_for "P-1" (trace flattening_y)) = 1%nat
  /\ length (orders_for "P-1"
               (trace (run_ops base_class decimal
                         [Reset; FlattenPosition "P-1"] flattening_y)))
     = 2%nat
  /\ _flattening_ids
       (self (run_ops base_class decimal
                [Start; FlattenPosition "P-1"] registered))
     = {["P-1"]}
  /\ _flattening_ids
       (self (run_ops base_class decimal
                [Start; FlattenPosition "P-1"; Stop; Reset] registered))
     = ∅.
Proof. vm_compute. repeat split; reflexivity. Qed.

Lemma flatten_position_guard_witness :
  "P-1" ∈ _flattening_ids
            (self (run_ops base_class decimal
                     [HandleEvent (OrderRejected 1); FlattenPosition "P-1"]
                     flattening_y))
  /\ orders_for "P-1"
       (trace (run_ops base_class decimal
                 ([HandleEvent (OrderRejected 1)] ++ [FlattenPosition "P-1"])
                 flattening_y))
     = orders_for "P-1"
         (trace (run_ops base_class decimal [HandleEvent (OrderRejected 1)]
                   flattening_y)).
Proof.
  pose proof (flatten_position_guard base_class decimal "P-1" flattening_y
                ltac:(vm_compute; reflexivity)) as (_ & _ & Hrun).
  destruct (Hrun [HandleEvent (OrderRejected 1); FlattenPosition "P-1"])
    as [Hin Hstep].
  - repeat constructor.
  - split; [exact Hin|].
    apply (Hstep [HandleEvent (OrderRejected 1)] (FlattenPosition "P-1") []);
      reflexivity.
Defined.

(** *** Saving and loading *)

Lemma truthy_bytes (b : string) : b <> "" -> truthy (VBytes b) = true.
Proof. intros Hb. simpl. destruct b; [done|reflexivity]. Qed.

Lemma not_empty_dict (state : PyDict) (sys : Sys) :
  state <> ∅ ->
  Condition.not_empty (map_to_list state) "state" sys = (Ok tt, sys).
Proof.
  intros Hne. destruct (map_to_list state) as [|kv l] eqn:Hl; [|reflexivity].
  by apply map_to_list_empty_iff in Hl.
Qed.

Lemma save_run (user : UserCode) (sys : Sys) factory generator user_state :
  order_factory (self sys) = Some factory ->
  position_id_generator (self sys) = Some generator ->
  on_save_body user (self sys) = Ok user_state ->
  save user sys
  = (Ok (user_state
           ∪ <[KStr "OrderIdCount" := VInt (order_id_count factory)]>
               (<[KStr "PositionIdCount" := VInt (count generator)]> ∅)),
     mkSys (self sys) (trace sys ++ [Call on_save_])).
Proof.
  intros Hf Hg Hsave. destruct sys as [s tr]. cbn [self trace] in *.
  unfold save, on_save, attr, this, emit. monad_simpl.
  rewrite Hf, Hg. monad_simpl. rewrite Hsave. reflexivity.
Qed.

Lemma load_absent (user : UserCode) (int : string -> option Z)
    (state : PyDict) (sys : Sys) :
  state <> ∅ ->
  state !! KBytes "OrderIdCount" = None ->
  state !! KBytes "PositionIdCount" = None ->
  load user int state sys = try_except (on_load user state) log_exception sys.
Proof.
  intros Hne Ho Hp. unfold load. rewrite bind_run, not_empty_dict by done.
  rewrite Ho, Hp. reflexivity.
Qed.

Lemma load_present (user : UserCode) (int : string -> option Z)
    (state : PyDict) (sys : Sys) b1 b2 n1 n2 :
  state !! KBytes "OrderIdCount" = Some (VBytes b1) ->
  state !! KBytes "PositionIdCount" = Some (VBytes b2) ->
  b1 <> "" -> b2 <> "" -> int b1 = Some n1 -> int b2 = Some n2 ->
  is_Some (order_factory (self sys)) ->
  is_Some (position_id_generator (self sys)) ->
  is_Some (log (self sys)) ->
  load user int state sys
  = try_except (on_load user state) log_exception
      (mkSys (set_position_id_generator (Some (mkPositionIdGenerator n2))
                (set_order_factory (Some (mkOrderFactory n1)) (self sys)))
         (trace sys ++ [Log INF "Setting OrderIdGenerator count.";
                        Log INF "Setting PositionIdGenerator count."])).
Proof.
  intros Ho Hp Hb1 Hb2 Hn1 Hn2 [fa Hfa] [ge Hge] [lg Hlog].
  assert (Hne : state <> ∅).
  { intros ->. by rewrite lookup_empty in Ho. }
  destruct sys as [s tr]. cbn [self trace] in *.
  unfold load. rewrite bind_run, not_empty_dict by done.
  rewrite Ho, Hp. cbv zeta. cbn [from_option]. unfold Datatypes.id.
  rewrite !truthy_bytes by done.
  unfold decode_int, attr, this, update, log_msg, emit. monad_simpl.
  rewrite Hn1. monad_simpl. rewrite Hfa. monad_simpl. rewrite Hlog. monad_simpl.
  rewrite Hn2. monad_simpl. rewrite Hge. monad_simpl. rewrite Hlog. monad_simpl.
  rewrite <- app_assoc. reflexivity.
Qed.

(** C7 (as amended): when [on_save] returns, [save] returns its pairs laid
    over the two reserved text keys, so that both reserved keys are always
    there; [load] of a non-empty state without the reserved bytes keys goes
    straight to [on_load]; and when both are there, holding non-empty
    decimal text, [load] reseeds both generators, and only then calls
    [on_load]. *)
Theorem save_load_contract (user : UserCode) (int : string -> option Z)
    (sys : Sys) :
  (forall factory generator user_state,
      order_factory (self sys) = Some factory ->
      position_id_generator (self sys) = Some generator ->
      on_save_body user (self sys) = Ok user_state ->
      exists state : PyDict,
        save user sys
        = (Ok state, mkSys (self sys) (trace sys ++ [Call on_save_]))
        /\ is_Some (state !! KStr "OrderIdCount")
        /\ is_Some (state !! KStr "PositionIdCount")
        /\ (forall k v, user_state !! k = Some v -> state !! k = Some v)
        /\ (user_state !! KStr "OrderIdCount" = None ->
            state !! KStr "OrderIdCount" = Some (VInt (order_id_count factory)))
        /\ (user_state !! KStr "PositionIdCount" = None ->
            state !! KStr "PositionIdCount" = Some (VInt (count generator)))
        /\ (forall k, k <> KStr "OrderIdCount" -> k <> KStr "PositionIdCount" ->
              state !! k = user_state !! k))
  /\ (forall state : PyDict,
        state <> ∅ ->
        state !! KBytes "OrderIdCount" = None ->
        state !! KBytes "PositionIdCount" = None ->
        load user int state sys
        = try_except (on_load user state) log_exception sys)
  /\ (forall (state : PyDict) b1 b2 n1 n2,
        state !! KBytes "OrderIdCount" = Some (VBytes b1) ->
        state !! KBytes "PositionIdCount" = Some (VBytes b2) ->
        b1 <> "" -> b2 <> "" -> int b1 = Some n1 -> int b2 = Some n2 ->
        is_Some (order_factory (self sys)) ->
        is_Some (position_id_generator (self sys)) ->
        is_Some (log (self sys)) ->
        load user int state sys
        = try_except (on_load user state) log_exception
            (mkSys (set_position_id_generator (Some (mkPositionIdGenerator n2))
                      (set_order_factory (Some (mkOrderFactory n1)) (self sys)))
               (trace sys ++ [Log INF "Setting OrderIdGenerator count.";
                              Log INF "Setting PositionIdGenerator count."]))).
Proof.
  split; [|split].
  - intros factory generator user_state Hf Hg Hsave.
    eexists. split; [by apply save_run|].
    set (reserved := <[KStr "OrderIdCount" := VInt (order_id_count factory)]>
                       (<[KStr "PositionIdCount" := VInt (count generator)]> ∅)
                     : PyDict).
    assert (Ho : reserved !! KStr "OrderIdCount"
                 = Some (VInt (order_id_count factory))).
    { unfold reserved. apply lookup_insert_eq. }
    assert (Hp : reserved !! KStr "PositionIdCount"
                 = Some (VInt (count generator))).
    { unfold reserved. rewrite lookup_insert_ne by done. apply lookup_insert_eq. }
    repeat split.
    + rewrite lookup_union. rewrite Ho.
      destruct (user_state !! KStr "OrderIdCount"); eauto.
    + rewrite lookup_union. rewrite Hp.
      destruct (user_state !! KStr "PositionIdCount"); eauto.
    + intros k v Hk. by apply lookup_union_Some_l.
    + intros Hn. rewrite lookup_union_r by done. exact Ho.
    + intros Hn. rewrite lookup_union_r by done. exact Hp.
    + intros k Hk1 Hk2. rewrite lookup_union. unfold reserved.
      rewrite !lookup_insert_ne, lookup_empty by done.
      by destruct (user_state !! k).
  - intros state. apply load_absent.
  - intros state b1 b2 n1 n2. apply load_present.
Qed.

(** C7 as stated does not hold: a state in which both reserved keys are
    absent because it is empty is refused. *)
Lemma load_refuses_empty_state :
  ~ (forall (sys : Sys) (state : PyDict),
       state !! KBytes "OrderIdCount" = None ->
       state !! KBytes "PositionIdCount" = None ->
       fst (load base_class decimal state sys) = Ok tt).
Proof.
  intros Hclaim.
  specialize (Hclaim registered ∅ (lookup_empty _) (lookup_empty _)).
  vm_compute in Hclaim. discriminate.
Qed.

(** What [save] gives is keyed by text, and [load] reads bytes keys: the
    counts come back through the persistence layer, not from [save]'s own
    dictionary; and when [on_save] raises, [user_state] is unbound. *)
Example save_then_load :
  (exists state : PyDict,
      save saving_user registered
      = (Ok state, mkSys (self registered) (trace registered ++ [Call on_save_]))
      /\ state !! KBytes "OrderIdCount" = None)
  /\ fst (save failing_on_save registered)
     = Raise (UnboundLocalError "user_state")
  /\ order_factory (self (snd (load base_class decimal persisted_state registered)))
     = Some (mkOrderFactory 12).
Proof.
  split; [|split].
  - eexists. split.
    + apply (save_run saving_user registered (mkOrderFactory 0)
               (mkPositionIdGenerator 0) {[KStr "UserState" := VInt 1]});
        reflexivity.
    + rewrite lookup_union, lookup_singleton_ne by discriminate.
      rewrite !lookup_insert_ne, lookup_empty by discriminate. reflexivity.
  - vm_compute. reflexivity.
  - vm_compute. reflexivity.
Qed.

Lemma save_load_contract_witness :
  (exists state : PyDict,
      fst (save saving_user registered) = Ok state
      /\ is_Some (state !! KStr "OrderIdCount")
      /\ state !! KStr "UserState" = Some (VInt 1))
  /\ load base_class decimal persisted_state registered
     = try_except (on_load base_class persisted_state) log_exception
         (mkSys (set_position_id_generator (Some (mkPositionIdGenerator 3))
                   (set_order_factory (Some (mkOrderFactory 12))
                      (self registered)))
            (trace registered
             ++ [Log INF "Setting OrderIdGenerator count.";
                 Log INF "Setting PositionIdGenerator count."])).
Proof.
  pose proof (save_load_contract saving_user decimal registered)
    as (Hsave & _ & _).
  pose proof (save_load_contract base_class decimal registered)
    as (_ & _ & Hload).
  split.
  - destruct (Hsave (mkOrderFactory 0) (mkPositionIdGenerator 0)
                {[KStr "UserState" := VInt 1]})
      as (state & Hrun & Ho & _ & Huser & _); [reflexivity..|].
    exists state. rewrite Hrun. split; [reflexivity|]. split; [exact Ho|].
    apply Huser. apply lookup_singleton_eq.
  - apply (Hload persisted_state "12" "3" 12 3);
      first [ by vm_compute | discriminate | by eexists ].
Defined.

(** *** The lifecycle *)

Lemma component_transitions_ok : lifecycle_table_ok component_transitions.
Proof.
  repeat split.
  - intros s [next H]. destruct s; simpl in H; repeat case_decide; congruence.
  - intros s trigger H. destruct s; simpl in H; repeat case_decide; congruence.
  - intros s trigger H. destruct s; simpl in H; repeat case_decide; congruence.
  - by eexists.
Qed.

Lemma on_start_calls_snoc (tr : list Effect) (e : Effect) :
  on_start_calls (tr ++ [e])
  = (on_start_calls tr
     + match e with Call on_start_ => 1 | _ => 0 end)%nat.
Proof.
  unfold on_start_calls. rewrite omap_app, length_app. f_equal.
  destruct e as [| | | | | |[]| |]; reflexivity.
Qed.

Section Lifecycle.
Variable user : UserCode.
Variable table : ComponentState -> string -> option ComponentState.
Hypothesis table_ok : lifecycle_table_ok table.

Ltac lifecycle_side :=
  intros [? ?]; unfold started, counted, not_running; simpl;
  repeat match goal with
         | H : exists _, _ |- _ => destruct H
         end;
  unfold started, counted, not_running in *; simpl in *;
  intuition (try assumption);
  try (rewrite on_start_calls_snoc; simpl; lia);
  try match goal with
      | Ht : state_transition_table ?f = table,
        H : state_transition_table ?f _ ?t = Some ?c,
        Hc : ?c = _ |- _ =>
          rewrite Ht, Hc in H;
          first [ apply (proj1 (proj2 table_ok)) in H
                | apply (proj1 (proj2 (proj2 table_ok))) in H ];
          discriminate
      end.

Lemma stop_counted n : preserves (counted table n) (stop user).
Proof. preserves_steps; lifecycle_side. Qed.

Lemma stop_started n : preserves (started table n) (stop user).
Proof using table_ok. preserves_steps; lifecycle_side. Qed.

(** [fsm_trigger], when the trigger is none of those named by [avoid]. *)
Lemma fsm_trigger_started n trigger :
  trigger <> "RESET" ->
  hoare (counted table n) (fsm_trigger trigger)
    (fun _ => started table n) (counted table n).
Proof using table_ok.
  intros Hne [s tr] [Ht Hn]. unfold fsm_trigger, this, update, emit.
  monad_simpl. simpl in *.
  destruct (state_transition_table (_fsm s) (state (_fsm s)) trigger)
    as [next|] eqn:Hnext; monad_simpl.
  - repeat split; simpl; [done| |].
    + rewrite on_start_calls_snoc. simpl. lia.
    + intros ->. rewrite Ht in Hnext.
      apply (proj1 (proj2 table_ok)) in Hnext. done.
  - split; simpl; [done|]. rewrite on_start_calls_snoc. simpl. lia.
Qed.

(** From a state other than Initialized, START is refused. *)
Lemma fsm_trigger_START_refused n :
  hoare (started table n) (fsm_trigger "START")
    (fun _ _ => False) (started table n).
Proof using table_ok.
  intros [s tr] [[Ht Hn] Hst]. unfold fsm_trigger, this, update, emit.
  monad_simpl. simpl in *.
  destruct (state_transition_table (_fsm s) (state (_fsm s)) "START")
    as [next|] eqn:Hnext; monad_simpl.
  - exfalso. apply Hst. apply (proj1 table_ok). rewrite <- Ht. by eexists.
  - repeat split; simpl; [done| |done]. rewrite on_start_calls_snoc. simpl. lia.
Qed.

Lemma on_start_counted n :
  hoare (started table n) (on_start user)
    (fun _ => started table (S n)) (started table (S n)).
Proof.
  intros [s tr] [[Ht Hn] Hst]. unfold on_start, run_hook, this, emit.
  monad_simpl. simpl in *.
  assert (started table (S n) (mkSys s (tr ++ [Call on_start_]))).
  { repeat split; simpl; [done| |done].
    rewrite on_start_calls_snoc. simpl. lia. }
  by destruct (on_start_body user s).
Qed.

(** One [start]: at most one call of [on_start], and none unless the
    strategy then has left Initialized. *)
Lemma start_counted n :
  hoare (counted table n) (start user)
    (fun _ => after_start table n) (after_start table n).
Proof using table_ok.
  unfold start.
  apply hoare_bind with
    (R := fun triggered sys =>
            if triggered : bool then started table n sys
            else counted table n sys).
  - unfold try_except_InvalidStateTrigger.
    apply hoare_try_except with (R := counted table n).
    + apply hoare_bind with (R := fun _ => started table n).
      * apply fsm_trigger_started. discriminate.
      * intros _. by apply hoare_ret.
    + intros ex. destruct (is_InvalidStateTrigger ex).
      * apply hoare_bind with (R := fun _ => counted table n).
        { apply preserves_hoare; [|done|by left].
          preserves_steps; lifecycle_side. }
        intros _. apply hoare_bind with (R := fun _ => counted table n).
        { apply preserves_hoare; [apply stop_counted|done|by left]. }
        intros _. by apply hoare_ret.
      * apply hoare_raise. unfold after_start. auto.
  - intros [|]; simpl.
    2:{ apply hoare_ret. unfold after_start. auto. }
    assert (Hleft : forall sys,
              started table n sys -> after_start table n sys)
      by (intros sys [H _]; by left).
    assert (Hright : forall sys,
              started table (S n) sys -> after_start table n sys)
      by (intros sys H; by right).
    apply hoare_bind with (R := fun _ => started table n).
    { apply preserves_hoare; [|done|done]. preserves_steps; lifecycle_side. }
    intros _. apply hoare_bind with (R := fun _ => started table n).
    { apply preserves_hoare; [apply preserves_this|done|done]. }
    intros s. destruct (_data_engine s) as [data|].
    2:{ apply preserves_hoare; [|auto|done]. preserves_steps; lifecycle_side. }
    destruct (_exec_engine s) as [exec|].
    2:{ apply preserves_hoare; [|auto|done]. preserves_steps; lifecycle_side. }
    apply hoare_bind with (R := fun _ => started table (S n)).
    + apply hoare_try_except with (R := started table (S n)).
      * apply hoare_bind with (R := fun _ => started table (S n)).
        -- apply on_start_counted.
        -- intros _. by apply hoare_ret.
      * intros ex. apply preserves_hoare; [|done|done].
        apply preserves_bind; [preserves_steps; lifecycle_side|intros _].
        apply preserves_bind; [apply stop_started|intros _].
        apply preserves_ret.
    + intros [|]; simpl.
      * apply preserves_hoare; [|auto|done]. preserves_steps; lifecycle_side.
      * by apply hoare_ret.
Qed.

(** A second [start] in a row calls [on_start] no more. *)
Lemma start_refused n : preserves (started table n) (start user).
Proof using table_ok.
  unfold start.
  apply hoare_bind with
    (R := fun triggered sys => started table n sys /\ triggered = false).
  - unfold try_except_InvalidStateTrigger.
    apply hoare_try_except with (R := started table n).
    + apply hoare_bind with (R := fun _ _ => False).
      * apply fsm_trigger_START_refused.
      * intros _ ? [].
    + intros ex. destruct (is_InvalidStateTrigger ex).
      * apply hoare_bind with (R := fun _ => started table n).
        { preserves_steps; lifecycle_side. }
        intros _. apply hoare_bind with (R := fun _ => started table n).
        { apply stop_started. }
        intros _. by apply hoare_ret.
      * by apply hoare_raise.
  - intros triggered.
    apply hoare_weaken with
      (P' := fun sys => started table n sys /\ triggered = false)
      (Q' := fun _ => started table n) (E' := started table n);
      [|done|done|done].
    intros sys [H ->]. simpl. exact H.
Qed.

(** [on_start] is called at most once over two calls of [start] in a row. *)
Lemma start_twice_calls_on_start_once (sys : Sys) :
  state_transition_table (_fsm (self sys)) = table ->
  (on_start_calls (trace (snd (start user (snd (start user sys)))))
   <= S (on_start_calls (trace sys)))%nat.
Proof using table_ok.
  intros Ht.
  assert (H0 : counted table (on_start_calls (trace sys)) sys) by done.
  set (n := on_start_calls (trace sys)) in *.
  pose proof (hoare_run _ _ _ _ sys (start_counted n) H0) as H1.
  assert (H1' : after_start table n (snd (start user sys))).
  { by destruct (start user sys) as [[[]|e] sys1]. }
  clear H1. destruct H1' as [H1|H1].
  - pose proof (hoare_run _ _ _ _ _ (start_counted n) H1) as H2.
    assert (H2' : after_start table n
                    (snd (start user (snd (start user sys))))).
    { by destruct (start user (snd (start user sys))) as [[[]|e] sys2]. }
    destruct H2' as [[_ H2']|[[_ H2'] _]]; lia.
  - pose proof (preserves_run _ _ _ (start_refused (S n)) H1) as [[_ H2] _].
    lia.
Qed.

(** [fsm_trigger], run. *)
Lemma fsm_trigger_valid trigger next (sys : Sys) :
  state_transition_table (_fsm (self sys)) (state (_fsm (self sys))) trigger
  = Some next ->
  fsm_trigger trigger sys
  = (Ok tt,
     mkSys (set_fsm (mkFiniteStateMachine
                       (state_transition_table (_fsm (self sys))) next)
              (self sys))
       (trace sys ++ [Trigger trigger])).
Proof.
  intros H. destruct sys as [s tr]. unfold fsm_trigger, this, update, emit.
  monad_simpl. simpl in H. rewrite H. reflexivity.
Qed.

Lemma fsm_trigger_invalid trigger (sys : Sys) :
  state_transition_table (_fsm (self sys)) (state (_fsm (self sys))) trigger
  = None ->
  fsm_trigger trigger sys
  = (Raise (InvalidStateTrigger trigger),
     mkSys (self sys) (trace sys ++ [Trigger trigger])).
Proof.
  intros H. destruct sys as [s tr]. unfold fsm_trigger, this, update, emit.
  monad_simpl. simpl in H. rewrite H. reflexivity.
Qed.

Lemma stop_not_running :
  hoare (fun sys => state_transition_table (_fsm (self sys)) = table)
    (stop user) (fun _ => not_running table) (not_running table).
Proof using table_ok.
  unfold stop.
  apply hoare_bind with (R := fun _ => not_running table).
  - unfold try_except_InvalidStateTrigger.
    apply hoare_try_except with (R := not_running table).
    + apply hoare_bind with (R := fun _ => not_running table).
      * intros sys Ht.
        destruct (state_transition_table (_fsm (self sys))
                    (state (_fsm (self sys))) "STOP") as [next|] eqn:Hnext.
        -- rewrite (fsm_trigger_valid _ _ _ Hnext). split; simpl; [done|].
           intros ->. rewrite Ht in Hnext.
           apply (proj1 (proj2 (proj2 table_ok))) in Hnext. done.
        -- rewrite (fsm_trigger_invalid _ _ Hnext). split; simpl; [done|].
           intros Hrun. rewrite Ht, Hrun in Hnext.
           destruct (proj2 (proj2 (proj2 table_ok))) as [? Hstop]. congruence.
      * intros _. by apply hoare_ret.
    + intros ex. destruct (is_InvalidStateTrigger ex).
      * preserves_steps; lifecycle_side.
      * by apply hoare_raise.
  - intros [|]; simpl.
    + preserves_steps; lifecycle_side.
    + by apply hoare_ret.
Qed.

(** [start], case by case. *)
Lemma start_invalid (sys : Sys) :
  state_transition_table (_fsm (self sys)) (state (_fsm (self sys))) "START"
  = None ->
  is_Some (log (self sys)) ->
  start user sys
  = stop user (mkSys (self sys)
                 (trace sys ++ [Trigger "START";
                                LogException (InvalidStateTrigger "START")])).
Proof.
  intros Hnone Hlog. unfold start, try_except_InvalidStateTrigger.
  rewrite bind_run. unfold try_except at 1.
  rewrite bind_run, (fsm_trigger_invalid _ _ Hnone). cbn [is_InvalidStateTrigger].
  rewrite bind_run, log_exception_run by exact Hlog. cbn [self trace].
  rewrite <- app_assoc. simpl app. rewrite bind_run.
  by destruct (stop user _) as [[[]|e] sys'].
Qed.

Lemma start_valid (sys : Sys) next :
  state_transition_table (_fsm (self sys)) (state (_fsm (self sys))) "START"
  = Some next ->
  is_Some (log (self sys)) ->
  let s' := set_fsm (mkFiniteStateMachine
                       (state_transition_table (_fsm (self sys))) next)
              (self sys) in
  let tr' := trace sys ++ [Trigger "START"; Log INF "state=..."] in
  start user sys
  = match _data_engine (self sys), _exec_engine (self sys) with
    | None, _ =>
        (Ok tt,
         mkSys s' (tr' ++ [Log ERR "Cannot start strategy (the data engine is not registered)."]))
    | Some _, None =>
        (Ok tt,
         mkSys s' (tr' ++ [Log ERR "Cannot start strategy (the execution engine is not registered)."]))
    | Some _, Some _ =>
        match on_start_body user s' with
        | Some ex =>
            stop user (mkSys s' (tr' ++ [Call on_start_; LogException ex]))
        | None =>
            (fsm_trigger "RUNNING" ≫= fun _ => log_msg INF "state=.")
              (mkSys s' (tr' ++ [Call on_start_]))
        end
    end.
Proof.
  intros Hnext Hlog s' tr'. subst s' tr'.
  unfold start, try_except_InvalidStateTrigger.
  rewrite bind_run. unfold try_except at 1.
  rewrite bind_run, (fsm_trigger_valid _ _ _ Hnext). unfold ret at 1.
  cbv beta iota. cbn [negb].
  rewrite bind_run, log_msg_run by exact Hlog. cbn [self trace].
  rewrite <- app_assoc. simpl app.
  rewrite bind_run. unfold this at 1. cbv beta iota. cbn [self].
  cbn [_data_engine _exec_engine set_fsm].
  destruct (_data_engine (self sys)) as [data|].
  2:{ rewrite log_msg_run by exact Hlog. cbn [self trace].
      by rewrite <- app_assoc. }
  destruct (_exec_engine (self sys)) as [exec|].
  2:{ rewrite log_msg_run by exact Hlog. cbn [self trace].
      by rewrite <- app_assoc. }
  rewrite bind_run. unfold try_except at 1. rewrite bind_run.
  unfold on_start at 1, run_hook at 1.
  rewrite bind_run. unfold emit at 1, modify at 1. cbv beta iota.
  rewrite bind_run. unfold this at 1. cbv beta iota. cbn [self trace].
  rewrite <- app_assoc. simpl app.
  destruct (on_start_body user _) as [ex|].
  - unfold raise at 1. cbv beta iota.
    rewrite bind_run, log_exception_run by exact Hlog. cbn [self trace].
    rewrite <- ?app_assoc. simpl app. rewrite bind_run.
    by destruct (stop user _) as [[[]|e] sys'].
  - rewrite <- ?app_assoc. reflexivity.
Qed.
End Lifecycle.

(** C3 (as amended): [start] on a strategy with a logger, whose trigger
    table is a lifecycle table. When START is refused, and when [on_start]
    raises, [start] falls back to [stop]; when an engine is missing it logs
    an error and returns, calling neither [on_start] nor [stop]; in none of
    these cases is the strategy left Running; and two calls of [start] in a
    row call [on_start] at most once. *)
Theorem start_degrades_safely (user : UserCode) (sys : Sys) :
  let fsm := _fsm (self sys) in
  lifecycle_table_ok (state_transition_table fsm) ->
  is_Some (log (self sys)) ->
  (state_transition_table fsm (state fsm) "START" = None ->
     start user sys
     = stop user
         (mkSys (self sys)
            (trace sys ++ [Trigger "START";
                           LogException (InvalidStateTrigger "START")]))
     /\ state (_fsm (self (snd (start user sys)))) <> RUNNING)
  /\ (forall next,
        state_transition_table fsm (state fsm) "START" = Some next ->
        let s' := set_fsm (mkFiniteStateMachine
                             (state_transition_table fsm) next) (self sys) in
        let tr' := trace sys ++ [Trigger "START"; Log INF "state=..."] in
        (_data_engine (self sys) = None ->
           start user sys
           = (Ok tt,
              mkSys s'
                (tr' ++ [Log ERR "Cannot start strategy (the data engine is not registered)."])))
        /\ (is_Some (_data_engine (self sys)) ->
            _exec_engine (self sys) = None ->
            start user sys
            = (Ok tt,
               mkSys s'
                 (tr' ++ [Log ERR "Cannot start strategy (the execution engine is not registered)."])))
        /\ (is_Some (_data_engine (self sys)) ->
            is_Some (_exec_engine (self sys)) ->
            forall ex, on_start_body user s' = Some ex ->
              start user sys
              = stop user (mkSys s' (tr' ++ [Call on_start_; LogException ex])))
        /\ (_data_engine (self sys) = None
            \/ _exec_engine (self sys) = None
            \/ is_Some (on_start_body user s') ->
            state (_fsm (self (snd (start user sys)))) <> RUNNING))
  /\ (on_start_calls (trace (snd (start user (snd (start user sys)))))
      <= S (on_start_calls (trace sys)))%nat.
Proof.
  intros fsm Hok Hlog. subst fsm.
  assert (Hstop : forall sys0,
            state_transition_table (_fsm (self sys0))
            = state_transition_table (_fsm (self sys)) ->
            state (_fsm (self (snd (stop user sys0)))) <> RUNNING).
  { intros sys0 Ht.
    pose proof (hoare_run _ _ _ _ sys0 (stop_not_running user _ Hok) Ht) as H.
    destruct (stop user sys0) as [[[]|e] sys1]; apply H. }
  split; [|split].
  - intros Hnone. rewrite (start_invalid user sys Hnone Hlog).
    split; [reflexivity|]. by apply Hstop.
  - intros next Hnext s' tr'. subst s' tr'.
    pose proof (start_valid user sys next Hnext Hlog) as Hrun. cbv zeta in Hrun.
    assert (Hnext' : next <> RUNNING).
    { intros ->. apply (proj1 (proj2 (proj2 Hok))) in Hnext. discriminate. }
    split; [|split; [|split]].
    + intros Hd. by rewrite Hrun, Hd.
    + intros [d Hd] He. by rewrite Hrun, Hd, He.
    + intros [d Hd] [e He] ex Hex. by rewrite Hrun, Hd, He, Hex.
    + intros Hcases. rewrite Hrun.
      destruct (_data_engine (self sys)) as [d|]; [|exact Hnext'].
      destruct (_exec_engine (self sys)) as [e|]; [|exact Hnext'].
      destruct Hcases as [?|[?|[ex Hex]]]; [done|done|].
      rewrite Hex. by apply Hstop.
  - by apply (start_twice_calls_on_start_once user _ Hok).
Qed.

(** C3 as stated does not hold: with the data engine missing, [start] logs
    an error and returns with the strategy left in Starting; [stop] is not
    entered. *)
Lemma start_without_engine_does_not_stop :
  ~ (forall (user : UserCode) (sys : Sys),
       lifecycle_table_ok (state_transition_table (_fsm (self sys))) ->
       is_Some (log (self sys)) ->
       _data_engine (self sys) = None \/ _exec_engine (self sys) = None ->
       state (_fsm (self (snd (start user sys)))) <> RUNNING
       /\ exists tail,
            trace (snd (start user sys)) = trace sys ++ tail
            /\ "STOP" ∈ triggers tail).
Proof.
  intros Hclaim.
  destruct (Hclaim base_class without_data_engine) as (_ & tail & Htail & Hin).
  - apply component_transitions_ok.
  - by eexists.
  - by left.
  - vm_compute in Htail. subst tail. vm_compute in Hin.
    apply list_elem_of_singleton in Hin. discriminate.
Qed.

Example start_without_data_engine :
  start base_class without_data_engine
  = (Ok tt,
     mkSys (set_fsm (mkFiniteStateMachine component_transitions STARTING)
              (self without_data_engine))
       [Trigger "START"; Log INF "state=...";
        Log ERR "Cannot start strategy (the data engine is not registered)."]).
Proof. vm_compute. reflexivity. Qed.

Lemma start_degrades_safely_witness :
  state (_fsm (self (snd (start base_class running)))) <> RUNNING
  /\ state (_fsm (self (snd (start base_class without_data_engine)))) <> RUNNING
  /\ state (_fsm (self (snd (start failing_on_start registered)))) <> RUNNING
  /\ (on_start_calls
        (trace (snd (start base_class (snd (start base_class registered)))))
      <= 1)%nat.
Proof.
  split; [|split; [|split]].
  - apply (proj1 (start_degrades_safely base_class running
                    component_transitions_ok
                    (ex_intro _ mkLoggerAdapter eq_refl))).
    reflexivity.
  - apply (proj1 (proj2 (start_degrades_safely base_class without_data_engine
                           component_transitions_ok
                           (ex_intro _ mkLoggerAdapter eq_refl)))
             STARTING eq_refl).
    left. reflexivity.
  - apply (proj1 (proj2 (start_degrades_safely failing_on_start registered
                           component_transitions_ok
                           (ex_intro _ mkLoggerAdapter eq_refl)))
             STARTING eq_refl).
    right. right. by eexists.
  - apply (proj2 (proj2 (start_degrades_safely base_class registered
                           component_transitions_ok
                           (ex_intro _ mkLoggerAdapter eq_refl)))).
Defined.

End StrategyFacts.

(** * TradingStrategy: further properties of its methods and of runs of calls *)
Module StrategyRunsFacts.
Import Strategy StrategyExamples StrategyFacts.

(** *** Order sides *)

(** [get_opposite_side] refuses the undefined side; on the two others it
    answers the other one, so that taking the opposite twice gives the side
    back, and it never answers the undefined side. The strategy is not
    touched. *)
Lemma get_opposite_side_involution (side : OrderSide) (sys : Sys) :
  (side = UNDEFINED_SIDE ->
     exists msg, get_opposite_side side sys = (Raise (ValueError msg), sys))
  /\ (side <> UNDEFINED_SIDE ->
      exists opposite,
        get_opposite_side side sys = (Ok opposite, sys)
        /\ opposite <> side /\ opposite <> UNDEFINED_SIDE
        /\ get_opposite_side opposite sys = (Ok side, sys)).
Proof.
  split.
  - intros ->. eexists. reflexivity.
  - intros Hside. destruct side; [done| |].
    + exists SELL. repeat split; discriminate.
    + exists BUY. repeat split; discriminate.
Qed.

(** *** The lifecycle state *)

Ltac fsm_side :=
  intros [? ?] ?; simpl in *;
  repeat match goal with H : exists _, _ |- _ => destruct H end;
  simpl in *; congruence.

Lemma table_kept (user : UserCode) (int : string -> option Z) (op : Op)
    (table : ComponentState -> string -> option ComponentState) :
  preserves (fun sys => state_transition_table (_fsm (self sys)) = table)
    (run_op user int op).
Proof. destruct op; simpl run_op; preserves_steps; fsm_side. Qed.

Lemma fsm_kept (user : UserCode) (int : string -> option Z) (op : Op)
    (fsm : FiniteStateMachine) :
  lifecycle op = false ->
  preserves (fun sys => _fsm (self sys) = fsm) (run_op user int op).
Proof.
  intros Hop. destruct op; try discriminate; simpl run_op;
    preserves_steps; fsm_side.
Qed.

(** X14: No call ever replaces the trigger table of the strategy, and only the
    five lifecycle calls change its state: over a run of any other calls
    (registrations, data and event handlers, commands, save and load) the
    lifecycle state stays what it was. *)
Theorem only_lifecycle_calls_change_state (user : UserCode)
    (int : string -> option Z) (ops : list Op) (sys : Sys) :
  state_transition_table (_fsm (self (run_ops user int ops sys)))
  = state_transition_table (_fsm (self sys))
  /\ (Forall (fun op => lifecycle op = false) ops ->
      _fsm (self (run_ops user int ops sys)) = _fsm (self sys)).
Proof.
  split.
  - revert sys. induction ops as [|op ops IH]; intros sys; [reflexivity|].
    simpl. rewrite IH.
    by apply (preserves_run _ _ _ (table_kept user int op _)).
  - intros Hops. revert sys.
    induction Hops as [|op ops Hop _ IH]; intros sys; [reflexivity|].
    simpl. rewrite IH.
    by apply (preserves_run _ _ _ (fsm_kept user int op _ Hop)).
Qed.

Lemma terminal_kept (user : UserCode) (int : string -> option Z) (op : Op)
    (fsm : FiniteStateMachine) :
  (forall trigger,
     state_transition_table fsm (state fsm) trigger = None) ->
  preserves (fun sys => _fsm (self sys) = fsm) (run_op user int op).
Proof.
  intros Hterminal.
  destruct op; simpl run_op; preserves_steps;
    intros [? ?] ?; simpl in *;
    repeat match goal with H : exists _, _ |- _ => destruct H end;
    simpl in *; try congruence;
    match goal with
    | Hs : _fsm ?s = fsm,
      Hn : state_transition_table (_fsm ?s) (state (_fsm ?s)) _ = Some _
      |- _ => rewrite Hs, Hterminal in Hn; discriminate
    end.
Qed.

Lemma terminal_run (user : UserCode) (int : string -> option Z)
    (fsm : FiniteStateMachine) (ops : list Op) :
  (forall trigger,
     state_transition_table fsm (state fsm) trigger = None) ->
  forall sys, _fsm (self sys) = fsm ->
  _fsm (self (run_ops user int ops sys)) = fsm.
Proof.
  intros Hterminal.
  induction ops as [|op ops IH]; intros sys Hsys; [exact Hsys|].
  simpl. apply IH.
  by apply (preserves_run _ _ _ (terminal_kept user int op _ Hterminal)).
Qed.

(** X15: A state from which the table lists no trigger is terminal for the
    strategy: whatever calls follow, [start], [resume], [reset] and the
    others included, the lifecycle state stays that state. *)
Theorem terminal_state_is_kept (user : UserCode) (int : string -> option Z)
    (ops : list Op) (sys : Sys) :
  (forall trigger,
     state_transition_table (_fsm (self sys)) (state (_fsm (self sys))) trigger
     = None) ->
  _fsm (self (run_ops user int ops sys)) = _fsm (self sys).
Proof.
  intros Hterminal. by apply terminal_run.
Qed.

(** *** Refused triggers *)


(** *** Hooks that raise *)

(** [guarded hook], run: the call, and when the hook raises the logged
    exception, which is raised again exactly when [reraise_exceptions] is
    set. *)
Lemma guarded_hook_run (hook : Hook) (body : TradingStrategy -> option exn)
    (sys : Sys) :
  is_Some (log (self sys)) ->
  guarded (run_hook hook body) sys
  = match body (self sys) with
    | None => (Ok tt, mkSys (self sys) (trace sys ++ [Call hook]))
    | Some ex =>
        (if reraise_exceptions (self sys) then Raise ex else Ok tt,
         mkSys (self sys) (trace sys ++ [Call hook; LogException ex]))
    end.
Proof.
  destruct sys as [s tr]. intros [lg Hlog]. cbn [self trace] in *.
  unfold guarded, run_hook, log_exception, attr, this, emit.
  monad_simpl. destruct (body s) as [ex|]; monad_simpl; [|reflexivity].
  rewrite Hlog. monad_simpl.
  destruct (reraise_exceptions s); monad_simpl; by rewrite <- app_assoc.
Qed.

(** X17: An exception raised by [on_data], [on_quote_tick], [on_trade_tick] or
    [on_bar] in a running strategy is logged; the handler then returns
    normally unless [reraise_exceptions] is set, in which case it raises
    that exception. Either way the strategy itself is left as it was. *)
Theorem hook_exceptions_follow_reraise_flag (user : UserCode) (sys : Sys)
    (ex : exn) :
  is_Some (log (self sys)) ->
  state (_fsm (self sys)) = RUNNING ->
  let outcome : result unit :=
    if reraise_exceptions (self sys) then Raise ex else Ok tt in
  (forall data, on_data_body user (self sys) data = Some ex ->
     handle_data user data sys
     = (outcome,
        mkSys (self sys)
          (trace sys ++ [Call (on_data_ data); LogException ex])))
  /\ (forall tick, on_quote_tick_body user (self sys) tick = Some ex ->
        handle_quote_tick user tick false sys
        = (outcome,
           mkSys (self sys)
             ((trace sys
               ++ map (fun i => IndicatorQuoteTick i tick)
                    (default [] (_indicators_for_quotes (self sys)
                                   !! quote_symbol tick)))
              ++ [Call (on_quote_tick_ tick); LogException ex])))
  /\ (forall tick, on_trade_tick_body user (self sys) tick = Some ex ->
        handle_trade_tick user tick false sys
        = (outcome,
           mkSys (self sys)
             ((trace sys
               ++ map (fun i => IndicatorTradeTick i tick)
                    (default [] (_indicators_for_trades (self sys)
                                   !! trade_symbol tick)))
              ++ [Call (on_trade_tick_ tick); LogException ex])))
  /\ (forall bar_type bar, on_bar_body user (self sys) bar_type bar = Some ex ->
        handle_bar user bar_type bar false sys
        = (outcome,
           mkSys (self sys)
             ((trace sys
               ++ map (fun i => IndicatorBar i bar)
                    (default [] (_indicators_for_bars (self sys) !! bar_type)))
              ++ [Call (on_bar_ bar_type bar); LogException ex]))).
Proof.
  intros Hlog Hrun outcome. subst outcome.
  assert (Hshape : forall (registered : option (list Indicator))
                     (update_of : Indicator -> Effect) hook body,
            body (self sys) = Some ex ->
            (match registered with
             | Some indicators =>
                 for_each indicators (fun indicator => emit (update_of indicator))
             | None => ret tt
             end ≫= fun _ =>
               this ≫= fun s =>
                 if decide (state (_fsm s) = RUNNING)
                 then guarded (run_hook hook body)
                 else ret tt) sys
            = (if reraise_exceptions (self sys) then Raise ex else Ok tt,
               mkSys (self sys)
                 ((trace sys ++ map update_of (default [] registered))
                  ++ [Call hook; LogException ex]))).
  { intros registered update_of hook body Hbody.
    rewrite bind_run.
    assert (Hupdates :
      match registered with
      | Some indicators =>
          for_each indicators (fun indicator => emit (update_of indicator))
      | None => ret tt
      end sys
      = (Ok tt, mkSys (self sys)
                  (trace sys ++ map update_of (default [] registered)))).
    { destruct registered as [indicators|]; simpl.
      - apply for_each_emit.
      - destruct sys. unfold ret. simpl. by rewrite app_nil_r. }
    rewrite Hupdates. rewrite bind_run. unfold this at 1. cbv beta iota.
    cbn [self]. rewrite decide_True by exact Hrun.
    rewrite guarded_hook_run by exact Hlog. cbn [self trace].
    by rewrite Hbody. }
  split; [|split; [|split]].
  - intros data Hbody. unfold handle_data, on_data.
    rewrite bind_run. unfold this at 1. cbv beta iota.
    rewrite decide_True by exact Hrun.
    rewrite guarded_hook_run by exact Hlog. by rewrite Hbody.
  - intros tick Hbody. unfold handle_quote_tick, on_quote_tick.
    rewrite bind_run. unfold this at 1. cbv beta iota.
    apply (Hshape (_indicators_for_quotes (self sys) !! quote_symbol tick)
             (fun i => IndicatorQuoteTick i tick) _ _ Hbody).
  - intros tick Hbody. unfold handle_trade_tick, on_trade_tick.
    rewrite bind_run. unfold this at 1. cbv beta iota.
    apply (Hshape (_indicators_for_trades (self sys) !! trade_symbol tick)
             (fun i => IndicatorTradeTick i tick) _ _ Hbody).
  - intros bar_type bar Hbody. unfold handle_bar, on_bar.
    rewrite bind_run. unfold this at 1. cbv beta iota.
    apply (Hshape (_indicators_for_bars (self sys) !! bar_type)
             (fun i => IndicatorBar i bar) _ _ Hbody).
Qed.

(** *** Historical batches *)

Lemma for_each_appends {A} (body : A -> M Sys unit)
    (f : TradingStrategy -> A -> list Effect) :
  (forall x sys,
     body x sys = (Ok tt, mkSys (self sys) (trace sys ++ f (self sys) x))) ->
  forall xs sys,
    for_each xs body sys
    = (Ok tt, mkSys (self sys) (trace sys ++ flat_map (f (self sys)) xs)).
Proof.
  intros Hbody xs. induction xs as [|x xs IH]; intros sys.
  - destruct sys. simpl. unfold ret. by rewrite app_nil_r.
  - simpl for_each. unfold bind. rewrite Hbody, IH. cbn [self trace flat_map].
    by rewrite <- app_assoc.
Qed.

Lemma updates_run (registered : option (list Indicator))
    (update_of : Indicator -> Effect) (sys : Sys) :
  (match registered with
   | Some indicators =>
       for_each indicators (fun indicator => emit (update_of indicator))
   | None => ret tt
   end ≫= fun _ => ret tt) sys
  = (Ok tt, mkSys (self sys)
              (trace sys ++ map update_of (default [] registered))).
Proof.
  rewrite bind_run. destruct registered as [indicators|]; simpl.
  - by rewrite for_each_emit.
  - destruct sys. unfold ret. simpl. by rewrite app_nil_r.
Qed.

Lemma hooks_called_updates {A} (f : A -> list Indicator)
    (update_of : Indicator -> A -> Effect) (xs : list A) :
  (forall i x, hooks_called [update_of i x] = []
               /\ commands [update_of i x] = []) ->
  hooks_called (flat_map (fun x => map (fun i => update_of i x) (f x)) xs) = []
  /\ commands (flat_map (fun x => map (fun i => update_of i x) (f x)) xs) = [].
Proof.
  intros Hf. induction xs as [|x xs [IH1 IH2]]; [done|]. cbn [flat_map].
  rewrite hooks_called_app, commands_app, IH1, IH2, !app_nil_r.
  induction (f x) as [|i l [IHl1 IHl2]]; [done|]. cbn [map].
  change (update_of i x :: map (fun i0 => update_of i0 x) l)
    with ([update_of i x] ++ map (fun i0 => update_of i0 x) l).
  rewrite hooks_called_app, commands_app, IHl1, IHl2.
  destruct (Hf i x) as [-> ->]. done.
Qed.

(** X18: The batch handlers pass historical data to the indicators only: with a
    logger in place, [handle_quote_ticks] and [handle_trade_ticks] log the
    batch and then update, tick by tick in the order of the list, the
    indicators registered for the tick's symbol; [handle_bars] does the
    same for bars whose first timestamp is not after the last. None of them
    calls a hook or sends a command, in any lifecycle state, and the
    strategy itself is left as it was. *)
Theorem historical_batches_update_indicators_only (user : UserCode)
    (sys : Sys) :
  is_Some (log (self sys)) ->
  (forall ticks,
     let updates :=
       flat_map (fun tick =>
                   map (fun i => IndicatorQuoteTick i tick)
                     (default [] (_indicators_for_quotes (self sys)
                                    !! quote_symbol tick))) ticks in
     handle_quote_ticks user ticks sys
     = (Ok tt,
        mkSys (self sys)
          ((trace sys
            ++ [match ticks with
                | [] => Log WRN "Received <QuoteTick[]> data with no ticks."
                | _ :: _ => Log INF "Received <QuoteTick[]> data."
                end]) ++ updates))
     /\ hooks_called updates = [] /\ commands updates = [])
  /\ (forall ticks,
        let updates :=
          flat_map (fun tick =>
                      map (fun i => IndicatorTradeTick i tick)
                        (default [] (_indicators_for_trades (self sys)
                                       !! trade_symbol tick))) ticks in
        handle_trade_ticks user ticks sys
        = (Ok tt,
           mkSys (self sys)
             ((trace sys
               ++ [match ticks with
                   | [] => Log WRN "Received <TradeTick[]> data with no ticks."
                   | _ :: _ => Log INF "Received <TradeTick[]> data."
                   end]) ++ updates))
        /\ hooks_called updates = [] /\ commands updates = [])
  /\ (forall bar_type bars,
        (forall first final,
           head bars = Some first -> last bars = Some final ->
           timestamp first <= timestamp final) ->
        let updates :=
          flat_map (fun bar =>
                      map (fun i => IndicatorBar i bar)
                        (default [] (_indicators_for_bars (self sys)
                                       !! bar_type))) bars in
        handle_bars user bar_type bars sys
        = (Ok tt,
           mkSys (self sys)
             ((trace sys ++ [Log INF "Received <Bar[]> data."]) ++ updates))
        /\ hooks_called updates = [] /\ commands updates = []).
Proof.
  intros Hlog. split; [|split].
  - intros ticks updates. subst updates. split.
    2:{ apply (hooks_called_updates
                 (fun tick => default [] (_indicators_for_quotes (self sys)
                                            !! quote_symbol tick))
                 IndicatorQuoteTick). done. }
    unfold handle_quote_ticks. rewrite bind_run.
    assert (Hl : forall level msg,
              log_msg level msg sys
              = (Ok tt, mkSys (self sys) (trace sys ++ [Log level msg])))
      by (intros; by apply log_msg_run).
    assert (Hloop : forall sys0,
              for_each ticks (fun tick => handle_quote_tick user tick true) sys0
              = (Ok tt,
                 mkSys (self sys0)
                   (trace sys0
                    ++ flat_map (fun tick =>
                         map (fun i => IndicatorQuoteTick i tick)
                           (default [] (_indicators_for_quotes (self sys0)
                                          !! quote_symbol tick))) ticks))).
    { apply (for_each_appends _
               (fun s tick => map (fun i => IndicatorQuoteTick i tick)
                                (default [] (_indicators_for_quotes s
                                               !! quote_symbol tick)))).
      intros tick sys0. unfold handle_quote_tick.
      rewrite bind_run. unfold this at 1. cbv beta iota.
      apply updates_run. }
    destruct ticks as [|tick ticks]; rewrite Hl, Hloop; reflexivity.
  - intros ticks updates. subst updates. split.
    2:{ apply (hooks_called_updates
                 (fun tick => default [] (_indicators_for_trades (self sys)
                                            !! trade_symbol tick))
                 IndicatorTradeTick). done. }
    unfold handle_trade_ticks. rewrite bind_run.
    assert (Hl : forall level msg,
              log_msg level msg sys
              = (Ok tt, mkSys (self sys) (trace sys ++ [Log level msg])))
      by (intros; by apply log_msg_run).
    assert (Hloop : forall sys0,
              for_each ticks (fun tick => handle_trade_tick user tick true) sys0
              = (Ok tt,
                 mkSys (self sys0)
                   (trace sys0
                    ++ flat_map (fun tick =>
                         map (fun i => IndicatorTradeTick i tick)
                           (default [] (_indicators_for_trades (self sys0)
                                          !! trade_symbol tick))) ticks))).
    { apply (for_each_appends _
               (fun s tick => map (fun i => IndicatorTradeTick i tick)
                                (default [] (_indicators_for_trades s
                                               !! trade_symbol tick)))).
      intros tick sys0. unfold handle_trade_tick.
      rewrite bind_run. unfold this at 1. cbv beta iota.
      apply updates_run. }
    destruct ticks as [|tick ticks]; rewrite Hl, Hloop; reflexivity.
  - intros bar_type bars Hends updates. subst updates. split.
    2:{ apply (hooks_called_updates
                 (fun _ => default [] (_indicators_for_bars (self sys)
                                         !! bar_type))
                 IndicatorBar). done. }
    unfold handle_bars. rewrite bind_run, log_msg_run by exact Hlog.
    rewrite bind_run.
    assert (Hcheck : forall sys0 : Sys,
              match head bars, last bars with
              | Some first, Some final =>
                  if bool_decide (timestamp first > timestamp final)
                  then raise (RuntimeError
                         "Cannot handle <Bar[]> data (incorrectly sorted).")
                  else ret tt
              | _, _ => ret tt
              end sys0 = (Ok tt, sys0)).
    { intros sys0. destruct (head bars) as [first|]; [|reflexivity].
      destruct (last bars) as [final|]; [|reflexivity].
      rewrite bool_decide_eq_false_2; [reflexivity|].
      specialize (Hends first final eq_refl eq_refl). lia. }
    rewrite Hcheck.
    assert (Hloop : forall sys0,
              for_each bars (fun bar => handle_bar user bar_type bar true) sys0
              = (Ok tt,
                 mkSys (self sys0)
                   (trace sys0
                    ++ flat_map (fun bar =>
                         map (fun i => IndicatorBar i bar)
                           (default [] (_indicators_for_bars (self sys0)
                                          !! bar_type))) bars))).
    { apply (for_each_appends _
               (fun s bar => map (fun i => IndicatorBar i bar)
                               (default [] (_indicators_for_bars s
                                              !! bar_type)))).
      intros bar sys0. unfold handle_bar.
      rewrite bind_run. unfold this at 1. cbv beta iota.
      apply updates_run. }
    rewrite Hloop. reflexivity.
Qed.

(** *** Registered stop-loss and take-profit orders *)


(** The last step of [handle_event]: the guarded [on_event], when Running. *)
Lemma handle_event_tail (user : UserCode) (event : Event) (sys : Sys) :
  is_Some (log (self sys)) ->
  (this ≫= fun s =>
     if decide (state (_fsm s) = RUNNING)
     then guarded (on_event user event)
     else ret tt) sys
  = if decide (state (_fsm (self sys)) = RUNNING)
    then match on_event_body user (self sys) event with
         | None => (Ok tt, mkSys (self sys) (trace sys ++ [Call (on_event_ event)]))
         | Some ex =>
             (if reraise_exceptions (self sys) then Raise ex else Ok tt,
              mkSys (self sys)
                (trace sys ++ [Call (on_event_ event); LogException ex]))
         end
    else (Ok tt, sys).
Proof.
  intros Hlog. rewrite bind_run. unfold this at 1. cbv beta iota.
  case_decide; [|reflexivity].
  unfold on_event. by rewrite guarded_hook_run.
Qed.

Ltac registry_side :=
  intros [? ?] ?; simpl in *;
  repeat match goal with H : exists _, _ |- _ => destruct H end;
  simpl in *;
  repeat match goal with
         | H : bool_decide _ = false |- _ => apply bool_decide_eq_false in H
         end;
  first [ assumption
        | apply elem_of_union; right; assumption
        | apply elem_of_difference; split;
          [assumption | rewrite elem_of_singleton; congruence] ].

Lemma stop_loss_kept (user : UserCode) (int : string -> option Z)
    (id : ClientOrderId) (op : Op) :
  forgets id op = false ->
  preserves (fun sys => id ∈ _stop_loss_ids (self sys)) (run_op user int op).
Proof.
  intros Hop. destruct op; try discriminate; simpl run_op;
    preserves_steps; registry_side.
Qed.

Lemma take_profit_kept (user : UserCode) (int : string -> option Z)
    (id : ClientOrderId) (op : Op) :
  forgets id op = false ->
  preserves (fun sys => id ∈ _take_profit_ids (self sys)) (run_op user int op).
Proof.
  intros Hop. destruct op; try discriminate; simpl run_op;
    preserves_steps; registry_side.
Qed.

(** The two discards of [handle_event]. *)
Lemma discards_run (id : ClientOrderId) (sys : Sys) :
  (this ≫= fun s =>
     update (set_stop_loss_ids (_stop_loss_ids s ∖ {[id]}));;
     this ≫= fun s =>
       update (set_take_profit_ids (_take_profit_ids s ∖ {[id]}))) sys
  = (Ok tt,
     mkSys (set_take_profit_ids (_take_profit_ids (self sys) ∖ {[id]})
              (set_stop_loss_ids (_stop_loss_ids (self sys) ∖ {[id]})
                 (self sys)))
       (trace sys)).
Proof. destruct sys as [s tr]. reflexivity. Qed.

(** [handle_event] on a completion event that does not lead to
    flattening. *)
Lemma handle_event_completion_run (user : UserCode) (event : Event)
    (id : ClientOrderId) (sys : Sys) :
  is_Some (log (self sys)) ->
  _ORDER_COMPLETION_TRIGGERS event = Some id ->
  (event = OrderRejected id ->
   flatten_on_reject (self sys) = false
   \/ ((id ∉ _stop_loss_ids (self sys))
       /\ (id ∉ _take_profit_ids (self sys)))) ->
  let s' :=
    set_take_profit_ids (_take_profit_ids (self sys) ∖ {[id]})
      (set_stop_loss_ids (_stop_loss_ids (self sys) ∖ {[id]}) (self sys)) in
  exists r tail,
    handle_event user event sys = (r, mkSys s' (trace sys ++ tail))
    /\ commands tail = []
    /\ hooks_called tail
       = (if bool_decide (state (_fsm (self sys)) = RUNNING)
          then [on_event_ event] else [])
    /\ (state (_fsm (self sys)) <> RUNNING
        \/ on_event_body user s' event = None
        \/ reraise_exceptions (self sys) = false -> r = Ok tt).
Proof.
  intros Hlog Hid Hrej s'. subst s'.
  unfold handle_event. rewrite bind_run. unfold this at 1. cbv beta iota.
  rewrite bind_run.
  assert (Hfirst : exists level,
    match event with
    | OrderRejected id =>
        log_msg WRN "RECV EVT.";;
        if flatten_on_reject (self sys) then _flatten_on_reject id else ret tt
    | OrderCancelReject _ => log_msg WRN "RECV EVT."
    | PositionClosed position =>
        update (set_flattening_ids
                  (_flattening_ids (self sys) ∖ {[cl_pos_id position]}))
    | _ => log_msg INF "RECV EVT."
    end sys
    = (Ok tt, mkSys (self sys) (trace sys ++ [Log level "RECV EVT."]))).
  { destruct event; try discriminate; injection Hid as ->;
      try (exists INF; by apply log_msg_run).
    exists WRN. rewrite bind_run, log_msg_run by exact Hlog.
    destruct (Hrej eq_refl) as [->|[Hsl Htp]]; [reflexivity|].
    destruct (flatten_on_reject (self sys)); [|reflexivity].
    unfold _flatten_on_reject. rewrite bind_run. unfold this at 1.
    cbv beta iota. cbn [self].
    rewrite decide_True by done. reflexivity. }
  destruct Hfirst as (level & ->). rewrite Hid.
  rewrite bind_run, discards_run. cbn [self trace].
  rewrite handle_event_tail by exact Hlog. cbn [self trace].
  cbn [_fsm set_take_profit_ids set_stop_loss_ids reraise_exceptions].
  case_decide as Hrun.
  - rewrite bool_decide_eq_true_2 by exact Hrun.
    destruct (on_event_body user _ event) as [ex|] eqn:Hbody;
      rewrite <- app_assoc; eexists _, _; (split; [reflexivity|]);
      (split; [reflexivity|]); (split; [reflexivity|]).
    + intros [?|[?|Hr]]; [done|done|by rewrite Hr].
    + done.
  - rewrite bool_decide_eq_false_2 by exact Hrun.
    eexists _, _. split; [reflexivity|]. split; [reflexivity|]. done.
Qed.

(** X20: An order event that completes an order (invalid, denied, rejected,
    cancelled, expired, filled) takes the order's id out of the stop-loss
    and the take-profit registry and leaves every other registration, and
    the rest of the strategy, as it was; no command is sent (for a rejected
    order: when flatten-on-reject is off or the order is not registered),
    and [on_event] is called exactly when the strategy is Running. Until
    such an event for its id is handled, or the strategy is reset, a
    registered order stays registered over any run of calls. *)
Theorem completed_order_is_released (user : UserCode)
    (int : string -> option Z) (id : ClientOrderId) (sys : Sys) :
  (forall event,
     is_Some (log (self sys)) ->
     _ORDER_COMPLETION_TRIGGERS event = Some id ->
     (event = OrderRejected id ->
      flatten_on_reject (self sys) = false
      \/ ((id ∉ _stop_loss_ids (self sys))
          /\ (id ∉ _take_profit_ids (self sys)))) ->
     let s' :=
       set_take_profit_ids (_take_profit_ids (self sys) ∖ {[id]})
         (set_stop_loss_ids (_stop_loss_ids (self sys) ∖ {[id]}) (self sys)) in
     exists r tail,
       handle_event user event sys = (r, mkSys s' (trace sys ++ tail))
       /\ commands tail = []
       /\ hooks_called tail
          = (if bool_decide (state (_fsm (self sys)) = RUNNING)
             then [on_event_ event] else [])
       /\ (state (_fsm (self sys)) <> RUNNING
           \/ on_event_body user s' event = None
           \/ reraise_exceptions (self sys) = false -> r = Ok tt))
  /\ (forall ops,
        Forall (fun op => forgets id op = false) ops ->
        (id ∈ _stop_loss_ids (self sys) ->
         id ∈ _stop_loss_ids (self (run_ops user int ops sys)))
        /\ (id ∈ _take_profit_ids (self sys) ->
            id ∈ _take_profit_ids (self (run_ops user int ops sys)))).
Proof.
  split.
  - intros event. apply handle_event_completion_run.
  - intros ops Hops. split; intros Hin.
    + revert sys Hin. induction Hops as [|op ops Hop _ IH]; intros sys Hin.
      * exact Hin.
      * simpl. apply IH.
        apply (preserves_run _ _ _ (stop_loss_kept user int id op Hop) Hin).
    + revert sys Hin. induction Hops as [|op ops Hop _ IH]; intros sys Hin.
      * exact Hin.
      * simpl. apply IH.
        apply (preserves_run _ _ _ (take_profit_kept user int id op Hop) Hin).
Qed.

(** *** Cancelling and flattening *)

Lemma for_each_appends_if {A} (P : TradingStrategy -> Prop)
    (body : A -> M Sys unit) (f : TradingStrategy -> A -> list Effect) :
  (forall x sys, P (self sys) ->
     body x sys = (Ok tt, mkSys (self sys) (trace sys ++ f (self sys) x))) ->
  forall xs sys, P (self sys) ->
    for_each xs body sys
    = (Ok tt, mkSys (self sys) (trace sys ++ flat_map (f (self sys)) xs)).
Proof.
  intros Hbody xs. induction xs as [|x xs IH]; intros sys HP.
  - destruct sys. simpl. unfold ret. by rewrite app_nil_r.
  - simpl for_each. unfold bind. rewrite Hbody by exact HP.
    rewrite IH by exact HP. cbn [self trace flat_map].
    by rewrite <- app_assoc.
Qed.

Lemma cancel_order_run trader engine (order : Order) (sys : Sys) :
  ready trader engine (self sys) ->
  cancel_order order sys
  = (Ok tt,
     mkSys (self sys)
       (trace sys ++ [Log INF "CMD SENT CancelOrder.";
                      ExecuteCommand
                        (CancelOrder (Some trader) (account_id engine)
                           (cl_ord_id order))])).
Proof.
  intros (Htr & Heng & [lg Hlog] & [uf Huf] & [ck Hck] & _).
  unfold cancel_order, log_msg, attr, this, emit. monad_simpl.
  rewrite Htr, Heng, Huf, Hck. monad_simpl. rewrite Hlog. monad_simpl.
  by rewrite <- app_assoc.
Qed.

(** X21: From a strategy registered with a trader and the execution engine,
    [cancel_order] sends one [CancelOrder] for the order's id, and
    [cancel_all_orders] sends one for each working order the database
    lists for the strategy, in that order, and only logs when there is
    none; neither calls a hook or changes the strategy. *)
Theorem cancel_all_orders_cancels_each_working_order trader engine (sys : Sys) :
  ready trader engine (self sys) ->
  let working := get_orders_working (database engine) (id (self sys)) in
  (forall order,
     cancel_order order sys
     = (Ok tt,
        mkSys (self sys)
          (trace sys ++ [Log INF "CMD SENT CancelOrder.";
                         ExecuteCommand
                           (CancelOrder (Some trader) (account_id engine)
                              (cl_ord_id order))])))
  /\ exists tail,
       cancel_all_orders sys = (Ok tt, mkSys (self sys) (trace sys ++ tail))
       /\ commands tail
          = map (fun entry => CancelOrder (Some trader) (account_id engine)
                                entry.1) working
       /\ hooks_called tail = []
       /\ (working = [] -> tail = [Log INF "No working orders to cancel."]).
Proof.
  intros Hready working. subst working.
  split; [intros order; by apply cancel_order_run|].
  pose proof Hready as (Htr & Heng & Hlog & [uf Huf] & [ck Hck] & _).
  unfold cancel_all_orders. rewrite bind_run. unfold this at 1.
  cbv beta iota. rewrite bind_run, Heng.
  unfold Condition.not_none at 1, ret at 1. cbv beta iota zeta.
  destruct (get_orders_working (database engine) (id (self sys)))
    as [|entry working] eqn:Hworking.
  - rewrite log_msg_run by exact Hlog. eexists. split; [reflexivity|].
    repeat split.
  - rewrite bind_run, log_msg_run by exact Hlog. cbv beta iota.
    rewrite (for_each_appends_if (ready trader engine) _
               (fun _ '(order_id, _) =>
                  [Log INF "CMD SENT CancelOrder.";
                   ExecuteCommand
                     (CancelOrder (Some trader) (account_id engine) order_id)])).
    + cbn [self trace]. rewrite <- app_assoc. eexists. split; [reflexivity|].
      assert (Haux : forall l : list (ClientOrderId * Order),
                commands (flat_map (fun '(order_id, _) =>
                   [Log INF "CMD SENT CancelOrder.";
                    ExecuteCommand
                      (CancelOrder (Some trader) (account_id engine) order_id)]) l)
                = map (fun entry => CancelOrder (Some trader)
                                      (account_id engine) entry.1) l
                /\ hooks_called (flat_map (fun '(order_id, _) =>
                     [Log INF "CMD SENT CancelOrder.";
                      ExecuteCommand
                        (CancelOrder (Some trader) (account_id engine)
                           order_id)]) l) = []).
      { induction l as [|[order_id order] l [IH1 IH2]]; [done|].
        cbn [flat_map map]. rewrite commands_app, hooks_called_app, IH1, IH2.
        done. }
      rewrite commands_app, hooks_called_app.
      rewrite (proj1 (Haux _)), (proj2 (Haux _)).
      split; [reflexivity|]. split; [reflexivity|discriminate].
    + intros [order_id order] sys0 Hready0.
      pose proof Hready0 as (Htr0 & Heng0 & [lg0 Hlog0] & [uf0 Huf0] & [ck0 Hck0] & _).
      unfold log_msg, attr, this, emit. monad_simpl.
      rewrite Htr0, Heng0, Huf0, Hck0. monad_simpl. rewrite Hlog0. monad_simpl.
      by rewrite <- app_assoc.
    + exact Hready.
Qed.

(** [flatten_position] on an open position that is not in flight. *)
Lemma flatten_position_open_run trader engine factory (p : ClientPositionId)
    (position : Position) (sys : Sys) :
  ready trader engine (self sys) ->
  order_factory (self sys) = Some factory ->
  p ∉ _flattening_ids (self sys) ->
  get_position (database engine) p = Some position ->
  is_closed position = false ->
  market_position position = LONG \/ market_position position = SHORT ->
  flatten_position p sys
  = (Ok tt,
     mkSys (set_flattening_ids ({[p]} ∪ _flattening_ids (self sys))
              (set_order_factory
                 (Some (mkOrderFactory (order_id_count factory + 1)))
                 (self sys)))
       (trace sys
        ++ [Log INF "Flattening position...";
            Log INF "CMD SENT SubmitOrder.";
            ExecuteCommand
              (SubmitOrder trader (account_id engine) (id (self sys)) p
                 (mkOrder (order_id_count factory + 1) (symbol position)
                    (if decide (market_position position = SHORT)
                     then BUY else SELL)
                    (quantity position)))])).
Proof.
  intros Hready Hf Hn Hpos Hclosed Hside.
  pose proof Hready as (Htr & Heng & Hlog & Huf & Hck & _).
  unfold flatten_position. rewrite bind_run. unfold this at 1.
  cbv beta iota. rewrite bind_run, Heng.
  unfold Condition.not_none at 1, ret at 1. cbv beta iota.
  rewrite decide_False by exact Hn. rewrite Hpos, Hclosed.
  rewrite bind_run.
  rewrite (order_factory_market_run _ _ _ _ factory) by
    (try exact Hf; apply get_flatten_side_run; auto).
  rewrite bind_run. unfold this at 1. cbv beta iota.
  rewrite bind_run. unfold update at 1, modify at 1. cbv beta iota.
  cbn [self trace].
  assert (Hready' : ready trader engine
            (set_flattening_ids
               ({[p]} ∪ _flattening_ids
                          (set_order_factory
                             (Some (mkOrderFactory (order_id_count factory + 1)))
                             (self sys)))
               (set_order_factory
                  (Some (mkOrderFactory (order_id_count factory + 1)))
                  (self sys)))).
  { destruct Hready as (? & ? & ? & ? & ? & ?). unfold ready. simpl.
    repeat split; eauto. }
  rewrite bind_run, log_msg_run by apply Hready'.
  rewrite (submit_order_run trader engine) by exact Hready'.
  cbn [self trace]. rewrite <- app_assoc. reflexivity.
Qed.

(** X22: [flatten_position] of a position that is not in flight, from a
    strategy registered with a trader and the execution engine: a position
    the database does not know is logged as an error, a closed position as
    a warning, and in both cases nothing is sent and the position is not
    put in flight; for an open long or short position one market order is
    submitted, for the full quantity on the opposite side, and the position
    is put in flight. *)
Theorem flatten_position_cases trader engine (p : ClientPositionId)
    (sys : Sys) :
  ready trader engine (self sys) ->
  p ∉ _flattening_ids (self sys) ->
  (get_position (database engine) p = None ->
     flatten_position p sys
     = (Ok tt,
        mkSys (self sys)
          (trace sys ++ [Log ERR
             "Cannot flatten position (cannot find in cached positions."])))
  /\ (forall position,
        get_position (database engine) p = Some position ->
        is_closed position = true ->
        flatten_position p sys
        = (Ok tt,
           mkSys (self sys)
             (trace sys ++ [Log WRN
                "Cannot flatten position (the position was already closed)."])))
  /\ (forall position,
        get_position (database engine) p = Some position ->
        is_closed position = false ->
        market_position position = LONG \/ market_position position = SHORT ->
        exists sys',
          flatten_position p sys = (Ok tt, sys')
          /\ _flattening_ids (self sys') = {[p]} ∪ _flattening_ids (self sys)
          /\ flatten_requests (trace sys')
             = flatten_requests (trace sys) ++ [flattening_of (p, position)]
          /\ length (commands (trace sys')) = S (length (commands (trace sys)))
          /\ ready trader engine (self sys')).
Proof.
  intros Hready Hn.
  pose proof Hready as (Htr & Heng & Hlog & Huf & Hck & [factory Hf]).
  assert (Hstart : forall k : TradingStrategy -> ExecutionEngine -> M Sys unit,
            (this ≫= fun s =>
               Condition.not_none (_exec_engine s) "execution_engine"
               ≫= k s) sys
            = k (self sys) engine sys).
  { intros k. rewrite bind_run. unfold this at 1. cbv beta iota.
    rewrite bind_run, Heng. reflexivity. }
  split; [|split].
  - intros Hpos. unfold flatten_position.
    rewrite (Hstart (fun s engine =>
               if decide (p ∈ _flattening_ids s) then _ else _)).
    rewrite decide_False by exact Hn. rewrite Hpos.
    by apply log_msg_run.
  - intros position Hpos Hclosed. unfold flatten_position.
    rewrite (Hstart (fun s engine =>
               if decide (p ∈ _flattening_ids s) then _ else _)).
    rewrite decide_False by exact Hn. rewrite Hpos, Hclosed.
    by apply log_msg_run.
  - intros position Hpos Hclosed Hside.
    rewrite (flatten_position_open_run trader engine factory p position)
      by assumption.
    eexists. split; [reflexivity|]. cbn [self trace].
    split; [reflexivity|]. split; [|split].
    + rewrite flatten_requests_app. reflexivity.
    + rewrite commands_app, length_app. simpl. lia.
    + destruct Hready as (? & ? & ? & ? & ? & ?). unfold ready. simpl.
      repeat split; eauto.
Qed.

(** X23: Flatten-on-reject: when a registered stop-loss or take-profit order of
    an open, long or short position that is not in flight is rejected, and
    the flag is set, handling the rejection submits exactly one market
    order that flattens the position, puts the position in flight and takes
    the order out of both registries; handling the same rejection once
    more sends nothing. *)
Theorem rejected_child_order_flattens_position (user : UserCode)
    trader engine (id : ClientOrderId) (p : ClientPositionId)
    (position : Position) (sys : Sys) :
  ready trader engine (self sys) ->
  flatten_on_reject (self sys) = true ->
  id ∈ _stop_loss_ids (self sys) \/ id ∈ _take_profit_ids (self sys) ->
  get_client_position_id (database engine) id = Some p ->
  is_position_open (database engine) p = true ->
  get_position (database engine) p = Some position ->
  is_closed position = false ->
  market_position position = LONG \/ market_position position = SHORT ->
  p ∉ _flattening_ids (self sys) ->
  let sys' := snd (handle_event user (OrderRejected id) sys) in
  flatten_requests (trace sys')
  = flatten_requests (trace sys) ++ [flattening_of (p, position)]
  /\ length (commands (trace sys')) = S (length (commands (trace sys)))
  /\ p ∈ _flattening_ids (self sys')
  /\ (id ∉ _stop_loss_ids (self sys')) /\ (id ∉ _take_profit_ids (self sys'))
  /\ commands (trace (snd (handle_event user (OrderRejected id) sys')))
     = commands (trace sys').
Proof.
  intros Hready Hflag Hreg Hpid Hopen Hpos Hclosed Hside Hn sys'.
  pose proof Hready as (Htr & Heng & Hlog & Huf & Hck & [factory Hf]).
  assert (Hrun : exists r tail,
    handle_event user (OrderRejected id) sys
    = (r,
       mkSys (set_take_profit_ids (_take_profit_ids (self sys) ∖ {[id]})
                (set_stop_loss_ids (_stop_loss_ids (self sys) ∖ {[id]})
                   (set_flattening_ids ({[p]} ∪ _flattening_ids (self sys))
                      (set_order_factory
                         (Some (mkOrderFactory (order_id_count factory + 1)))
                         (self sys)))))
         ((trace sys
           ++ [Log WRN "RECV EVT.";
               Log WRN "Rejected order was a registered child order, now flattening.";
               Log INF "Flattening position...";
               Log INF "CMD SENT SubmitOrder.";
               ExecuteCommand
                 (SubmitOrder trader (account_id engine) (Strategy.id (self sys)) p
                    (mkOrder (order_id_count factory + 1) (symbol position)
                       (if decide (market_position position = SHORT)
                        then BUY else SELL)
                       (quantity position)))]) ++ tail))
    /\ commands tail = []).
  { unfold handle_event. rewrite bind_run. unfold this at 1. cbv beta iota.
    rewrite bind_run. rewrite bind_run, log_msg_run by exact Hlog.
    rewrite Hflag. unfold _flatten_on_reject.
    rewrite bind_run. unfold this at 1. cbv beta iota. cbn [self trace].
    rewrite decide_False by (intros [? ?]; destruct Hreg; done).
    rewrite bind_run, Heng. unfold attr at 1, ret at 1. cbv beta iota.
    rewrite Hpid, Hopen.
    rewrite bind_run, log_msg_run by exact Hlog. cbn [self trace].
    rewrite (flatten_position_open_run trader engine factory p position)
      by assumption.
    cbn [self trace _ORDER_COMPLETION_TRIGGERS].
    rewrite bind_run, discards_run. cbn [self trace].
    rewrite handle_event_tail by exact Hlog. cbn [self trace].
    rewrite <- !app_assoc. simpl app.
    case_decide.
    - destruct (on_event_body user _ _) as [ex|];
        eexists _, _; (split; [f_equal; f_equal;
          rewrite <- !app_assoc; simpl; reflexivity|]); reflexivity.
    - eexists _, []. split; [by rewrite app_nil_r|]. reflexivity. }
  destruct Hrun as (r & tail & Hrun & Htail).
  subst sys'. rewrite Hrun. cbn [snd self trace].
  split; [|split; [|split; [|split; [|split]]]].
  - rewrite !flatten_requests_app. unfold flatten_requests at 3.
    rewrite Htail. simpl. by rewrite app_nil_r.
  - rewrite !commands_app, Htail, !length_app. simpl. lia.
  - simpl. apply elem_of_union. left. by apply elem_of_singleton.
  - simpl. rewrite elem_of_difference, elem_of_singleton. tauto.
  - simpl. rewrite elem_of_difference, elem_of_singleton. tauto.
  - match goal with |- context [handle_event user (OrderRejected id) ?x] =>
      destruct (handle_event_completion_run user (OrderRejected id) id x)
        as (r2 & tail2 & Hrun2 & Htail2 & _)
    end.
    + exact Hlog.
    + reflexivity.
    + intros _. right. simpl.
      rewrite !elem_of_difference, !elem_of_singleton. tauto.
    + rewrite Hrun2. cbn [snd trace]. rewrite commands_app, Htail2.
      by rewrite app_nil_r.
Qed.

(** *** Reset, dispose, resume *)

(** X24: A [reset] the state machine accepts (with a logger in place) returns
    normally, whether or not [on_reset] raises, and leaves the session
    cleared: no position in flight, no stop-loss or take-profit
    registered, no indicator registered, the order-id and position-id
    counts back at zero. The identifiers, the clock, the engines and the
    management flags are kept; [on_reset] is called once and no command is
    sent. *)
Theorem reset_clears_the_session (user : UserCode) (sys : Sys)
    (resetting next : ComponentState) :
  let table := state_transition_table (_fsm (self sys)) in
  is_Some (log (self sys)) ->
  table (state (_fsm (self sys))) "RESET" = Some resetting ->
  table resetting "RESET" = Some next ->
  exists sys',
    reset user sys = (Ok tt, sys')
    /\ session_cleared (self sys')
    /\ _fsm (self sys') = mkFiniteStateMachine table next
    /\ order_factory (self sys')
       = (fun _ => mkOrderFactory 0) <$> order_factory (self sys)
    /\ position_id_generator (self sys')
       = (fun _ => mkPositionIdGenerator 0) <$> position_id_generator (self sys)
    /\ (id (self sys'), trader_id (self sys'), clock (self sys'),
        log (self sys'), _data_engine (self sys'), _exec_engine (self sys'))
       = (id (self sys), trader_id (self sys), clock (self sys),
          log (self sys), _data_engine (self sys), _exec_engine (self sys))
    /\ (flatten_on_stop (self sys'), flatten_on_reject (self sys'),
        cancel_all_orders_on_stop (self sys'), reraise_exceptions (self sys'))
       = (flatten_on_stop (self sys), flatten_on_reject (self sys),
          cancel_all_orders_on_stop (self sys), reraise_exceptions (self sys))
    /\ exists tail,
         trace sys' = trace sys ++ tail
         /\ hooks_called tail = [on_reset_]
         /\ commands tail = []
         /\ triggers tail = ["RESET"; "RESET"].
Proof.
  intros table [lg Hlog] H1 H2. subst table.
  destruct sys as [s tr]. cbn [self trace] in *.
  unfold reset, try_except_InvalidStateTrigger, fsm_trigger, on_reset, run_hook,
    log_msg, log_exception, attr, this, update, emit.
  monad_simpl. rewrite H1. monad_simpl. rewrite Hlog. monad_simpl.
  destruct (order_factory s) as [factory|] eqn:Hof;
    destruct (position_id_generator s) as [generator|] eqn:Hpg; monad_simpl;
    (destruct (on_reset_body user _) as [ex|]; monad_simpl;
     rewrite ?Hlog; monad_simpl; rewrite H2; monad_simpl; rewrite ?Hlog;
     monad_simpl;
     eexists; (split; [reflexivity|]); simpl; rewrite ?Hof, ?Hpg;
     (split; [repeat split|]); (split; [reflexivity|]);
     (split; [reflexivity|]); (split; [reflexivity|]);
     (split; [congruence|]); (split; [reflexivity|]);
     eexists; rewrite <- !app_assoc; (split; [reflexivity|]);
     repeat split).
Qed.

(** X25: A [dispose] the state machine accepts (with a logger in place) calls
    [on_dispose] once, returns normally whether or not the hook raises,
    sends no command and changes nothing but the lifecycle state; when the
    state it ends in has no outgoing trigger, the strategy stays in that
    state over any run of calls that follows. *)
Theorem dispose_ends_disposed (user : UserCode) (int : string -> option Z)
    (sys : Sys) (disposing disposed : ComponentState) :
  let table := state_transition_table (_fsm (self sys)) in
  is_Some (log (self sys)) ->
  table (state (_fsm (self sys))) "DISPOSE" = Some disposing ->
  table disposing "DISPOSED" = Some disposed ->
  exists tail,
    dispose user sys
    = (Ok tt,
       mkSys (set_fsm (mkFiniteStateMachine table disposed) (self sys))
         (trace sys ++ tail))
    /\ hooks_called tail = [on_dispose_]
    /\ commands tail = []
    /\ ((forall trigger, table disposed trigger = None) ->
        forall ops,
          state (_fsm (self (run_ops user int ops (snd (dispose user sys)))))
          = disposed).
Proof.
  intros table [lg Hlog] H1 H2. subst table.
  assert (Hrun : exists tail,
    dispose user sys
    = (Ok tt,
       mkSys (set_fsm (mkFiniteStateMachine
                         (state_transition_table (_fsm (self sys))) disposed)
                (self sys))
         (trace sys ++ tail))
    /\ hooks_called tail = [on_dispose_]
    /\ commands tail = []).
  { destruct sys as [s tr]. cbn [self trace] in *.
    unfold dispose, try_except_InvalidStateTrigger, fsm_trigger, on_dispose,
      run_hook, log_msg, log_exception, attr, this, update, emit.
    monad_simpl. rewrite H1. monad_simpl. rewrite Hlog. monad_simpl.
    destruct (on_dispose_body user _) as [ex|]; monad_simpl;
      rewrite ?Hlog; monad_simpl; rewrite H2; monad_simpl; rewrite ?Hlog;
      monad_simpl; eexists; rewrite <- !app_assoc;
      (split; [reflexivity|]); split; reflexivity. }
  destruct Hrun as (tail & Hrun & Hhooks & Hcommands).
  exists tail. split; [exact Hrun|]. split; [exact Hhooks|].
  split; [exact Hcommands|].
  intros Hterminal ops. rewrite Hrun. cbn [snd].
  rewrite (terminal_run user int
             (mkFiniteStateMachine
                (state_transition_table (_fsm (self sys))) disposed));
    [reflexivity|exact Hterminal|reflexivity].
Qed.

Section Resume.
Variable user : UserCode.

Lemma resume_invalid (sys : Sys) :
  state_transition_table (_fsm (self sys)) (state (_fsm (self sys))) "RESUME"
  = None ->
  is_Some (log (self sys)) ->
  resume user sys
  = stop user (mkSys (self sys)
                 (trace sys ++ [Trigger "RESUME";
                                LogException (InvalidStateTrigger "RESUME")])).
Proof.
  intros Hnone Hlog. unfold resume, try_except_InvalidStateTrigger.
  rewrite bind_run. unfold try_except at 1.
  rewrite bind_run, (fsm_trigger_invalid _ _ Hnone). cbn [is_InvalidStateTrigger].
  rewrite bind_run, log_exception_run by exact Hlog. cbn [self trace].
  rewrite <- app_assoc. simpl app. rewrite bind_run.
  by destruct (stop user _) as [[[]|e] sys'].
Qed.

Lemma resume_valid (sys : Sys) next :
  state_transition_table (_fsm (self sys)) (state (_fsm (self sys))) "RESUME"
  = Some next ->
  is_Some (log (self sys)) ->
  let s' := set_fsm (mkFiniteStateMachine
                       (state_transition_table (_fsm (self sys))) next)
              (self sys) in
  let tr' := trace sys ++ [Trigger "RESUME"; Log INF "state=..."] in
  resume user sys
  = match on_resume_body user s' with
    | Some ex =>
        stop user (mkSys s' (tr' ++ [Call on_resume_; LogException ex]))
    | None =>
        (fsm_trigger "RUNNING" ≫= fun _ => log_msg INF "state=.")
          (mkSys s' (tr' ++ [Call on_resume_]))
    end.
Proof.
  intros Hnext Hlog s' tr'. subst s' tr'.
  unfold resume, try_except_InvalidStateTrigger.
  rewrite bind_run. unfold try_except at 1.
  rewrite bind_run, (fsm_trigger_valid _ _ _ Hnext). unfold ret at 1.
  cbv beta iota. cbn [negb].
  rewrite bind_run, log_msg_run by exact Hlog. cbn [self trace].
  rewrite <- app_assoc. simpl app.
  rewrite bind_run. unfold try_except at 1. rewrite bind_run.
  unfold on_resume at 1, run_hook at 1.
  rewrite bind_run. unfold emit at 1, modify at 1. cbv beta iota.
  rewrite bind_run. unfold this at 1. cbv beta iota. cbn [self trace].
  rewrite <- app_assoc. simpl app.
  destruct (on_resume_body user _) as [ex|].
  - unfold raise at 1. cbv beta iota.
    rewrite bind_run, log_exception_run by exact Hlog. cbn [self trace].
    rewrite <- ?app_assoc. simpl app. rewrite bind_run.
    by destruct (stop user _) as [[[]|e] sys'].
  - rewrite <- ?app_assoc. reflexivity.
Qed.
End Resume.

Lemma resume_on_start_calls (user : UserCode) (n : nat) :
  preserves (fun sys => on_start_calls (trace sys) = n) (resume user).
Proof.
  preserves_steps; intros [? ?] ?; simpl in *; try assumption;
    rewrite on_start_calls_snoc; simpl; lia.
Qed.

(** X26: [resume] on a strategy with a logger, whose trigger table is a
    lifecycle table: when RESUME is refused, and when [on_resume] raises,
    [resume] falls back to [stop] and the strategy is not left Running;
    when [on_resume] returns, the strategy goes on to the state the RUNNING
    trigger leads to. [resume] never calls [on_start]. *)
Theorem resume_degrades_to_stop (user : UserCode) (sys : Sys) :
  let fsm := _fsm (self sys) in
  lifecycle_table_ok (state_transition_table fsm) ->
  is_Some (log (self sys)) ->
  (state_transition_table fsm (state fsm) "RESUME" = None ->
     resume user sys
     = stop user
         (mkSys (self sys)
            (trace sys ++ [Trigger "RESUME";
                           LogException (InvalidStateTrigger "RESUME")]))
     /\ state (_fsm (self (snd (resume user sys)))) <> RUNNING)
  /\ (forall next,
        state_transition_table fsm (state fsm) "RESUME" = Some next ->
        let s' := set_fsm (mkFiniteStateMachine
                             (state_transition_table fsm) next) (self sys) in
        let tr' := trace sys ++ [Trigger "RESUME"; Log INF "state=..."] in
        (forall ex, on_resume_body user s' = Some ex ->
           resume user sys
           = stop user (mkSys s' (tr' ++ [Call on_resume_; LogException ex]))
           /\ state (_fsm (self (snd (resume user sys)))) <> RUNNING)
        /\ (on_resume_body user s' = None ->
            forall running,
              state_transition_table fsm next "RUNNING" = Some running ->
              resume user sys
              = (Ok tt,
                 mkSys (set_fsm (mkFiniteStateMachine
                                   (state_transition_table fsm) running)
                          (self sys))
                   (tr' ++ [Call on_resume_; Trigger "RUNNING";
                            Log INF "state=."]))))
  /\ on_start_calls (trace (snd (resume user sys)))
     = on_start_calls (trace sys).
Proof.
  intros fsm Hok Hlog. subst fsm.
  assert (Hstop : forall sys0,
            state_transition_table (_fsm (self sys0))
            = state_transition_table (_fsm (self sys)) ->
            state (_fsm (self (snd (stop user sys0)))) <> RUNNING).
  { intros sys0 Ht.
    pose proof (hoare_run _ _ _ _ sys0 (stop_not_running user _ Hok) Ht) as H.
    destruct (stop user sys0) as [[[]|e] sys1]; apply H. }
  split; [|split].
  - intros Hnone. rewrite (resume_invalid user sys Hnone Hlog).
    split; [reflexivity|]. by apply Hstop.
  - intros next Hnext s' tr'. subst s' tr'.
    pose proof (resume_valid user sys next Hnext Hlog) as Hrun.
    cbv zeta in Hrun. split.
    + intros ex Hex. rewrite Hrun, Hex. split; [reflexivity|]. by apply Hstop.
    + intros Hnone running Hrunning. rewrite Hrun, Hnone.
      rewrite bind_run.
      rewrite (fsm_trigger_valid "RUNNING" running) by exact Hrunning.
      rewrite log_msg_run by exact Hlog. cbn [self trace].
      rewrite <- !app_assoc. reflexivity.
  - by apply (preserves_run _ _ _ (resume_on_start_calls user _)).
Qed.

(** *** What is never sent *)

Lemma preserves_not_none_bind {A B} (I : Sys -> Prop) (o : option A) param
    (k : A -> M Sys B) :
  (forall a, o = Some a -> preserves I (k a)) ->
  preserves I (Condition.not_none o param ≫= k).
Proof.
  intros Hk. destruct o as [a|].
  - intros sys Hsys. by apply (Hk a).
  - by intros sys Hsys.
Qed.

Lemma preserves_attr_bind {A B} (I : Sys -> Prop) (o : option A) name
    (k : A -> M Sys B) :
  (forall a, o = Some a -> preserves I (k a)) ->
  preserves I (attr o name ≫= k).
Proof.
  intros Hk. destruct o as [a|].
  - intros sys Hsys. by apply (Hk a).
  - by intros sys Hsys.
Qed.

Ltac engine_step :=
  lazymatch goal with
  | |- preserves _ (Condition.not_none _ _ ≫= _) =>
      apply preserves_not_none_bind; intros ? ?
  | |- preserves _ (attr _ _ ≫= _) =>
      apply preserves_attr_bind; intros ? ?
  | |- _ => preserves_step
  end.

Ltac engine_side :=
  intros [? ?] ?; simpl in *;
  repeat match goal with H : exists _, _ |- _ => destruct H end;
  simpl in *;
  repeat match goal with H : _ /\ _ |- _ => destruct H end;
  first [ congruence
        | split;
          [ assumption
          | first [ assumption
                  | rewrite commands_snoc; simpl; rewrite ?app_nil_r;
                    assumption ] ] ].

Lemma no_engine_kept (user : UserCode) (int : string -> option Z) (op : Op)
    (sent : list Command) :
  registers_engine op = false ->
  preserves (fun sys => _exec_engine (self sys) = None
                        /\ commands (trace sys) = sent)
    (run_op user int op).
Proof.
  intros Hop. destruct op; try discriminate; simpl run_op;
    repeat engine_step; engine_side.
Qed.

(** X27: Without an execution engine no command is sent: over any run of calls
    that does not register one, whatever the calls are and however they
    end, the strategy sends nothing. *)
Theorem no_command_without_execution_engine (user : UserCode)
    (int : string -> option Z) (ops : list Op) (sys : Sys) :
  _exec_engine (self sys) = None ->
  Forall (fun op => registers_engine op = false) ops ->
  commands (trace (run_ops user int ops sys)) = commands (trace sys)
  /\ _exec_engine (self (run_ops user int ops sys)) = None.
Proof.
  intros Hnone Hops. revert sys Hnone.
  induction Hops as [|op ops Hop _ IH]; intros sys Hnone; [done|].
  simpl.
  destruct (preserves_run _ _ sys
              (no_engine_kept user int op (commands (trace sys)) Hop))
    as [Hnone' Hsent]; [done|].
  destruct (IH _ Hnone') as [IH1 IH2]. split; congruence.
Qed.

(** *** The indicator registry *)

Lemma receivers_ok_mono (registered registered' receivers : list Indicator) :
  registered ⊆ registered' ->
  receivers_ok registered receivers -> receivers_ok registered' receivers.
Proof.
  intros Hsub (Hne & Hnd & Hin). repeat split; [done|done|].
  intros x Hx. apply Hsub, Hin, Hx.
Qed.

Lemma receivers_ok_snoc (registered receivers : list Indicator)
    (indicator : Indicator) :
  indicator ∈ registered ->
  indicator ∉ receivers ->
  (receivers = [] \/ receivers_ok registered receivers) ->
  receivers_ok registered (receivers ++ [indicator]).
Proof.
  intros Hin Hn Hok. repeat split.
  - by destruct receivers.
  - apply NoDup_app. destruct Hok as [->|(_ & Hnd & _)].
    + repeat split; [constructor| |apply NoDup_singleton].
      intros x Hx. inversion Hx.
    + repeat split; [done| |apply NoDup_singleton].
      intros x Hx Hx'. apply list_elem_of_singleton in Hx'. by subst.
  - intros x Hx. apply elem_of_app in Hx as [Hx|Hx].
    + destruct Hok as [->|(_ & _ & Hsub)]; [inversion Hx|by apply Hsub].
    + apply list_elem_of_singleton in Hx. by subst.
Qed.

(** [add_indicator], run. *)
Lemma add_indicator_run (indicator : Indicator) (sys : Sys) :
  exists registered,
    add_indicator indicator sys
    = (Ok tt, mkSys (set_indicators registered (self sys)) (trace sys))
    /\ indicator ∈ registered
    /\ _indicators (self sys) ⊆ registered
    /\ (NoDup (_indicators (self sys)) -> NoDup registered).
Proof.
  destruct sys as [s tr]. unfold add_indicator, this, update. monad_simpl.
  destruct (decide (indicator ∈ _indicators s)) as [Hin|Hn]; monad_simpl.
  - exists (_indicators s). split; [by destruct s|]. done.
  - eexists. split; [reflexivity|]. split; [|split].
    + apply elem_of_app. right. by apply list_elem_of_singleton.
    + intros x Hx. apply elem_of_app. by left.
    + intros Hnd. apply NoDup_app. repeat split; [done| |apply NoDup_singleton].
      intros x Hx Hx'. apply list_elem_of_singleton in Hx'. by subst.
Qed.

Lemma register_quotes_ok (symbol : Symbol) (indicator : Indicator) :
  preserves (fun sys => registry_ok (self sys))
    (register_indicator_for_quote_ticks symbol indicator).
Proof.
  intros sys (Hnd & Hq & Ht & Hb).
  unfold register_indicator_for_quote_ticks. rewrite bind_run.
  destruct (add_indicator_run indicator sys)
    as (registered & -> & Hin & Hsub & Hnd').
  rewrite bind_run. unfold this at 1. cbv beta iota zeta.
  cbn [self trace _indicators_for_quotes set_indicators].
  assert (Hok : registry_ok (set_indicators registered (self sys))).
  { split; [by apply Hnd'|]. split; [|split];
      intros k l Hl; apply (receivers_ok_mono (_indicators (self sys))); eauto. }
  case_decide as Hreg.
  - assert (Hp : preserves (fun sys => registry_ok (self sys))
                   (log_msg ERR "Indicator already registered for quote ticks."))
      by (preserves_steps; intros [? ?] ?; simpl in *; assumption).
    apply (Hp (mkSys (set_indicators registered (self sys)) (trace sys)) Hok).
  - unfold update, modify. cbn [self trace].
    destruct Hok as (Hnd2 & Hq2 & Ht2 & Hb2). simpl in *.
    split; [done|]. split; [|split; [done|done]].
    intros k l Hl. simpl in Hl. destruct (decide (k = symbol)) as [->|Hk].
    + rewrite lookup_insert_eq in Hl. injection Hl as <-.
      apply receivers_ok_snoc; [done|done|].
      destruct (_indicators_for_quotes (self sys) !! symbol) as [l0|] eqn:Hl0;
        simpl; [right; by eapply Hq2|by left].
    + rewrite lookup_insert_ne in Hl by done. by eapply Hq2.
Qed.

Lemma register_trades_ok (symbol : Symbol) (indicator : Indicator) :
  preserves (fun sys => registry_ok (self sys))
    (register_indicator_for_trade_ticks symbol indicator).
Proof.
  intros sys (Hnd & Hq & Ht & Hb).
  unfold register_indicator_for_trade_ticks. rewrite bind_run.
  destruct (add_indicator_run indicator sys)
    as (registered & -> & Hin & Hsub & Hnd').
  rewrite bind_run. unfold this at 1. cbv beta iota zeta.
  cbn [self trace _indicators_for_trades set_indicators].
  assert (Hok : registry_ok (set_indicators registered (self sys))).
  { split; [by apply Hnd'|]. split; [|split];
      intros k l Hl; apply (receivers_ok_mono (_indicators (self sys))); eauto. }
  case_decide as Hreg.
  - assert (Hp : preserves (fun sys => registry_ok (self sys))
                   (log_msg ERR "Indicator already registered for trade ticks."))
      by (preserves_steps; intros [? ?] ?; simpl in *; assumption).
    apply (Hp (mkSys (set_indicators registered (self sys)) (trace sys)) Hok).
  - unfold update, modify. cbn [self trace].
    destruct Hok as (Hnd2 & Hq2 & Ht2 & Hb2). simpl in *.
    split; [done|]. split; [done|]. split; [|done].
    intros k l Hl. simpl in Hl. destruct (decide (k = symbol)) as [->|Hk].
    + rewrite lookup_insert_eq in Hl. injection Hl as <-.
      apply receivers_ok_snoc; [done|done|].
      destruct (_indicators_for_trades (self sys) !! symbol) as [l0|] eqn:Hl0;
        simpl; [right; by eapply Ht2|by left].
    + rewrite lookup_insert_ne in Hl by done. by eapply Ht2.
Qed.

Lemma register_bars_ok (bar_type : BarType) (indicator : Indicator) :
  preserves (fun sys => registry_ok (self sys))
    (register_indicator_for_bars bar_type indicator).
Proof.
  intros sys (Hnd & Hq & Ht & Hb).
  unfold register_indicator_for_bars. rewrite bind_run.
  destruct (add_indicator_run indicator sys)
    as (registered & -> & Hin & Hsub & Hnd').
  rewrite bind_run. unfold this at 1. cbv beta iota zeta.
  cbn [self trace _indicators_for_bars set_indicators].
  assert (Hok : registry_ok (set_indicators registered (self sys))).
  { split; [by apply Hnd'|]. split; [|split];
      intros k l Hl; apply (receivers_ok_mono (_indicators (self sys))); eauto. }
  case_decide as Hreg.
  - assert (Hp : preserves (fun sys => registry_ok (self sys))
                   (log_msg ERR "Indicator already registered for bars."))
      by (preserves_steps; intros [? ?] ?; simpl in *; assumption).
    apply (Hp (mkSys (set_indicators registered (self sys)) (trace sys)) Hok).
  - unfold update, modify. cbn [self trace].
    destruct Hok as (Hnd2 & Hq2 & Ht2 & Hb2). simpl in *.
    split; [done|]. split; [done|]. split; [done|].
    intros k l Hl. simpl in Hl. destruct (decide (k = bar_type)) as [->|Hk].
    + rewrite lookup_insert_eq in Hl. injection Hl as <-.
      apply receivers_ok_snoc; [done|done|].
      destruct (_indicators_for_bars (self sys) !! bar_type) as [l0|] eqn:Hl0;
        simpl; [right; by eapply Hb2|by left].
    + rewrite lookup_insert_ne in Hl by done. by eapply Hb2.
Qed.

Ltac frame_side :=
  intros [? ?] ?; unfold registry_ok in *; simpl in *; assumption.

(** The block of [reset] that clears the session. *)
Lemma reset_block (k : M Sys unit) (sys : Sys) :
  exists s',
    (this ≫= fun s =>
       match order_factory s with
       | Some _ => update (set_order_factory (Some (mkOrderFactory 0)))
       | None => ret tt
       end;;
       match position_id_generator s with
       | Some _ =>
           update (set_position_id_generator (Some (mkPositionIdGenerator 0)))
       | None => ret tt
       end;;
       update (set_flattening_ids ∅);;
       update (set_stop_loss_ids ∅);;
       update (set_take_profit_ids ∅);;
       update (set_indicators []);;
       update (set_indicators_for_quotes ∅);;
       update (set_indicators_for_trades ∅);;
       update (set_indicators_for_bars ∅);;
       k) sys
    = k (mkSys s' (trace sys))
    /\ session_cleared s'.
Proof.
  destruct sys as [s tr]. unfold this, update. monad_simpl.
  destruct (order_factory s), (position_id_generator s); monad_simpl;
    eexists; (split; [reflexivity|]); repeat split.
Qed.

Lemma session_cleared_registry_ok (s : TradingStrategy) :
  session_cleared s -> registry_ok s.
Proof.
  intros (_ & _ & _ & Hi & Hq & Ht & Hb). unfold registry_ok.
  rewrite Hi, Hq, Ht, Hb. split; [constructor|].
  split; [|split]; intros k l Hl; by rewrite lookup_empty in Hl.
Qed.

Lemma reset_registry_ok (user : UserCode) :
  preserves (fun sys => registry_ok (self sys)) (reset user).
Proof.
  unfold reset.
  apply preserves_bind; [preserves_steps; frame_side|].
  intros [|]; simpl; [|apply preserves_ret].
  apply preserves_bind; [preserves_steps; frame_side|]. intros _.
  intros sys _.
  match goal with |- context [(this ≫= ?f) sys] =>
    match f with
    | context [update (set_indicators_for_bars ∅) ≫= ?k] =>
        destruct (reset_block (k tt) sys) as (s' & Hrun & Hcleared)
    end
  end.
  unfold preserves, hoare in *. cbv beta. rewrite Hrun.
  assert (Htail : preserves (fun sys => session_cleared (self sys))
            (try_except (on_reset user) log_exception
             ≫= fun _ => fsm_trigger "RESET" ≫= fun _ => log_msg INF "state=."))
    by (preserves_steps; intros [? ?] ?; unfold session_cleared in *;
        simpl in *; assumption).
  pose proof (Htail (mkSys s' (trace sys)) Hcleared) as H.
  destruct ((try_except (on_reset user) log_exception ≫= _) _) as [[[]|e] sys'];
    by apply session_cleared_registry_ok.
Qed.

Lemma registry_kept (user : UserCode) (int : string -> option Z) (op : Op) :
  preserves (fun sys => registry_ok (self sys)) (run_op user int op).
Proof.
  destruct op; simpl run_op;
    try apply reset_registry_ok;
    try apply register_quotes_ok;
    try apply register_trades_ok;
    try apply register_bars_ok;
    preserves_steps; frame_side.
Qed.

(** X28: The indicator registry stays well-formed over any run of calls: no
    indicator is listed twice among the registered indicators, the
    receivers kept for a symbol or bar type are not empty, hold no
    indicator twice and are all among the registered indicators. Hence a
    tick or bar is never passed twice to the same indicator. *)
Theorem indicator_registry_stays_well_formed (user : UserCode)
    (int : string -> option Z) (ops : list Op) (sys : Sys) :
  registry_ok (self sys) ->
  registry_ok (self (run_ops user int ops sys))
  /\ (forall tick,
        NoDup (default [] (_indicators_for_quotes
                             (self (run_ops user int ops sys))
                           !! quote_symbol tick)))
  /\ (forall tick,
        NoDup (default [] (_indicators_for_trades
                             (self (run_ops user int ops sys))
                           !! trade_symbol tick)))
  /\ (forall bar_type,
        NoDup (default [] (_indicators_for_bars
                             (self (run_ops user int ops sys))
                           !! bar_type))).
Proof.
  intros Hok.
  assert (H : registry_ok (self (run_ops user int ops sys))).
  { revert sys Hok. induction ops as [|op ops IH]; intros sys Hok; [exact Hok|].
    simpl. apply IH. by apply (preserves_run _ _ _ (registry_kept user int op)). }
  split; [exact H|]. destruct H as (_ & Hq & Ht & Hb).
  split; [|split].
  - intros tick.
    destruct (_ !! quote_symbol tick) as [l|] eqn:Hl; simpl; [|constructor].
    by destruct (Hq _ _ Hl) as (_ & ? & _).
  - intros tick.
    destruct (_ !! trade_symbol tick) as [l|] eqn:Hl; simpl; [|constructor].
    by destruct (Ht _ _ Hl) as (_ & ? & _).
  - intros bar_type.
    destruct (_ !! bar_type) as [l|] eqn:Hl; simpl; [|constructor].
    by destruct (Hb _ _ Hl) as (_ & ? & _).
Qed.

(** X29: Registering an indicator for a symbol's quote ticks or trade ticks, or
    for a bar type, puts it among the registered indicators and among the
    receivers of that symbol or bar type; registering it there a second
    time leaves the strategy as it is and logs an error. *)
Theorem registering_an_indicator_twice (indicator : Indicator) (sys : Sys) :
  (forall symbol,
     let once := snd (register_indicator_for_quote_ticks symbol indicator sys) in
     let twice := snd (register_indicator_for_quote_ticks symbol indicator once) in
     indicator ∈ _indicators (self once)
     /\ indicator ∈ default [] (_indicators_for_quotes (self once) !! symbol)
     /\ self twice = self once
     /\ (is_Some (log (self sys)) ->
         trace twice
         = trace once
           ++ [Log ERR "Indicator already registered for quote ticks."]))
  /\ (forall symbol,
        let once := snd (register_indicator_for_trade_ticks symbol indicator sys) in
        let twice := snd (register_indicator_for_trade_ticks symbol indicator once) in
        indicator ∈ _indicators (self once)
        /\ indicator ∈ default [] (_indicators_for_trades (self once) !! symbol)
        /\ self twice = self once
        /\ (is_Some (log (self sys)) ->
            trace twice
            = trace once
              ++ [Log ERR "Indicator already registered for trade ticks."]))
  /\ (forall bar_type,
        let once := snd (register_indicator_for_bars bar_type indicator sys) in
        let twice := snd (register_indicator_for_bars bar_type indicator once) in
        indicator ∈ _indicators (self once)
        /\ indicator ∈ default [] (_indicators_for_bars (self once) !! bar_type)
        /\ self twice = self once
        /\ (is_Some (log (self sys)) ->
            trace twice
            = trace once ++ [Log ERR "Indicator already registered for bars."])).
Proof.
  destruct sys as [s tr].
  assert (Hsnoc : forall l : list Indicator, indicator ∈ l ++ [indicator]).
  { intros l. apply elem_of_app. right. by apply list_elem_of_singleton. }
  split; [|split]; intros key once twice; subst once twice;
    unfold register_indicator_for_quote_ticks,
      register_indicator_for_trade_ticks, register_indicator_for_bars,
      add_indicator, log_msg, attr, this, update, emit;
    monad_simpl.
  - destruct (decide (indicator ∈ _indicators s)) as [Hi|Hi]; monad_simpl;
      (destruct (decide (indicator ∈ default [] (_indicators_for_quotes s !! key)))
         as [Hr|Hr]; monad_simpl;
       [destruct (log s) as [lg|] eqn:Hlog; monad_simpl|]);
      rewrite ?lookup_insert_eq; simpl;
      rewrite ?decide_True by auto; monad_simpl;
      rewrite ?lookup_insert_eq; simpl; rewrite ?decide_True by auto;
      monad_simpl; rewrite ?Hlog; monad_simpl.
    all: try (destruct (log s) as [lg|] eqn:Hlog; monad_simpl).
    all: repeat split; auto; try (by intros [? ?]).
  - destruct (decide (indicator ∈ _indicators s)) as [Hi|Hi]; monad_simpl;
      (destruct (decide (indicator ∈ default [] (_indicators_for_trades s !! key)))
         as [Hr|Hr]; monad_simpl;
       [destruct (log s) as [lg|] eqn:Hlog; monad_simpl|]);
      rewrite ?lookup_insert_eq; simpl;
      rewrite ?decide_True by auto; monad_simpl;
      rewrite ?lookup_insert_eq; simpl; rewrite ?decide_True by auto;
      monad_simpl; rewrite ?Hlog; monad_simpl.
    all: try (destruct (log s) as [lg|] eqn:Hlog; monad_simpl).
    all: repeat split; auto; try (by intros [? ?]).
  - destruct (decide (indicator ∈ _indicators s)) as [Hi|Hi]; monad_simpl;
      (destruct (decide (indicator ∈ default [] (_indicators_for_bars s !! key)))
         as [Hr|Hr]; monad_simpl;
       [destruct (log s) as [lg|] eqn:Hlog; monad_simpl|]);
      rewrite ?lookup_insert_eq; simpl;
      rewrite ?decide_True by auto; monad_simpl;
      rewrite ?lookup_insert_eq; simpl; rewrite ?decide_True by auto;
      monad_simpl; rewrite ?Hlog; monad_simpl.
    all: try (destruct (log s) as [lg|] eqn:Hlog; monad_simpl).
    all: repeat split; auto; try (by intros [? ?]).
Qed.

(** *** Stop *)

Lemma triggers_app (tr1 tr2 : list Effect) :
  triggers (tr1 ++ tr2) = triggers tr1 ++ triggers tr2.
Proof. apply omap_app. Qed.

Lemma cancel_requests_app (tr1 tr2 : list Effect) :
  cancel_requests (tr1 ++ tr2) = cancel_requests tr1 ++ cancel_requests tr2.
Proof. unfold cancel_requests. by rewrite commands_app, omap_app. Qed.

Lemma set_order_factory_same (s : TradingStrategy) (factory : OrderFactory) :
  order_factory s = Some factory -> set_order_factory (Some factory) s = s.
Proof. destruct s. simpl. by intros ->. Qed.

(** The loop of [flatten_all_positions]: what it sends, and that it changes
    the order factory only. *)
Lemma flatten_loop_frame trader engine
    (positions : list (ClientPositionId * Position)) :
  Forall (fun entry => is_closed entry.2 = false ->
            market_position entry.2 = LONG \/ market_position entry.2 = SHORT)
    positions ->
  forall sys, ready trader engine (self sys) ->
  exists factory' tail,
    for_each positions (fun '(position_id, position) =>
            if is_closed position
            then log_msg WRN
                   "Cannot flatten position (the position was already FLAT."
            else
              order ← order_factory_market (symbol position)
                         (get_flatten_side (market_position position))
                         (quantity position);
              log_msg INF "Flattening position...";;
              submit_order order position_id) sys
    = (Ok tt,
       mkSys (set_order_factory (Some factory') (self sys)) (trace sys ++ tail))
    /\ flatten_requests tail
       = map flattening_of (filter (fun e => not_closed e = true) positions)
    /\ cancel_requests tail = []
    /\ hooks_called tail = []
    /\ triggers tail = [].
Proof.
  induction 1 as [|[pid pos] positions Hpos Hrest IH]; intros [s tr] Hready.
  - destruct (Hready) as (_ & _ & _ & _ & _ & [fa Hfa]). simpl in Hfa.
    exists fa, []. simpl. rewrite app_nil_r.
    rewrite set_order_factory_same by exact Hfa. done.
  - simpl for_each. set (loop := for_each positions _) in *.
    unfold bind at 1. simpl in Hpos.
    destruct (is_closed pos) eqn:Hclosed.
    + rewrite log_msg_run by apply Hready.
      destruct (IH (mkSys s (tr ++ [Log WRN
          "Cannot flatten position (the position was already FLAT."])))
        as (factory' & tail & Hrun & Hreq & Hcan & Hhooks & Htrig);
        [exact Hready|].
      cbv beta iota. cbn [self trace] in *. rewrite Hrun.
      exists factory', (Log WRN
          "Cannot flatten position (the position was already FLAT." :: tail).
      rewrite <- app_assoc. split; [reflexivity|].
      change (Log WRN "Cannot flatten position (the position was already FLAT."
                :: tail)
        with ([Log WRN "Cannot flatten position (the position was already FLAT."]
                ++ tail).
      rewrite flatten_requests_app, cancel_requests_app, hooks_called_app,
        triggers_app, Hreq, Hcan, Hhooks, Htrig.
      rewrite filter_cons_False
        by (unfold not_closed; simpl; rewrite Hclosed; simpl; done).
      done.
    + destruct (Hready) as (_ & _ & _ & _ & _ & [fa Hfa]).
      rewrite bind_run.
      rewrite (order_factory_market_run _ _ _ _ fa) by
        (try exact Hfa; apply get_flatten_side_run; auto).
      rewrite bind_run.
      rewrite log_msg_run by apply Hready.
      rewrite (submit_order_run trader engine) by
        (by apply ready_set_order_factory).
      cbv beta iota. cbn [self trace].
      match goal with |- context [loop ?x] => destruct (IH x)
        as (factory' & tail & Hrun & Hreq & Hcan & Hhooks & Htrig) end.
      { by apply ready_set_order_factory. }
      cbn [self trace] in *. rewrite Hrun.
      eexists factory', (_ :: _ :: _ :: tail).
      rewrite <- !app_assoc. split; [reflexivity|].
      match goal with |- context [?a :: ?b :: ?c :: tail] =>
        change (a :: b :: c :: tail) with ([a; b; c] ++ tail) end.
      rewrite flatten_requests_app, cancel_requests_app, hooks_called_app,
        triggers_app, Hreq, Hcan, Hhooks, Htrig.
      rewrite filter_cons_True
        by (unfold not_closed; simpl; by rewrite Hclosed).
      done.
Qed.

Lemma flatten_on_stop_run trader engine (flag : bool) (sys : Sys) :
  ready trader engine (self sys) ->
  Forall (fun entry =>
            is_closed entry.2 = false ->
            market_position entry.2 = LONG \/ market_position entry.2 = SHORT)
    (get_positions_open (database engine) (id (self sys))) ->
  exists factory' tail,
    (if flag then flatten_all_positions else ret tt) sys
    = (Ok tt,
       mkSys (set_order_factory (Some factory') (self sys)) (trace sys ++ tail))
    /\ flatten_requests tail
       = (if flag
          then map flattening_of
                 (filter (fun e => not_closed e = true)
                    (get_positions_open (database engine) (id (self sys))))
          else [])
    /\ cancel_requests tail = []
    /\ hooks_called tail = []
    /\ triggers tail = [].
Proof.
  intros Hready Hpos.
  pose proof Hready as (_ & Heng & Hlog & _ & _ & [fa Hfa]).
  destruct flag.
  2:{ exists fa, []. unfold ret. rewrite app_nil_r.
      rewrite set_order_factory_same by exact Hfa. by destruct sys. }
  unfold flatten_all_positions.
  rewrite bind_run. unfold this at 1. cbv beta iota.
  rewrite bind_run, Heng. unfold Condition.not_none at 1, ret at 1.
  cbv beta iota zeta.
  destruct (get_positions_open (database engine) (id (self sys)))
    as [|entry positions] eqn:Hopen.
  - rewrite log_msg_run by exact Hlog.
    exists fa, [Log INF "No open positions to flatten."].
    rewrite set_order_factory_same by exact Hfa. done.
  - rewrite bind_run, log_msg_run by exact Hlog. cbv beta iota.
    destruct (flatten_loop_frame trader engine (entry :: positions) Hpos
                (mkSys (self sys)
                   (trace sys ++ [Log INF "Flattening open position(s)..."])))
      as (factory' & tail & Hrun & Hreq & Hcan & Hhooks & Htrig);
      [exact Hready|].
    cbn [self trace] in *. rewrite Hrun.
    exists factory', (Log INF "Flattening open position(s)..." :: tail).
    rewrite <- app_assoc. split; [reflexivity|].
    change (Log INF "Flattening open position(s)..." :: tail)
      with ([Log INF "Flattening open position(s)..."] ++ tail).
    rewrite flatten_requests_app, cancel_requests_app, hooks_called_app,
      triggers_app, Hreq, Hcan, Hhooks, Htrig.
    done.
Qed.

Lemma cancel_on_stop_run trader engine (flag : bool) (sys : Sys) :
  ready trader engine (self sys) ->
  exists tail,
    (if flag then cancel_all_orders else ret tt) sys
    = (Ok tt, mkSys (self sys) (trace sys ++ tail))
    /\ cancel_requests tail
       = (if flag
          then (get_orders_working (database engine) (id (self sys))).*1
          else [])
    /\ flatten_requests tail = []
    /\ hooks_called tail = []
    /\ triggers tail = [].
Proof.
  intros Hready.
  pose proof Hready as (Htr & Heng & Hlog & [uf Huf] & [ck Hck] & _).
  destruct flag.
  2:{ exists []. unfold ret. rewrite app_nil_r. by destruct sys. }
  unfold cancel_all_orders. rewrite bind_run. unfold this at 1.
  cbv beta iota. rewrite bind_run, Heng.
  unfold Condition.not_none at 1, ret at 1. cbv beta iota zeta.
  destruct (get_orders_working (database engine) (id (self sys)))
    as [|entry working] eqn:Hworking.
  - rewrite log_msg_run by exact Hlog. eexists. split; [reflexivity|]. done.
  - rewrite bind_run, log_msg_run by exact Hlog. cbv beta iota.
    rewrite (for_each_appends_if (ready trader engine) _
               (fun _ '(order_id, _) =>
                  [Log INF "CMD SENT CancelOrder.";
                   ExecuteCommand
                     (CancelOrder (Some trader) (account_id engine) order_id)])).
    + cbn [self trace]. rewrite <- app_assoc. eexists. split; [reflexivity|].
      assert (Haux : forall l : list (ClientOrderId * Order),
                let tail :=
                  flat_map (fun '(order_id, _) =>
                     [Log INF "CMD SENT CancelOrder.";
                      ExecuteCommand
                        (CancelOrder (Some trader) (account_id engine)
                           order_id)]) l in
                cancel_requests tail = l.*1
                /\ flatten_requests tail = []
                /\ hooks_called tail = []
                /\ triggers tail = []).
      { induction l as [|[order_id order] l (IH1 & IH2 & IH3 & IH4)]; [done|].
        cbn [flat_map] in *.
        rewrite cancel_requests_app, flatten_requests_app, hooks_called_app,
          triggers_app, IH1, IH2, IH3, IH4. done. }
      destruct (Haux (entry :: working)) as (H1 & H2 & H3 & H4).
      rewrite cancel_requests_app, flatten_requests_app, hooks_called_app,
        triggers_app, H1, H2, H3, H4. done.
    + intros [order_id order] sys0 Hready0.
      pose proof Hready0 as (Htr0 & Heng0 & [lg0 Hlog0] & [uf0 Huf0] & [ck0 Hck0] & _).
      unfold log_msg, attr, this, emit. monad_simpl.
      rewrite Htr0, Heng0, Huf0, Hck0. monad_simpl. rewrite Hlog0. monad_simpl.
      by rewrite <- app_assoc.
    + exact Hready.
Qed.

Lemma on_stop_swallowed (user : UserCode) (sys : Sys) :
  is_Some (log (self sys)) ->
  try_except (on_stop user) log_exception sys
  = (Ok tt,
     mkSys (self sys)
       (trace sys
        ++ Call on_stop_
           :: match on_stop_body user (self sys) with
              | Some ex => [LogException ex]
              | None => []
              end)).
Proof.
  destruct sys as [s tr]. intros [lg Hlog]. cbn [self trace] in *.
  unfold on_stop, run_hook, log_exception, attr, this, emit. monad_simpl.
  destruct (on_stop_body user s) as [ex|]; monad_simpl; [|reflexivity].
  rewrite Hlog. monad_simpl. by rewrite <- app_assoc.
Qed.

(** X30: [stop] of a strategy registered with a trader and the execution
    engine, when the state machine accepts STOP and then STOPPED: it
    returns normally, whether or not [on_stop] raises; all timers are
    cancelled; when [flatten_on_stop] is set one flattening market order is
    sent for each open position that is not closed, and when
    [cancel_all_orders_on_stop] is set one cancel for each working order,
    otherwise none; [on_stop] is called once, after these; and of the
    strategy only the lifecycle state, the clock and the order factory
    change: in particular the positions flattened are not put in flight. *)
Theorem stop_of_a_registered_strategy (user : UserCode) trader engine
    (timers : Clock) (stopping stopped : ComponentState) (sys : Sys) :
  let table := state_transition_table (_fsm (self sys)) in
  let positions := get_positions_open (database engine) (id (self sys)) in
  let working := get_orders_working (database engine) (id (self sys)) in
  ready trader engine (self sys) ->
  clock (self sys) = Some timers ->
  table (state (_fsm (self sys))) "STOP" = Some stopping ->
  table stopping "STOPPED" = Some stopped ->
  Forall (fun entry =>
            is_closed entry.2 = false ->
            market_position entry.2 = LONG \/ market_position entry.2 = SHORT)
    positions ->
  exists factory' tail,
    stop user sys
    = (Ok tt,
       mkSys (set_fsm (mkFiniteStateMachine table stopped)
                (set_order_factory (Some factory')
                   (set_clock (Some (mkClock [])) (self sys))))
         (trace sys ++ tail))
    /\ CancelAllTimers ∈ tail
    /\ flatten_requests tail
       = (if flatten_on_stop (self sys)
          then map flattening_of (filter (fun e => not_closed e = true) positions)
          else [])
    /\ cancel_requests tail
       = (if cancel_all_orders_on_stop (self sys) then working.*1 else [])
    /\ hooks_called tail = [on_stop_]
    /\ triggers tail = ["STOP"; "STOPPED"].
Proof.
  intros table positions working Hready Hck H1 H2 Hpos.
  subst table positions working.
  pose proof Hready as (Htr & Heng & Hlog & Huf & _ & Hfa).
  unfold stop, try_except_InvalidStateTrigger.
  rewrite bind_run. unfold try_except at 1.
  rewrite bind_run, (fsm_trigger_valid _ _ _ H1). unfold ret at 1.
  cbv beta iota. cbn [negb].
  rewrite bind_run, log_msg_run by exact Hlog. cbn [self trace].
  rewrite bind_run. unfold this at 1. cbv beta iota. cbn [self trace].
  rewrite bind_run. cbn [clock set_fsm]. rewrite Hck.
  unfold attr at 1, ret at 1. cbv beta iota.
  rewrite bind_run. unfold emit at 1, modify at 1. cbv beta iota.
  cbn [self trace].
  rewrite bind_run. unfold update at 1, modify at 1. cbv beta iota.
  cbn [self trace].
  rewrite bind_run.
  rewrite (for_each_appends_if (fun s => is_Some (log s)) _
             (fun _ _ => [Log INF "Cancelled Timer."]))
    by (first [exact Hlog | intros; by apply log_msg_run]).
  cbn [self trace].
  rewrite bind_run. unfold this at 1. cbv beta iota. cbn [self trace].
  rewrite bind_run.
  match goal with
  | |- context [(if ?flag then flatten_all_positions else ret tt) ?x] =>
      destruct (flatten_on_stop_run trader engine flag x)
        as (factory' & tail1 & -> & Hreq1 & Hcan1 & Hhooks1 & Htrig1)
  end.
  { destruct Hready as (? & ? & ? & ? & ? & ?). unfold ready. simpl.
    repeat split; eauto. }
  { exact Hpos. }
  cbn [self trace].
  rewrite bind_run. unfold this at 1. cbv beta iota. cbn [self trace].
  rewrite bind_run.
  match goal with
  | |- context [(if ?flag then cancel_all_orders else ret tt) ?x] =>
      destruct (cancel_on_stop_run trader engine flag x)
        as (tail2 & -> & Hcan2 & Hreq2 & Hhooks2 & Htrig2)
  end.
  { destruct Hready as (? & ? & ? & ? & ? & ?). unfold ready. simpl.
    repeat split; eauto. }
  cbn [self trace].
  rewrite bind_run, on_stop_swallowed by exact Hlog. cbn [self trace].
  rewrite bind_run.
  rewrite (fsm_trigger_valid "STOPPED" stopped) by exact H2.
  rewrite log_msg_run by exact Hlog. cbn [self trace].
  exists factory'. eexists.
  split.
  { rewrite <- !app_assoc. reflexivity. }
  cbn [flatten_on_stop cancel_all_orders_on_stop set_fsm set_clock
       set_order_factory id] in *.
  split.
  { cbn [app]. do 2 apply list_elem_of_further. apply list_elem_of_here. }
  rewrite !flatten_requests_app, !cancel_requests_app, !hooks_called_app,
    !triggers_app, Hreq1, Hcan1, Hhooks1, Htrig1, Hreq2, Hcan2, Hhooks2, Htrig2.
  assert (Htimers : forall l : list string,
            let tail := flat_map (fun _ : string => [Log INF "Cancelled Timer."]) l in
            flatten_requests tail = [] /\ cancel_requests tail = []
            /\ hooks_called tail = [] /\ triggers tail = []).
  { induction l as [|x l IH]; [done|]. exact IH. }
  destruct (Htimers (timer_names timers)) as (-> & -> & -> & ->).
  destruct (on_stop_body user _) as [ex|]; simpl;
    rewrite ?app_nil_r; repeat split; reflexivity.
Qed.

(** *** Instances *)

Lemma ready_registered : ready "TESTER-000" engine_y (self registered).
Proof. repeat split; by eexists. Qed.

Lemma only_lifecycle_calls_change_state_witness :
  _fsm (self (run_ops base_class decimal
                [HandleData "news"; FlattenPosition "P-1"; Save] running))
  = _fsm (self running).
Proof.
  apply (proj2 (only_lifecycle_calls_change_state base_class decimal _ running)).
  repeat constructor.
Defined.

Lemma terminal_state_is_kept_witness :
  _fsm (self (run_ops base_class decimal [Start; Reset; Resume] disposed))
  = _fsm (self disposed).
Proof.
  apply (terminal_state_is_kept base_class decimal _ disposed).
  intros trigger. reflexivity.
Defined.


Lemma hook_exceptions_follow_reraise_flag_witness :
  handle_data failing_on_data "news" running
  = (Raise (UserException "on_data"),
     mkSys (self running)
       (trace running ++ [Call (on_data_ "news");
                          LogException (UserException "on_data")])).
Proof.
  apply (proj1 (hook_exceptions_follow_reraise_flag failing_on_data running
                  (UserException "on_data")
                  (ex_intro _ mkLoggerAdapter eq_refl) eq_refl)).
  reflexivity.
Defined.

Lemma historical_batches_update_indicators_only_witness :
  handle_quote_ticks base_class [mkQuoteTick "AUD/USD" 1 2] with_indicator
  = (Ok tt,
     mkSys (self with_indicator)
       ((trace with_indicator ++ [Log INF "Received <QuoteTick[]> data."])
        ++ [IndicatorQuoteTick "ema-10" (mkQuoteTick "AUD/USD" 1 2)])).
Proof.
  apply (proj1 (historical_batches_update_indicators_only base_class
                  with_indicator (ex_intro _ mkLoggerAdapter eq_refl))
           [mkQuoteTick "AUD/USD" 1 2]).
Defined.


Lemma completed_order_is_released_witness :
  1 ∈ _stop_loss_ids
        (self (run_ops base_class decimal
                 [HandleEvent (OrderFilled 2); HandleData "news"] protected_y)).
Proof.
  apply (proj2 (completed_order_is_released base_class decimal 1 protected_y)).
  - repeat constructor.
  - vm_compute. reflexivity.
Defined.

Lemma cancel_all_orders_cancels_each_working_order_witness :
  exists tail,
    cancel_all_orders registered
    = (Ok tt, mkSys (self registered) (trace registered ++ tail))
    /\ commands tail = [].
Proof.
  destruct (proj2 (cancel_all_orders_cancels_each_working_order
                     "TESTER-000" engine_y registered ready_registered))
    as (tail & Hrun & Hcommands & _).
  exists tail. split; [exact Hrun|exact Hcommands].
Defined.

Lemma flatten_position_cases_witness :
  flatten_position "P-2" registered
  = (Ok tt,
     mkSys (self registered)
       (trace registered ++ [Log ERR
          "Cannot flatten position (cannot find in cached positions."])).
Proof.
  apply (proj1 (flatten_position_cases "TESTER-000" engine_y "P-2" registered
                  ready_registered ltac:(vm_compute; set_solver))).
  reflexivity.
Defined.

Lemma rejected_child_order_flattens_position_witness :
  flatten_requests
    (trace (snd (handle_event base_class (OrderRejected 1) protected_y)))
  = flatten_requests (trace protected_y)
    ++ [("P-1", "AUD/USD", SELL, 100000)].
Proof.
  apply (rejected_child_order_flattens_position base_class "TESTER-000"
           engine_y 1 "P-1" position_y protected_y).
  - repeat split; by eexists.
  - reflexivity.
  - left. vm_compute. reflexivity.
  - reflexivity.
  - reflexivity.
  - reflexivity.
  - reflexivity.
  - by left.
  - vm_compute. set_solver.
Defined.

Lemma reset_clears_the_session_witness :
  exists sys',
    reset base_class protected_y = (Ok tt, sys')
    /\ session_cleared (self sys').
Proof.
  destruct (reset_clears_the_session base_class protected_y RESETTING
              INITIALIZED (ex_intro _ mkLoggerAdapter eq_refl) eq_refl eq_refl)
    as (sys' & Hrun & Hcleared & _).
  exists sys'. split; [exact Hrun|exact Hcleared].
Defined.

Lemma dispose_ends_disposed_witness :
  state (_fsm (self (run_ops base_class decimal [Start; Reset]
                       (snd (dispose base_class registered)))))
  = DISPOSED.
Proof.
  destruct (dispose_ends_disposed base_class decimal registered DISPOSING
              DISPOSED (ex_intro _ mkLoggerAdapter eq_refl) eq_refl eq_refl)
    as (tail & _ & _ & _ & Hkept).
  apply Hkept. intros trigger. reflexivity.
Defined.

Lemma resume_degrades_to_stop_witness :
  state (_fsm (self (snd (resume base_class running)))) <> RUNNING.
Proof.
  apply (proj1 (resume_degrades_to_stop base_class running
                  component_transitions_ok
                  (ex_intro _ mkLoggerAdapter eq_refl))).
  reflexivity.
Defined.

Lemma no_command_without_execution_engine_witness :
  commands (trace (run_ops base_class decimal
                     [RegisterTrader "TESTER-000" (mkClock []); Start;
                      FlattenAllPositions; CancelAllOrders; Stop] fresh))
  = commands (trace fresh).
Proof.
  apply (no_command_without_execution_engine base_class decimal _ fresh).
  - reflexivity.
  - repeat constructor.
Defined.

Lemma indicator_registry_stays_well_formed_witness :
  registry_ok
    (self (run_ops base_class decimal
             [RegisterIndicatorForQuoteTicks "AUD/USD" "ema-10";
              RegisterIndicatorForBars "AUD/USD-1-MIN" "ema-10";
              RegisterIndicatorForQuoteTicks "AUD/USD" "ema-10"] fresh)).
Proof.
  apply (indicator_registry_stays_well_formed base_class decimal _ fresh).
  apply session_cleared_registry_ok. repeat split.
Defined.

Lemma registering_an_indicator_twice_witness :
  trace (snd (register_indicator_for_quote_ticks "AUD/USD" "ema-10"
                (snd (register_indicator_for_quote_ticks "AUD/USD" "ema-10"
                        registered))))
  = trace (snd (register_indicator_for_quote_ticks "AUD/USD" "ema-10"
                  registered))
    ++ [Log ERR "Indicator already registered for quote ticks."].
Proof.
  apply (proj1 (registering_an_indicator_twice "ema-10" registered) "AUD/USD").
  by eexists.
Defined.

Lemma stop_of_a_registered_strategy_witness :
  exists factory' tail,
    stop base_class running
    = (Ok tt,
       mkSys (set_fsm (mkFiniteStateMachine component_transitions STOPPED)
                (set_order_factory (Some factory')
                   (set_clock (Some (mkClock [])) (self running))))
         (trace running ++ tail))
    /\ flatten_requests tail = [("P-1", "AUD/USD", SELL, 100000)]
    /\ hooks_called tail = [on_stop_].
Proof.
  destruct (stop_of_a_registered_strategy base_class "TESTER-000" engine_y
              (mkClock []) STOPPING STOPPED running)
    as (factory' & tail & Hrun & _ & Hflatten & _ & Hhooks & _).
  - repeat split; by eexists.
  - reflexivity.
  - reflexivity.
  - reflexivity.
  - repeat constructor; simpl; auto.
  - exists factory', tail. split; [exact Hrun|].
    split; [exact Hflatten|exact Hhooks].
Defined.

End StrategyRunsFacts.
